(** * Universal APK Builder: project detection and build orchestration

    A shallow embedding of the project-type detector
    ([src/detector/index.ts] and [src/detector/heuristics/*.ts]), of the
    environment check ([src/core/environment.ts]), of the process and Gradle
    runners ([src/runners/base-pipeline.ts], [src/core/network.ts]), of the
    signing stage ([src/generators/signing.ts] and every pipeline's [sign])
    and of the build orchestrator ([src/core/orchestrator.ts]).

    Conventions.  JavaScript numbers that the code only ever uses as small
    integers are [Z].  A JavaScript exception is identified with its message,
    a [string].  [undefined] is [None].  Functions of the Node platform
    ([path.join], [JSON.parse], the [fs] calls, [child_process.spawn],
    [dns.lookup]) are not code of the repository: they are components of the
    records [Host], [FS] and [Runtime], and every theorem holds for all of
    their behaviours. *)

From stdpp Require Import base strings list gmap pretty.
From Stdlib Require Import ZArith Lia Ascii Sorted.

Local Open Scope Z_scope.

(** ** Outcomes of code that may throw *)

Inductive Outcome (A : Type) : Type :=
| Ret (a : A)
| Throw (e : string).
Arguments Ret {A} a.
Arguments Throw {A} e.

(** ** JavaScript string and array primitives *)

Module Js.

(** [s.startsWith(p)] *)
Definition startsWith (s p : string) : bool := String.prefix p s.

(** [s.endsWith(suf)] *)
Definition endsWith (s suf : string) : bool :=
  String.prefix (String.rev suf) (String.rev s).

(** [s.includes(sub)] *)
Fixpoint includes (s sub : string) : bool :=
  String.prefix sub s ||
  match s with
  | EmptyString => false
  | String _ s' => includes s' sub
  end.

(** [s.replace(pat, by)] with a string pattern: only the first occurrence
    is replaced; without an occurrence the string is unchanged. *)
Fixpoint replace (s pat by_ : string) : string :=
  if String.prefix pat s
  then by_ +:+ String.substring (String.length pat) (String.length s) s
  else match s with
       | EmptyString => EmptyString
       | String c s' => String c (replace s' pat by_)
       end.

(** [arr.join(sep)] on an array of strings *)
Definition join (sep : string) (arr : list string) : string :=
  String.concat sep arr.

(** [arr.slice(0, n)] *)
Definition slice0 {A} (n : nat) (arr : list A) : list A := take n arr.

(** [Math.min] on integers *)
Definition Math_min (a b : Z) : Z := Z.min a b.

(** [arr.length] *)
Definition len {A} (arr : list A) : Z := Z.of_nat (length arr).

End Js.

(** ** JSON values, as [JSON.parse] returns them

    Of a number the detectors only test whether it is zero; a number that
    is not integral behaves as any non-zero one. *)

#[local] Set Warnings "-register-all".

Inductive json : Type :=
| JNull
| JBool (b : bool)
| JNum (z : Z)
| JStr (s : string)
| JArr (items : list json)
| JObj (fields : list (string * json)).

(** A JavaScript value that may be [undefined]. *)
Definition jsval : Type := option json.

Module Json.

(** Own property of an object by key (the first binding of the key). *)
Fixpoint lookup (k : string) (fields : list (string * json)) : jsval :=
  match fields with
  | [] => None
  | (k', v) :: rest => if String.eqb k k' then Some v else lookup k rest
  end.

(** [v.k] for a key [k] that no prototype defines: a [TypeError] on [null],
    the own property on an object, [undefined] on everything else. *)
Definition getField (v : json) (k : string) : Outcome jsval :=
  match v with
  | JNull => Throw "TypeError: Cannot read properties of null"
  | JObj fields => Ret (lookup k fields)
  | _ => Ret None
  end.

(** [v?.[k]]: [undefined] when [v] is [undefined] or [null]. *)
Definition optIndex (v : jsval) (k : string) : jsval :=
  match v with
  | None | Some JNull => None
  | Some (JObj fields) => lookup k fields
  | Some _ => None
  end.

(** Truthiness of a value in a condition. *)
Definition truthy (v : jsval) : bool :=
  match v with
  | None | Some JNull => false
  | Some (JBool b) => b
  | Some (JNum z) => negb (z =? 0)
  | Some (JStr s) => negb (String.eqb s "")
  | Some (JArr _) | Some (JObj _) => true
  end.

(** Own enumerable keys copied by an object spread [{...v}]: the keys of an
    object, the indices of a string or of an array, nothing otherwise. *)
Definition spreadKeys (v : jsval) : list string :=
  match v with
  | Some (JObj fields) => fields.*1
  | Some (JStr s) => pretty <$> seq 0 (String.length s)
  | Some (JArr items) => pretty <$> seq 0 (length items)
  | _ => []
  end.

(** [Object.keys({...a, ...b})]: every key once. *)
Definition mergedKeys (a b : jsval) : list string :=
  remove_dups (spreadKeys a ++ spreadKeys b).

End Json.

(** ** The Node platform, as far as detection uses it *)

(** Pure library functions. *)
Record Host : Type := {
  path_join : list string → string;          (* path.join(...parts) *)
  path_dirname : string → string;            (* path.dirname(p) *)
  JSON_parse : string → option json;         (* None: SyntaxError thrown *)
  platform_win32 : bool                      (* process.platform === 'win32' *)
}.

(** A snapshot of the filesystem through the synchronous [fs] calls.
    [None] stands for a thrown error (ENOENT, EACCES, ...). *)
Record FS : Type := {
  existsSync : string → bool;
  readFileSync : string → option string;
  readdirSync : string → option (list string);
  readdirSyncRec : string → option (list string)   (* { recursive: true } *)
}.

(** ** Data model ([src/core/types.ts]) *)

Inductive ProjectType : Type :=
| web | ndk | maui | reactnative | unity | unknown.

Global Instance ProjectType_eq_dec : EqDecision ProjectType.
Proof. solve_decision. Defined.

(** The string a [ProjectType] is in the source. *)
Definition ProjectType_str (t : ProjectType) : string :=
  match t with
  | web => "web" | ndk => "ndk" | maui => "maui"
  | reactnative => "reactnative" | unity => "unity" | unknown => "unknown"
  end.

Record DetectionResult : Type := {
  dr_type : ProjectType;
  dr_confidence : Z;
  dr_detectedFiles : list string
}.

Record ProjectInfo : Type := {
  pi_path : string;
  pi_type : ProjectType;
  pi_confidence : Z;
  pi_detectedFiles : list string;
  pi_suggestedName : string
}.

(** ** Heuristic detectors ([src/detector/heuristics/*.ts])

    Every [fs] call that can throw sits inside a [try] of the source, and
    [existsSync] never throws: a detector either returns one completed
    result or [null] ([None]). *)

Section Detectors.

Context (h : Host) (fs : FS).

Abbreviation join := (path_join h).

(** [pkg.dependencies?.[name] || pkg.devDependencies?.[name]] as a
    condition.  It throws exactly when [pkg] is [null]. *)
Definition hasDep (pkg : json) (name : string) : Outcome bool :=
  match Json.getField pkg "dependencies" with
  | Throw e => Throw e
  | Ret d =>
      if Json.truthy (Json.optIndex d name) then Ret true
      else match Json.getField pkg "devDependencies" with
           | Throw e => Throw e
           | Ret dd => Ret (Json.truthy (Json.optIndex dd name))
           end
  end.

(** [for (const fw of names) if (hasDep(pkg, fw)) { hit; break; }] *)
Fixpoint anyDep (pkg : json) (names : list string) : Outcome bool :=
  match names with
  | [] => Ret false
  | fw :: rest =>
      match hasDep pkg fw with
      | Throw e => Throw e
      | Ret true => Ret true
      | Ret false => anyDep pkg rest
      end
  end.

(** [readFileSync(p, 'utf-8')] followed by [JSON.parse]. *)
Definition readJson (p : string) : Outcome json :=
  match readFileSync fs p with
  | None => Throw "readFileSync failed"
  | Some content =>
      match JSON_parse h content with
      | None => Throw "SyntaxError"
      | Some v => Ret v
      end
  end.

(** [files.filter(f => exts.some(e => f.endsWith(e)))] *)
Definition withExt (exts : list string) (files : list string) : list string :=
  filter (λ f, Is_true (existsb (Js.endsWith f) exts)) files.

(** How a block with an early [return null] inside a [try] ends; the
    accumulators keep whatever was added before the block was left. *)
Inductive BlockEnd : Type := Fell | Returned | Caught.

(** *** Web ([web.ts]) *)

Definition webFrameworks : list string :=
  ["vue"; "react"; "angular"; "svelte"; "solid-js"; "preact"].

Definition webDirs : list string :=
  ["public"; "static"; "assets"; "src"; "dist"; "build"].

(** The [package.json] block of [detectWebProject]. *)
Definition webPackageBlock (packageJsonPath : string)
    (confidence : Z) (detectedFiles : list string)
  : BlockEnd * (Z * list string) :=
  match readJson packageJsonPath with
  | Throw _ => (Caught, (confidence, detectedFiles))
  | Ret pkg =>
    match hasDep pkg "react-native" with
    | Throw _ => (Caught, (confidence, detectedFiles))
    | Ret true => (Returned, (confidence, detectedFiles))
    | Ret false =>
      match hasDep pkg "expo" with
      | Throw _ => (Caught, (confidence, detectedFiles))
      | Ret true => (Returned, (confidence, detectedFiles))
      | Ret false =>
        let confidence := confidence + 20 in
        let detectedFiles := detectedFiles ++ [packageJsonPath] in
        match anyDep pkg webFrameworks with
        | Throw _ => (Caught, (confidence, detectedFiles))
        | Ret true => (Fell, (confidence + 15, detectedFiles))
        | Ret false => (Fell, (confidence, detectedFiles))
        end
      end
    end
  end.

(** The part of [detectWebProject] after the [package.json] block. *)
Definition webTail (projectPath : string)
    (confidence : Z) (detectedFiles : list string) : option DetectionResult :=
  let confidence :=
    match readdirSyncRec fs projectPath with
    | None => confidence
    | Some files =>
        let htmlFiles := withExt [".html"] files in
        let cssFiles := withExt [".css"; ".scss"; ".less"] files in
        let jsFiles := withExt [".js"; ".ts"; ".jsx"; ".tsx"] files in
        let confidence := if 0 <? Js.len htmlFiles then confidence + 10 else confidence in
        let confidence := if 0 <? Js.len cssFiles then confidence + 5 else confidence in
        if 0 <? Js.len jsFiles then confidence + 5 else confidence
    end in
  let confidence :=
    fold_left (λ c dir, if existsSync fs (join [projectPath; dir]) then c + 2 else c)
              webDirs confidence in
  if confidence =? 0 then None
  else Some {| dr_type := web;
               dr_confidence := Js.Math_min confidence 100;
               dr_detectedFiles := detectedFiles |}.

Definition detectWebProject (projectPath : string) : option DetectionResult :=
  let indexPaths :=
    [ join [projectPath; "index.html"];
      join [projectPath; "public"; "index.html"];
      join [projectPath; "src"; "index.html"];
      join [projectPath; "dist"; "index.html"] ] in
  let '(confidence, detectedFiles) :=
    match List.find (existsSync fs) indexPaths with
    | Some indexPath => (40, [indexPath])
    | None => (0, [])
    end in
  let packageJsonPath := join [projectPath; "package.json"] in
  if existsSync fs packageJsonPath then
    match webPackageBlock packageJsonPath confidence detectedFiles with
    | (Returned, _) => None
    | (_, (confidence, detectedFiles)) => webTail projectPath confidence detectedFiles
    end
  else webTail projectPath confidence detectedFiles.

(** *** NDK ([ndk.ts]) *)

(** [for (const p of paths) if (existsSync(p)) { += w; push(p); break; }] *)
Definition firstExisting (paths : list string) (w : Z)
    (confidence : Z) (detectedFiles : list string) : Z * list string :=
  match List.find (existsSync fs) paths with
  | Some p => (confidence + w, detectedFiles ++ [p])
  | None => (confidence, detectedFiles)
  end.

Definition detectNdkProject (projectPath : string) : option DetectionResult :=
  let cmakePath := join [projectPath; "CMakeLists.txt"] in
  let '(confidence, detectedFiles) :=
    if existsSync fs cmakePath then (35, [cmakePath]) else (0, []) in
  let '(confidence, detectedFiles) :=
    firstExisting [ join [projectPath; "Android.mk"];
                    join [projectPath; "jni"; "Android.mk"] ]
                  30 confidence detectedFiles in
  let '(confidence, detectedFiles) :=
    firstExisting [ join [projectPath; "Application.mk"];
                    join [projectPath; "jni"; "Application.mk"] ]
                  15 confidence detectedFiles in
  let confidence :=
    if existsSync fs (join [projectPath; "jni"]) then confidence + 15 else confidence in
  let '(confidence, detectedFiles) :=
    match readdirSyncRec fs projectPath with
    | None => (confidence, detectedFiles)
    | Some files =>
        let cFiles := withExt [".c"; ".cpp"; ".cc"; ".cxx"] files in
        let headerFiles := withExt [".h"; ".hpp"; ".hxx"] files in
        let '(confidence, detectedFiles) :=
          if 0 <? Js.len cFiles
          then (confidence + Js.Math_min (Js.len cFiles * 5) 25,
                detectedFiles ++ ((λ f, join [projectPath; f]) <$> Js.slice0 5 cFiles))
          else (confidence, detectedFiles) in
        if 0 <? Js.len headerFiles
        then (confidence + Js.Math_min (Js.len headerFiles * 2) 10, detectedFiles)
        else (confidence, detectedFiles)
    end in
  if confidence =? 0 then None
  else Some {| dr_type := ndk;
               dr_confidence := Js.Math_min confidence 100;
               dr_detectedFiles := detectedFiles |}.

(** *** MAUI ([maui.ts]) *)

(** The body of the loop over the [.csproj] files: the path is recorded, then
    the content is scored; an unreadable file scores nothing. *)
Definition scoreCsproj (projectPath : string)
    (acc : Z * list string) (csprojFile : string) : Z * list string :=
  let '(confidence, detectedFiles) := acc in
  let csprojPath := join [projectPath; csprojFile] in
  let detectedFiles := detectedFiles ++ [csprojPath] in
  match readFileSync fs csprojPath with
  | None => (confidence, detectedFiles)
  | Some content =>
      let confidence :=
        if Js.includes content "Microsoft.Maui" || Js.includes content "UseMaui"
        then confidence + 50 else confidence in
      let confidence :=
        if Js.includes content "Xamarin.Forms" then confidence + 40 else confidence in
      let confidence :=
        if Js.includes content "net8.0-android" || Js.includes content "net7.0-android"
           || Js.includes content "monoandroid"
        then confidence + 20 else confidence in
      (confidence, detectedFiles)
  end.

Definition detectMauiProject (projectPath : string) : option DetectionResult :=
  match readdirSyncRec fs projectPath with
  | None => None
  | Some files =>
    let csprojFiles := withExt [".csproj"] files in
    if Js.len csprojFiles =? 0 then None
    else
      let '(confidence, detectedFiles) :=
        fold_left (scoreCsproj projectPath) csprojFiles (0, []) in
      let '(confidence, detectedFiles) :=
        firstExisting [ join [projectPath; "MauiProgram.cs"];
                        join [projectPath; "MAUIProgram.cs"] ]
                      30 confidence detectedFiles in
      let confidence :=
        if existsSync fs (join [projectPath; "Platforms"; "Android"])
        then confidence + 15 else confidence in
      let confidence :=
        match readdirSyncRec fs projectPath with
        | None => confidence
        | Some files =>
            let csFiles := withExt [".cs"] files in
            if 0 <? Js.len csFiles
            then confidence + Js.Math_min (Js.len csFiles) 10 else confidence
        end in
      if confidence =? 0 then None
      else Some {| dr_type := maui;
                   dr_confidence := Js.Math_min confidence 100;
                   dr_detectedFiles := detectedFiles |}
  end.

(** *** React Native / Expo ([reactnative.ts]) *)

(** [Object.keys(deps).filter(k => k.startsWith('@react-native-community/')
    || k.startsWith('react-native-'))] *)
Definition rnPackages (dependencies devDependencies : jsval) : list string :=
  filter (λ k, Is_true (Js.startsWith k "@react-native-community/"
                        || Js.startsWith k "react-native-"))
         (Json.mergedKeys dependencies devDependencies).

(** The [try] block of [detectReactNativeProject]; [None] is its
    [catch { return null }]. *)
Definition rnPackageBlock (packageJsonPath : string) : option (Z * list string) :=
  match readJson packageJsonPath with
  | Throw _ => None
  | Ret pkg =>
    match hasDep pkg "react-native" with
    | Throw _ => None
    | Ret rn =>
      let '(confidence, detectedFiles) :=
        if rn then (50, [packageJsonPath]) else (0, []) in
      match hasDep pkg "expo" with
      | Throw _ => None
      | Ret ex =>
        let '(confidence, detectedFiles) :=
          if ex then (confidence + 40, detectedFiles ++ [packageJsonPath])
          else (confidence, detectedFiles) in
        match Json.getField pkg "dependencies", Json.getField pkg "devDependencies" with
        | Ret d, Ret dd =>
            let pkgs := rnPackages d dd in
            if 0 <? Js.len pkgs
            then Some (confidence + Js.Math_min (Js.len pkgs * 5) 20, detectedFiles)
            else Some (confidence, detectedFiles)
        | _, _ => None
        end
      end
    end
  end.

(** [if (existsSync(p)) { confidence += w; detectedFiles.push(p); }] *)
Definition ifExists (p : string) (w : Z) (acc : Z * list string) : Z * list string :=
  if existsSync fs p then (acc.1 + w, acc.2 ++ [p]) else acc.

Definition detectReactNativeProject (projectPath : string) : option DetectionResult :=
  let packageJsonPath := join [projectPath; "package.json"] in
  if negb (existsSync fs packageJsonPath) then None
  else
    match rnPackageBlock packageJsonPath with
    | None => None
    | Some (confidence, detectedFiles) =>
      if confidence =? 0 then None
      else
        let androidDir := join [projectPath; "android"] in
        let confidence :=
          if existsSync fs androidDir then
            let confidence := confidence + 15 in
            if existsSync fs (join [androidDir; "build.gradle"])
               || existsSync fs (join [androidDir; "build.gradle.kts"])
            then confidence + 10 else confidence
          else confidence in
        let acc := ifExists (join [projectPath; "app.json"]) 10 (confidence, detectedFiles) in
        let acc := ifExists (join [projectPath; "app.config.js"]) 10 acc in
        let acc := ifExists (join [projectPath; "metro.config.js"]) 5 acc in
        let acc := ifExists (join [projectPath; "eas.json"]) 10 acc in
        Some {| dr_type := reactnative;
                dr_confidence := Js.Math_min acc.1 100;
                dr_detectedFiles := acc.2 |}
    end.

(** *** Unity ([unity.ts]) *)

Definition detectUnityProject (projectPath : string) : option DetectionResult :=
  let projectSettingsDir := join [projectPath; "ProjectSettings"] in
  let '(confidence, detectedFiles) :=
    if existsSync fs projectSettingsDir then
      ifExists (join [projectSettingsDir; "ProjectSettings.asset"]) 20 (40, [])
    else (0, []) in
  let assetsDir := join [projectPath; "Assets"] in
  let '(confidence, detectedFiles) :=
    if existsSync fs assetsDir then
      let confidence := confidence + 25 in
      match readdirSyncRec fs assetsDir with
      | None => (confidence, detectedFiles)
      | Some files =>
          let unityScenes := withExt [".unity"] files in
          if 0 <? Js.len unityScenes
          then (confidence + 15,
                detectedFiles ++ ((λ f, join [assetsDir; f]) <$> Js.slice0 3 unityScenes))
          else (confidence, detectedFiles)
      end
    else (confidence, detectedFiles) in
  let packagesManifest := join [projectPath; "Packages"; "manifest.json"] in
  let '(confidence, detectedFiles) :=
    if existsSync fs packagesManifest then
      let confidence := confidence + 15 in
      let detectedFiles := detectedFiles ++ [packagesManifest] in
      match readJson packagesManifest with
      | Throw _ => (confidence, detectedFiles)
      | Ret manifest =>
          match Json.getField manifest "dependencies" with
          | Throw _ => (confidence, detectedFiles)
          | Ret d =>
              if Json.truthy (Json.optIndex d "com.unity.modules.core")
              then (confidence + 10, detectedFiles)
              else (confidence, detectedFiles)
          end
      end
    else (confidence, detectedFiles) in
  let confidence :=
    match readdirSync fs projectPath with
    | None => confidence
    | Some files =>
        if 0 <? Js.len (withExt [".meta"] files) then confidence + 10 else confidence
    end in
  let confidence :=
    if existsSync fs (join [projectPath; "UserSettings"]) then confidence + 5 else confidence in
  if confidence =? 0 then None
  else Some {| dr_type := unity;
               dr_confidence := Js.Math_min confidence 100;
               dr_detectedFiles := detectedFiles |}.

End Detectors.

(** ** The exception monad of synchronous code *)

Global Instance Outcome_ret : MRet Outcome := λ A a, Ret a.
Global Instance Outcome_bind : MBind Outcome := λ A B f m,
  match m with
  | Ret a => f a
  | Throw e => Throw e
  end.

(** [try { body } catch (error) { handler(error) }] *)
Definition try_catch {A} (body : Outcome A) (handler : string → Outcome A) : Outcome A :=
  match body with
  | Ret a => Ret a
  | Throw e => handler e
  end.

(** ** Type resolver ([src/detector/index.ts]) *)

(** [extractProjectName]: the last segment of the path after a slash or a
    backslash, ['MeuApp'] when it is empty, with everything but ASCII letters
    and digits removed. *)
Definition isPathSep (c : ascii) : bool :=
  Ascii.eqb c "/"%char || Ascii.eqb c "\"%char.

Definition isAlnum (c : ascii) : bool :=
  let n := nat_of_ascii c in
  ((48 <=? n) && (n <=? 57) || (65 <=? n) && (n <=? 90) || (97 <=? n) && (n <=? 122))%nat.

Fixpoint lastPart (s : string) (acc : string) : string :=
  match s with
  | EmptyString => acc
  | String c s' =>
      if isPathSep c then lastPart s' EmptyString
      else lastPart s' (acc +:+ String c EmptyString)
  end.

Fixpoint keepAlnum (s : string) : string :=
  match s with
  | EmptyString => EmptyString
  | String c s' => if isAlnum c then String c (keepAlnum s') else keepAlnum s'
  end.

Definition extractProjectName (projectPath : string) : string :=
  let last := lastPart projectPath EmptyString in
  let name := if String.eqb last "" then "MeuApp" else last in
  keepAlnum name.

(** A detector as the resolver sees it: an asynchronous function that
    resolves with a result or [null], or rejects. *)
Definition Detector : Type := string → Outcome (option DetectionResult).

(** One turn of the loop over the detectors:
    [try { const result = await detector(projectPath);
           if (result && result.confidence > 0) results.push(result); }
     catch (error) { logger.warn(...) }] *)
Definition runDetector (projectPath : string) (results : list DetectionResult)
    (detector : Detector) : Outcome (list DetectionResult) :=
  try_catch
    (result ← detector projectPath;
     match result with
     | Some r => if 0 <? dr_confidence r then mret (results ++ [r]) else mret results
     | None => mret results
     end)
    (λ _, mret results).

Fixpoint runDetectors (projectPath : string) (detectors : list Detector)
    (results : list DetectionResult) : Outcome (list DetectionResult) :=
  match detectors with
  | [] => mret results
  | detector :: rest =>
      results ← runDetector projectPath results detector;
      runDetectors projectPath rest results
  end.

(** [results.sort((a, b) => b.confidence - a.confidence)]: the sort of the
    platform is stable, so results of equal confidence keep the order in which
    the detectors pushed them. *)
Fixpoint insertByConfidence (x : DetectionResult) (l : list DetectionResult)
  : list DetectionResult :=
  match l with
  | [] => [x]
  | y :: l' =>
      if dr_confidence y <=? dr_confidence x then x :: y :: l'
      else y :: insertByConfidence x l'
  end.

Definition sortByConfidence (l : list DetectionResult) : list DetectionResult :=
  foldr insertByConfidence [] l.

(** [detectProject] over an arbitrary list of detectors. *)
Definition detectProjectWith (detectors : list Detector) (projectPath : string)
  : Outcome ProjectInfo :=
  results ← runDetectors projectPath detectors [];
  let results := sortByConfidence results in
  match results with
  | [] =>
      mret {| pi_path := projectPath;
              pi_type := unknown;
              pi_confidence := 0;
              pi_detectedFiles := [];
              pi_suggestedName := extractProjectName projectPath |}
  | best :: _ =>
      mret {| pi_path := projectPath;
              pi_type := dr_type best;
              pi_confidence := dr_confidence best;
              pi_detectedFiles := dr_detectedFiles best;
              pi_suggestedName := extractProjectName projectPath |}
  end.

(** The five registered detectors, in the order of the source. *)
Definition detectors (h : Host) (fs : FS) : list Detector :=
  (λ d projectPath, Ret (d projectPath)) <$>
  [ detectWebProject h fs;
    detectNdkProject h fs;
    detectMauiProject h fs;
    detectReactNativeProject h fs;
    detectUnityProject h fs ].

Definition detectProject (h : Host) (fs : FS) (projectPath : string)
  : Outcome ProjectInfo :=
  detectProjectWith (detectors h fs) projectPath.

(** ** Environment provider ([src/core/environment.ts]) *)

Record OfflineEnvironment : Type := {
  JAVA_HOME : string;
  ANDROID_HOME : string;
  ANDROID_NDK_HOME : string;
  GRADLE_USER_HOME : string;
  GRADLE_HOME : string;
  DOTNET_ROOT : string;
  NODE_PATH : string;
  NPM_CONFIG_CACHE : string;
  UNITY_PATH : string
}.

(** [getOfflineEnvironment], from the directory [getBundledPath()] returns. *)
Definition getOfflineEnvironment (h : Host) (bundled : string) : OfflineEnvironment :=
  {| JAVA_HOME := path_join h [bundled; "jdk"];
     ANDROID_HOME := path_join h [bundled; "android-sdk"];
     ANDROID_NDK_HOME := path_join h [bundled; "ndk"; "r26"];
     GRADLE_USER_HOME := path_join h [bundled; "gradle-cache"];
     GRADLE_HOME := path_join h [bundled; "gradle"; "8.5"];
     DOTNET_ROOT := path_join h [bundled; "dotnet"];
     NODE_PATH := path_join h [bundled; "node"];
     NPM_CONFIG_CACHE := path_join h [bundled; "npm-cache"];
     UNITY_PATH := path_join h [bundled; "unity"] |}.

Record EnvCheck : Type := {
  valid : bool;
  missing : list string
}.

(** The table [checks] of [verifyEnvironment]: role name and root. *)
Definition checks (env : OfflineEnvironment) : list (string * string) :=
  [ ("JDK", JAVA_HOME env);
    ("Android SDK", ANDROID_HOME env);
    ("Android NDK", ANDROID_NDK_HOME env);
    ("Gradle Cache", GRADLE_USER_HOME env);
    ("Node.js", NODE_PATH env);
    ("dotnet SDK", DOTNET_ROOT env) ].

Definition verifyEnvironment (fs : FS) (env : OfflineEnvironment) : EnvCheck :=
  let missing :=
    fold_left (λ missing check,
                 if negb (existsSync fs check.2) then missing ++ [check.1] else missing)
              (checks env) [] in
  {| valid := Js.len missing =? 0; missing := missing |}.

(** Every root the [OfflineEnvironment] mapping configures. *)
Definition roots (env : OfflineEnvironment) : list string :=
  [ JAVA_HOME env; ANDROID_HOME env; ANDROID_NDK_HOME env; GRADLE_USER_HOME env;
    GRADLE_HOME env; DOTNET_ROOT env; NODE_PATH env; NPM_CONFIG_CACHE env;
    UNITY_PATH env ].

(** ** Build data model ([src/core/types.ts]) *)

Inductive SignMode : Type := debug | release.

Record BuildOptions : Type := {
  appName : string;
  packageName : string;
  version : string;
  versionCode : Z;
  minSdk : Z;
  targetSdk : Z;
  compileSdk : Z;
  abis : list string;
  signMode : SignMode;
  keystorePath : option string;
  keystorePassword : option string;
  keyAlias : option string;
  keyPassword : option string;
  iconPath : option string;
  permissions : list string;
  proguardEnabled : bool
}.

Record BuildResult : Type := {
  success : bool;
  apkPath : option string;
  aabPath : option string;
  errors : list string;
  warnings : list string;
  buildTime : Z
}.

(** The object literal every failing return of a pipeline or of the
    orchestrator builds: no [apkPath]. *)
Definition failed (errors warnings : list string) (buildTime : Z) : BuildResult :=
  {| success := false; apkPath := None; aabPath := None;
     errors := errors; warnings := warnings; buildTime := buildTime |}.

(** The object literal of a successful pipeline [build]. *)
Definition built (apkPath : string) : BuildResult :=
  {| success := true; apkPath := Some apkPath; aabPath := None;
     errors := []; warnings := []; buildTime := 0 |}.

(** The five pipeline classes of [src/runners]. *)
Inductive PipelineKind : Type :=
| WebPipeline | NdkPipeline | MauiPipeline | ReactNativePipeline | UnityPipeline.

(** The fields of a pipeline object ([BasePipeline] and its subclasses). *)
Record PipeState : Type := {
  buildDir : string;
  projectPath : string;
  options : option BuildOptions;
  hasAndroidDir : bool;
  isExpo : bool;
  csprojPath : string;
  unityProjectPath : string
}.

(** ** Processes *)

(** What a spawned child delivers up to the first ['close'] or ['error']
    event, the one that settles the promise waiting for it.  The source has
    no timeout: a child that delivers neither is outside this model. *)
Inductive Chunk : Type :=
| Stdout (text : string)
| Stderr (text : string).

Inductive ProcEnd : Type :=
| Closed (code : option Z)       (* 'close' with the exit code, or with null *)
| Errored (message : string).    (* 'error' *)

Record ProcRun : Type := {
  pr_chunks : list Chunk;
  pr_end : ProcEnd
}.

Record CommandResult : Type := {
  stdout : string;
  stderr : string;
  code : Z
}.

Record GradleResult : Type := {
  g_success : bool;
  g_output : string
}.

Record KeystoreInfo : Type := {
  ks_path : option string;
  ks_password : option string;
  ks_alias : option string;
  ks_keyPassword : option string
}.

(** ** Observable events *)

Inductive Stage : Type := Prepare | Configure | Build | Sign.

Inductive Event : Type :=
| EvProgress (stage : string) (percent : Z) (message : string)  (* emit('progress') *)
| EvLog (text : string)                                         (* emit('log') *)
| EvApplyEnvironment
| EvDnsLookup (hostname : string)
| EvSpawn (command : string) (args : list (option string))
| EvExecSync (command : string)
| EvMkdirSync (path : string)
| EvWriteFileSync (path : string)
| EvCpSync (src dest : string)
| EvCopyFileSync (src dest : string)
| EvStage (stage : Stage) (pipeline : PipelineKind)   (* a pipeline method is entered *)
| EvBuildReturned (result : BuildResult).             (* pipeline.build resolved *)

(** ** The effectful part of the Node platform

    The state of the outside world (filesystem, processes, network, clock,
    [process.env]) is a value of [World]; each call is an arbitrary function
    of it.  [spawn] returns a child, which reports that it could not be
    started through its ['error'] event, or throws at the call (an argument
    it refuses, an error of the system other than those it reports through
    ['error']).  [rt_prepare] and [rt_configure] stand for the [prepare] and
    [configure] methods, which copy and generate files: the orchestrator
    observes of them only whether they throw and which fields they leave on
    the pipeline object. *)
Record Runtime : Type := {
  World : Type;
  rt_host : Host;
  rt_bundled : string;                                    (* getBundledPath() *)
  rt_fs : World → FS;
  rt_getenv : World → string → option string;             (* process.env[name] *)
  rt_setenv : string → string → World → World;            (* process.env[name] = v *)
  rt_now : World → Z * World;                             (* Date.now() *)
  rt_dns_lookup : string → World → Outcome unit * World;
  rt_spawn : string → list (option string) → option string → list (string * string) →
             World → Outcome ProcRun * World;   (* command, args, cwd, env overlay *)
  rt_execSync : string → World → Outcome unit * World;
  rt_mkdirSync : string → World → Outcome unit * World;
  rt_writeFileSync : string → string → World → Outcome unit * World;
  rt_cpSync : string → string → World → Outcome unit * World;
  rt_copyFileSync : string → string → World → Outcome unit * World;
  rt_prepare : PipelineKind → string → PipeState → World → Outcome PipeState * World;
  rt_configure : PipelineKind → BuildOptions → PipeState → World → Outcome PipeState * World
}.

(** The state a computation runs in: the world and the events so far, the
    latest first. *)
Record St (R : Runtime) : Type := {
  world : World R;
  trace : list Event
}.
Arguments world {R} s.
Arguments trace {R} s.

(** Asynchronous and synchronous effectful code: a rejected promise and a
    thrown exception are both [Throw]. *)
Definition M (R : Runtime) (A : Type) : Type := St R → Outcome A * St R.

Global Instance M_ret (R : Runtime) : MRet (M R) := λ A a s, (Ret a, s).
Global Instance M_bind (R : Runtime) : MBind (M R) := λ A B f m s,
  match m s with
  | (Ret a, s') => f a s'
  | (Throw e, s') => (Throw e, s')
  end.

(** [try { body } catch (error) { handler(error) }]: the effects of the body
    up to the exception stay. *)
Definition try_catchM {R A} (body : M R A) (handler : string → M R A) : M R A :=
  λ s, match body s with
       | (Ret a, s') => (Ret a, s')
       | (Throw e, s') => handler e s'
       end.

Definition throw {R A} (e : string) : M R A := λ s, (Throw e, s).

(** A computation started in world [w] with no event recorded yet. *)
Definition run {R A} (m : M R A) (w : World R) : Outcome A * St R :=
  m {| world := w; trace := [] |}.

Section Effects.

Context {R : Runtime}.

Abbreviation host := (rt_host R).
Abbreviation pjoin := (path_join (rt_host R)).

(** *** Primitive calls *)

Definition record (e : Event) : M R unit :=
  λ s, (Ret (), {| world := world s; trace := e :: trace s |}).

(** A call of the platform that changes the world and may throw. *)
Definition call {A} (f : World R → Outcome A * World R) : M R A :=
  λ s, let '(r, w) := f (world s) in (r, {| world := w; trace := trace s |}).

(** A call of the platform that cannot throw. *)
Definition call_total {A} (f : World R → A * World R) : M R A :=
  λ s, let '(a, w) := f (world s) in (Ret a, {| world := w; trace := trace s |}).

(** A read of the current world. *)
Definition peek {A} (f : World R → A) : M R A :=
  λ s, (Ret (f (world s)), s).

Definition Date_now : M R Z := call_total (rt_now R).
Definition existsSyncM (p : string) : M R bool := peek (λ w, existsSync (rt_fs R w) p).
Definition getenv (name : string) : M R (option string) := peek (λ w, rt_getenv R w name).

(** [readdirSync(p)] outside a [try]. *)
Definition readdirSyncM (p : string) : M R (list string) :=
  λ s, match readdirSync (rt_fs R (world s)) p with
       | Some files => (Ret files, s)
       | None => (Throw "readdirSync failed", s)
       end.

Definition dns_lookup (hostname : string) : M R unit :=
  record (EvDnsLookup hostname);; call (rt_dns_lookup R hostname).
Definition setenv (name value : string) : M R unit :=
  call_total (λ w, ((), rt_setenv R name value w)).
Definition spawn (command : string) (args : list (option string))
    (cwd : option string) (env : list (string * string)) : M R ProcRun :=
  record (EvSpawn command args);; call (rt_spawn R command args cwd env).
Definition execSync (command : string) : M R unit :=
  record (EvExecSync command);; call (rt_execSync R command).
Definition mkdirSync (p : string) : M R unit :=
  record (EvMkdirSync p);; call (rt_mkdirSync R p).
Definition writeFileSync (p content : string) : M R unit :=
  record (EvWriteFileSync p);; call (rt_writeFileSync R p content).
Definition cpSync (src dest : string) : M R unit :=
  record (EvCpSync src dest);; call (rt_cpSync R src dest).
Definition copyFileSync (src dest : string) : M R unit :=
  record (EvCopyFileSync src dest);; call (rt_copyFileSync R src dest).

(** [if (c) { body }] *)
Definition when (c : bool) (body : M R unit) : M R unit :=
  if c then body else mret ().

(** *** [isOnline] ([src/core/network.ts]) *)

Definition isOnline : M R bool :=
  try_catchM (dns_lookup "google.com";; mret true) (λ _, mret false).

(** *** [BasePipeline.runCommand] ([src/runners/base-pipeline.ts]) *)

(** The ['data'] handlers: the text is appended to its buffer and emitted
    as a ['log'] event. *)
Fixpoint onData (chunks : list Chunk) (stdout stderr : string)
  : M R (string * string) :=
  match chunks with
  | [] => mret (stdout, stderr)
  | Stdout text :: rest => record (EvLog text);; onData rest (stdout +:+ text) stderr
  | Stderr text :: rest => record (EvLog text);; onData rest stdout (stderr +:+ text)
  end.

(** [code || 0] *)
Definition codeOrZero (code : option Z) : Z :=
  match code with
  | Some c => if c =? 0 then 0 else c
  | None => 0
  end.

(** The child runs in [cwd] with [{ ...process.env, ...env }]: the runtime
    merges the overlay [env] over the ambient variables.  The promise has
    no [reject]; its executor calls [spawn] outside any [try], so an
    exception of [spawn] itself rejects the promise. *)
Definition runCommand (command : string) (args : list string)
    (cwd : string) (env : list (string * string)) : M R CommandResult :=
  proc ← spawn command (Some <$> args) (Some cwd) env;
  '(stdout, stderr) ← onData (pr_chunks proc) "" "";
  match pr_end proc with
  | Closed code =>
      mret {| stdout := stdout; stderr := stderr; code := codeOrZero code |}
  | Errored message =>
      mret {| stdout := stdout; stderr := stderr +:+ message; code := 1 |}
  end.

(** *** [BasePipeline.runGradle] *)

Definition gradleEnv (env : OfflineEnvironment) (gradleHome : string)
  : list (string * string) :=
  [ ("JAVA_HOME", JAVA_HOME env);
    ("ANDROID_HOME", ANDROID_HOME env);
    ("ANDROID_SDK_ROOT", ANDROID_HOME env);
    ("GRADLE_USER_HOME", gradleHome) ].

(** [args.includes(x)] *)
Definition argsInclude (args : list string) (x : string) : bool :=
  existsb (String.eqb x) args.

Definition runGradle (task buildDir : string) (env : OfflineEnvironment)
  : M R GradleResult :=
  let gradleBin := if platform_win32 host then "gradle.bat" else "gradle" in
  let gradleExec := pjoin [GRADLE_HOME env; "bin"; gradleBin] in
  let gradleHome := pjoin [GRADLE_USER_HOME env] in
  online ← isOnline;
  let args := [task; "--no-daemon"; "--stacktrace"] in
  let args := if negb online then args ++ ["--offline"] else args in
  try_catchM
    (result ← runCommand gradleExec args buildDir (gradleEnv env gradleHome);
     mret {| g_success := code result =? 0;
             g_output := stdout result +:+ stderr result |})
    (λ error,
       if online then
         let args := if negb (argsInclude args "--offline")
                     then args ++ ["--offline"] else args in
         result ← runCommand gradleExec args buildDir (gradleEnv env gradleHome);
         mret {| g_success := code result =? 0;
                 g_output := stdout result +:+ stderr result |}
       else throw error).

(** *** [BasePipeline.copyGradleWrapper] *)

Definition copyGradleWrapper (targetDir : string) (env : OfflineEnvironment) : M R unit :=
  let gradleDir := pjoin [GRADLE_USER_HOME env; ".."; "gradle"; "8.5"] in
  let wrapperSrc := pjoin [gradleDir; "wrapper"] in
  ex ← existsSyncM wrapperSrc;
  when ex (let targetWrapper := pjoin [targetDir; "gradle"; "wrapper"] in
           mkdirSync targetWrapper;; cpSync wrapperSrc targetWrapper);;
  let gradlewBat := pjoin [gradleDir; "gradlew.bat"] in
  let gradlewSh := pjoin [gradleDir; "gradlew"] in
  ex ← existsSyncM gradlewBat;
  when ex (cpSync gradlewBat (pjoin [targetDir; "gradlew.bat"]));;
  ex ← existsSyncM gradlewSh;
  when ex (cpSync gradlewSh (pjoin [targetDir; "gradlew"])).

(** *** [generateLocalProperties] ([src/generators/gradle.ts]) *)

(** [s.replace(/\\/g, '\\\\')] *)
Fixpoint escapeBackslashes (s : string) : string :=
  match s with
  | EmptyString => EmptyString
  | String c s' =>
      if Ascii.eqb c "\"%char then String c (String c (escapeBackslashes s'))
      else String c (escapeBackslashes s')
  end.

Definition newline : string := String (ascii_of_nat 10) EmptyString.
Definition dquote : string := String (ascii_of_nat 34) EmptyString.

Definition generateLocalProperties (sdkPath ndkPath outputPath : string) : M R unit :=
  let content := "sdk.dir=" +:+ escapeBackslashes sdkPath +:+ newline +:+
                 "ndk.dir=" +:+ escapeBackslashes ndkPath +:+ newline in
  writeFileSync outputPath content.

(** *** Signing ([src/generators/signing.ts]) *)

(** A value interpolated in a template literal. *)
Definition interp (v : option string) : string := default "undefined" v.

(** [a || b] on strings that may be undefined: the empty string is falsy. *)
Definition orElse (a : option string) (b : string) : string :=
  match a with
  | Some s => if String.eqb s "" then b else s
  | None => b
  end.

Definition createDebugKeystore (path : string) (env : OfflineEnvironment) : M R unit :=
  let keytoolPath := pjoin [JAVA_HOME env; "bin"; "keytool"] in
  let args :=
    [ "-genkeypair"; "-v"; "-keystore"; path; "-storepass"; "android";
      "-alias"; "androiddebugkey"; "-keypass"; "android"; "-keyalg"; "RSA";
      "-keysize"; "2048"; "-validity"; "10000";
      "-dname"; "CN=Android Debug,O=Android,C=US" ] in
  try_catchM
    (execSync (dquote +:+ keytoolPath +:+ dquote +:+ " " +:+ Js.join " " args))
    (λ error, throw error).

Definition getDebugKeystore (env : OfflineEnvironment) : M R KeystoreInfo :=
  userprofile ← getenv "USERPROFILE";
  home ← getenv "HOME";
  let debugDir := pjoin [orElse userprofile (orElse home "."); ".android"] in
  let keystorePath := pjoin [debugDir; "debug.keystore"] in
  mkdirSync debugDir;;
  ex ← existsSyncM keystorePath;
  when (negb ex) (createDebugKeystore keystorePath env);;
  mret {| ks_path := Some keystorePath;
          ks_password := Some "android";
          ks_alias := Some "androiddebugkey";
          ks_keyPassword := Some "android" |}.

(** The arguments handed to [apksigner]. *)
Definition signArgs (keystore : KeystoreInfo) (outputPath inputApk : string)
  : list (option string) :=
  [ Some "sign";
    Some "--ks"; ks_path keystore;
    Some "--ks-pass"; Some ("pass:" +:+ interp (ks_password keystore));
    Some "--ks-key-alias"; ks_alias keystore;
    Some "--key-pass"; Some ("pass:" +:+ interp (ks_keyPassword keystore));
    Some "--v2-signing-enabled"; Some "true";
    Some "--v3-signing-enabled"; Some "true";
    Some "--out"; Some outputPath;
    Some inputApk ].

(** The text on [stderr] among the chunks. *)
Fixpoint stderrOf (chunks : list Chunk) : string :=
  match chunks with
  | [] => ""
  | Stderr text :: rest => text +:+ stderrOf rest
  | Stdout _ :: rest => stderrOf rest
  end.

Definition signApk (apkPath : string) (keystore : KeystoreInfo)
    (outputPath : string) (env : OfflineEnvironment) : M R string :=
  let apksignerPath := pjoin [ANDROID_HOME env; "build-tools"; "34.0.0"; "apksigner"] in
  let zipalignPath := pjoin [ANDROID_HOME env; "build-tools"; "34.0.0"; "zipalign"] in
  let alignedPath := Js.replace apkPath ".apk" "-aligned.apk" in
  try_catchM
    (execSync (dquote +:+ zipalignPath +:+ dquote +:+ " -f -p 4 " +:+
               dquote +:+ apkPath +:+ dquote +:+ " " +:+
               dquote +:+ alignedPath +:+ dquote))
    (λ _ : string, mret () : M R unit);;
  aligned ← existsSyncM alignedPath;
  let inputApk := if (aligned : bool) then alignedPath else apkPath in
  proc ← spawn apksignerPath (signArgs keystore outputPath inputApk) None [];
  match pr_end proc with
  | Closed (Some 0) => mret outputPath
  | Closed _ => throw ("apksigner falhou: " +:+ stderrOf (pr_chunks proc))
  | Errored message => throw message
  end.

(** [sign], the same method in the five pipeline classes.  The orchestrator
    passes [result.apkPath!]: an undefined path makes [apkPath.replace] a
    [TypeError]. *)
Definition sign (k : PipelineKind) (apkPath : option string) (options : BuildOptions)
  : M R string :=
  record (EvStage Sign k);;
  let env := getOfflineEnvironment host (rt_bundled R) in
  keystore ←
    match signMode options with
    | debug => getDebugKeystore env
    | release =>
        mret {| ks_path := keystorePath options;
                ks_password := keystorePassword options;
                ks_alias := keyAlias options;
                ks_keyPassword := keyPassword options |}
    end;
  match apkPath with
  | None => throw "TypeError: Cannot read properties of undefined (reading 'replace')"
  | Some apkPath =>
      let outputPath := Js.replace apkPath ".apk" "-signed.apk" in
      signApk apkPath keystore outputPath env
  end.

(** *** The [build] methods of the pipelines ([src/runners/*.ts]) *)

(** [this.options?.signMode === 'release'] *)
Definition isRelease (ps : PipeState) : bool :=
  match options ps with
  | Some o => match signMode o with release => true | debug => false end
  | None => false
  end.

Definition gradleApkPath (root buildType : string) : string :=
  pjoin [root; "app"; "build"; "outputs"; "apk"; buildType;
         "app-" +:+ buildType +:+ ".apk"].

Definition WebPipeline_build (ps : PipeState) (env : OfflineEnvironment) : M R BuildResult :=
  generateLocalProperties (ANDROID_HOME env) (ANDROID_NDK_HOME env)
                          (pjoin [buildDir ps; "local.properties"]);;
  copyGradleWrapper (buildDir ps) env;;
  let task := if isRelease ps then "assembleRelease" else "assembleDebug" in
  result ← runGradle task (buildDir ps) env;
  if negb (g_success result)
  then mret (failed ["Gradle build falhou"; g_output result] [] 0)
  else
    let buildType := if isRelease ps then "release" else "debug" in
    let apkPath := gradleApkPath (buildDir ps) buildType in
    ex ← existsSyncM apkPath;
    if negb ex
    then mret (failed ["APK não encontrado após build"] [] 0)
    else mret (built apkPath).

Definition NdkPipeline_build (ps : PipeState) (env : OfflineEnvironment) : M R BuildResult :=
  generateLocalProperties (ANDROID_HOME env) (ANDROID_NDK_HOME env)
                          (pjoin [buildDir ps; "local.properties"]);;
  copyGradleWrapper (buildDir ps) env;;
  let task := if isRelease ps then "assembleRelease" else "assembleDebug" in
  result ← runGradle task (buildDir ps) env;
  if negb (g_success result)
  then mret (failed ["Gradle NDK build falhou"; g_output result] [] 0)
  else
    let buildType := if isRelease ps then "release" else "debug" in
    let apkPath := gradleApkPath (buildDir ps) buildType in
    ex ← existsSyncM apkPath;
    if negb ex
    then mret (failed ["APK não encontrado após build NDK"] [] 0)
    else mret (built apkPath).

(** The variables every [npm]/[npx] call of the React Native pipeline gets. *)
Definition nodeEnv (env : OfflineEnvironment) (PATH : option string)
  : list (string * string) :=
  [ ("PATH", NODE_PATH env +:+ ";" +:+ interp PATH);
    ("npm_config_cache", NPM_CONFIG_CACHE env) ].

(** The Expo prebuild of [ReactNativePipeline.build]; [Some r] is its early
    [return r]. *)
Definition expoPrebuild (ps : PipeState) (env : OfflineEnvironment)
  : M R (option BuildResult) :=
  if negb (hasAndroidDir ps) && isExpo ps then
    let npxPath := pjoin [NODE_PATH env; "npx"] in
    PATH ← getenv "PATH";
    prebuildResult ← runCommand npxPath
                       ["expo"; "prebuild"; "--platform"; "android"; "--clean"]
                       (buildDir ps) (nodeEnv env PATH);
    if negb (code prebuildResult =? 0)
    then mret (Some (failed ["Expo prebuild falhou"; stderr prebuildResult] [] 0))
    else mret None
  else mret None.

(** After a successful prebuild the method sets [hasAndroidDir], a field it
    does not read again. *)
Definition ReactNativePipeline_build (ps : PipeState) (env : OfflineEnvironment)
  : M R BuildResult :=
  let androidDir := pjoin [buildDir ps; "android"] in
  early ← expoPrebuild ps env;
  match early with
  | Some r => mret r
  | None =>
    ex ← existsSyncM androidDir;
    if negb ex
    then mret (failed ["Diretório android/ não encontrado. Execute " +:+ dquote +:+
                       "npx react-native eject" +:+ dquote +:+ " ou " +:+ dquote +:+
                       "npx expo prebuild" +:+ dquote +:+ " primeiro."] [] 0)
    else
      let npmPath := pjoin [NODE_PATH env; "npm"] in
      PATH ← getenv "PATH";
      runCommand npmPath ["install"; "--offline"; "--prefer-offline"]
                 (buildDir ps) (nodeEnv env PATH);;
      generateLocalProperties (ANDROID_HOME env) (ANDROID_NDK_HOME env)
                              (pjoin [androidDir; "local.properties"]);;
      let task := if isRelease ps then "assembleRelease" else "assembleDebug" in
      result ← runGradle task androidDir env;
      if negb (g_success result)
      then mret (failed ["Gradle build React Native falhou"; g_output result] [] 0)
      else
        let buildType := if isRelease ps then "release" else "debug" in
        let apkPath := gradleApkPath androidDir buildType in
        ex ← existsSyncM apkPath;
        if negb ex
        then mret (failed ["APK React Native não encontrado após build"] [] 0)
        else mret (built apkPath)
  end.

(** [MauiPipeline.findGeneratedApk]; [readdirSync] is not guarded. *)
Fixpoint findGeneratedApk (searchDirs : list string) : M R (option string) :=
  match searchDirs with
  | [] => mret None
  | dir :: rest =>
      ex ← existsSyncM dir;
      if negb ex then findGeneratedApk rest
      else
        files ← readdirSyncM dir;
        match List.find (λ f, Js.endsWith f ".apk" && negb (Js.includes f "Signed")) files with
        | Some apk => if String.eqb apk "" then findGeneratedApk rest
                      else mret (Some (pjoin [dir; apk]))
        | None => findGeneratedApk rest
        end
  end.

Definition MauiPipeline_build (ps : PipeState) (env : OfflineEnvironment) : M R BuildResult :=
  let dotnetPath := pjoin [DOTNET_ROOT env; "dotnet"] in
  let configuration := if isRelease ps then "Release" else "Debug" in
  runCommand dotnetPath
             ["restore"; "--source"; pjoin [DOTNET_ROOT env; "nuget-cache"]]
             (buildDir ps) [("DOTNET_ROOT", DOTNET_ROOT env)];;
  let buildArgs :=
    [ "build"; csprojPath ps; "-c"; configuration; "-f"; "net8.0-android";
      "-p:AndroidPackageFormat=apk";
      "-p:ApplicationId=" +:+ orElse (packageName <$> options ps) "com.maui.app";
      "-p:ApplicationDisplayVersion=" +:+ orElse (version <$> options ps) "1.0.0";
      "-p:ApplicationVersion=" +:+
        pretty (match versionCode <$> options ps with
                | Some v => if v =? 0 then 1 else v
                | None => 1
                end) ] in
  buildResult ← runCommand dotnetPath buildArgs (buildDir ps)
                           [("DOTNET_ROOT", DOTNET_ROOT env)];
  if negb (code buildResult =? 0)
  then mret (failed ["dotnet build falhou"; stderr buildResult] [] 0)
  else
    apkPath ← findGeneratedApk
                [ pjoin [buildDir ps; "bin"; configuration; "net8.0-android"];
                  pjoin [buildDir ps; "bin"; configuration; "net7.0-android"] ];
    match apkPath with
    | Some apkPath =>
        if String.eqb apkPath ""
        then mret (failed ["APK MAUI não encontrado após build"] [] 0)
        else mret (built apkPath)
    | None => mret (failed ["APK MAUI não encontrado após build"] [] 0)
    end.

(** [s.replace(/\\/g, '/')] *)
Fixpoint slashes (s : string) : string :=
  match s with
  | EmptyString => EmptyString
  | String c s' =>
      String (if Ascii.eqb c "\"%char then "/"%char else c) (slashes s')
  end.

(** The C# editor script that [UnityPipeline.build] writes into the
    project; the export directory is interpolated with forward slashes. *)
Definition unityBuildScript (exportDir : string) : string :=
  "
using UnityEditor;
using UnityEditor.Build.Reporting;
using System.IO;

public class AndroidBuilder
{
    public static void Build()
    {
        string[] scenes = GetScenes();
        string outputPath = " +:+
  dquote +:+
  slashes exportDir +:+
  dquote +:+
  ";
        
        BuildPlayerOptions buildOptions = new BuildPlayerOptions
        {
            scenes = scenes,
            locationPathName = Path.Combine(outputPath, " +:+
  dquote +:+
  "game.apk" +:+
  dquote +:+
  "),
            target = BuildTarget.Android,
            options = BuildOptions.None
        };
        
        PlayerSettings.Android.keystoreName = " +:+
  dquote +:+
  dquote +:+
  ";
        PlayerSettings.Android.keystorePass = " +:+
  dquote +:+
  dquote +:+
  ";
        PlayerSettings.Android.keyaliasName = " +:+
  dquote +:+
  dquote +:+
  ";
        PlayerSettings.Android.keyaliasPass = " +:+
  dquote +:+
  dquote +:+
  ";
        
        BuildReport report = BuildPipeline.BuildPlayer(buildOptions);
        
        if (report.summary.result != BuildResult.Succeeded)
        {
            EditorApplication.Exit(1);
        }
        
        EditorApplication.Exit(0);
    }
    
    private static string[] GetScenes()
    {
        var scenes = new System.Collections.Generic.List<string>();
        foreach (var scene in EditorBuildSettings.scenes)
        {
            if (scene.enabled)
            {
                scenes.Add(scene.path);
            }
        }
        return scenes.ToArray();
    }
}
".

Definition UnityPipeline_build (ps : PipeState) (env : OfflineEnvironment) : M R BuildResult :=
  let unityPath := pjoin [UNITY_PATH env; "Unity.exe"] in
  ex ← existsSyncM unityPath;
  if negb ex
  then mret (failed ["Unity Editor não encontrado em " +:+ unityPath]
                    ["Certifique-se de que o Unity está instalado em bundled/unity"] 0)
  else
    let exportDir := pjoin [buildDir ps; "android-export"] in
    mkdirSync exportDir;;
    let editorDir := pjoin [unityProjectPath ps; "Assets"; "Editor"] in
    mkdirSync editorDir;;
    writeFileSync (pjoin [editorDir; "AndroidBuilder.cs"]) (unityBuildScript exportDir);;
    let unityArgs :=
      [ "-quit"; "-batchmode"; "-nographics";
        "-projectPath"; unityProjectPath ps;
        "-executeMethod"; "AndroidBuilder.Build";
        "-logFile"; pjoin [buildDir ps; "unity-build.log"] ] in
    result ← runCommand unityPath unityArgs (unityProjectPath ps)
                        [ ("ANDROID_HOME", ANDROID_HOME env);
                          ("ANDROID_NDK_HOME", ANDROID_NDK_HOME env);
                          ("JAVA_HOME", JAVA_HOME env) ];
    if negb (code result =? 0)
    then mret (failed ["Unity build falhou"; stderr result] [] 0)
    else
      let apkPath := pjoin [exportDir; "game.apk"] in
      ex ← existsSyncM apkPath;
      if negb ex then
        files ← readdirSyncM exportDir;
        match List.find (λ f, Js.endsWith f ".apk") files with
        | Some apk =>
            if String.eqb apk ""
            then mret (failed ["APK Unity não encontrado após build"] [] 0)
            else mret (built (pjoin [exportDir; apk]))
        | None => mret (failed ["APK Unity não encontrado após build"] [] 0)
        end
      else mret (built apkPath).

(** *** The four stages, as the orchestrator calls them *)

Definition prepare (k : PipelineKind) (projectPath : string) (ps : PipeState)
  : M R PipeState :=
  record (EvStage Prepare k);; call (rt_prepare R k projectPath ps).

Definition configure (k : PipelineKind) (options : BuildOptions) (ps : PipeState)
  : M R PipeState :=
  record (EvStage Configure k);; call (rt_configure R k options ps).

Definition pipeline_build (k : PipelineKind) (ps : PipeState) (env : OfflineEnvironment)
  : M R BuildResult :=
  record (EvStage Build k);;
  result ← match k with
           | WebPipeline => WebPipeline_build ps env
           | NdkPipeline => NdkPipeline_build ps env
           | MauiPipeline => MauiPipeline_build ps env
           | ReactNativePipeline => ReactNativePipeline_build ps env
           | UnityPipeline => UnityPipeline_build ps env
           end;
  record (EvBuildReturned result);;
  mret result.

End Effects.

(** ** Build orchestrator ([src/core/orchestrator.ts]) *)

(** A registered pipeline object: its class and its current fields. *)
Record Pipeline : Type := {
  pl_kind : PipelineKind;
  pl_state : PipeState
}.

Record BuildOrchestrator : Type := {
  orch_env : OfflineEnvironment;
  orch_pipelines : gmap string Pipeline
}.

Definition freshPipeline (k : PipelineKind) : Pipeline :=
  {| pl_kind := k;
     pl_state := {| buildDir := ""; projectPath := ""; options := None;
                    hasAndroidDir := false; isExpo := false;
                    csprojPath := ""; unityProjectPath := "" |} |}.

(** The constructor: the environment is resolved once and the five
    pipelines are registered. *)
Definition newBuildOrchestrator (R : Runtime) : BuildOrchestrator :=
  {| orch_env := getOfflineEnvironment (rt_host R) (rt_bundled R);
     orch_pipelines :=
       <["unity" := freshPipeline UnityPipeline]>
       (<["reactnative" := freshPipeline ReactNativePipeline]>
       (<["maui" := freshPipeline MauiPipeline]>
       (<["ndk" := freshPipeline NdkPipeline]>
       (<["web" := freshPipeline WebPipeline]> ∅)))) |}.

Section Orchestrator.

Context {R : Runtime}.

Abbreviation ojoin := (path_join (rt_host R)).

(** [emitProgress]: the event goes to the ['progress'] listeners and to the
    log; listeners and the logger are taken not to throw. *)
Definition emitProgress (stage : string) (percent : Z) (message : string) : M R unit :=
  record (EvProgress stage percent message).

(** [applyEnvironment] ([src/core/environment.ts]) *)
Definition applyEnvironment (env : OfflineEnvironment) : M R unit :=
  record EvApplyEnvironment;;
  setenv "JAVA_HOME" (JAVA_HOME env);;
  setenv "ANDROID_HOME" (ANDROID_HOME env);;
  setenv "ANDROID_SDK_ROOT" (ANDROID_HOME env);;
  setenv "ANDROID_NDK_HOME" (ANDROID_NDK_HOME env);;
  setenv "GRADLE_USER_HOME" (GRADLE_USER_HOME env);;
  setenv "DOTNET_ROOT" (DOTNET_ROOT env);;
  setenv "npm_config_cache" (NPM_CONFIG_CACHE env);;
  let paths :=
    [ ojoin [JAVA_HOME env; "bin"];
      ojoin [ANDROID_HOME env; "platform-tools"];
      ojoin [ANDROID_HOME env; "cmdline-tools"; "latest"; "bin"];
      ojoin [ANDROID_HOME env; "build-tools"; "34.0.0"];
      ojoin [NODE_PATH env];
      ojoin [DOTNET_ROOT env] ] in
  let separator := if platform_win32 (rt_host R) then ";" else ":" in
  PATH ← getenv "PATH";
  setenv "PATH" (Js.join separator paths +:+ separator +:+ orElse PATH "").

(** [BuildOrchestrator.detectProject] *)
Definition orch_detectProject (projectPath : string) : M R ProjectInfo :=
  emitProgress "Detecção" 0 "Analisando estrutura do projeto...";;
  info ← (λ s, (detectProject (rt_host R) (rt_fs R (world s)) projectPath, s));
  emitProgress "Detecção" 10
    ("Tipo detectado: " +:+ ProjectType_str (pi_type info) +:+ " (" +:+
     pretty (pi_confidence info) +:+ "% confiança)");;
  mret info.

(** [BuildOrchestrator.verifyEnvironment] *)
Definition orch_verifyEnvironment (o : BuildOrchestrator) : M R EnvCheck :=
  peek (λ w, verifyEnvironment (rt_fs R w) (orch_env o)).

(** Output placement: the signed APK is copied to [<appName>/<appName>.apk]
    next to it. *)
Definition placeOutput (signedApk : string) (options : BuildOptions) : M R string :=
  let outputDir := ojoin [path_dirname (rt_host R) signedApk; appName options] in
  ex ← existsSyncM outputDir;
  when (negb ex) (mkdirSync outputDir);;
  let finalApkName := appName options +:+ ".apk" in
  let finalApkPath := ojoin [outputDir; finalApkName] in
  copyFileSync signedApk finalApkPath;;
  mret finalApkPath.

(** The [try] block of [BuildOrchestrator.build]. *)
Definition buildTry (o : BuildOrchestrator) (projectPath : string)
    (options : BuildOptions) (startTime : Z) : M R BuildResult :=
  emitProgress "Verificação" 5 "Verificando SDKs embutidos...";;
  envCheck ← orch_verifyEnvironment o;
  if negb (valid envCheck) then
    now ← Date_now;
    mret (failed ["SDKs faltando: " +:+ Js.join ", " (missing envCheck)] []
                 (now - startTime))
  else
    applyEnvironment (orch_env o);;
    projectInfo ← orch_detectProject projectPath;
    if decide (pi_type projectInfo = unknown) then
      now ← Date_now;
      mret (failed ["Tipo de projeto não reconhecido"] [] (now - startTime))
    else
      match orch_pipelines o !! ProjectType_str (pi_type projectInfo) with
      | None =>
          now ← Date_now;
          mret (failed ["Pipeline não disponível para tipo: " +:+
                        ProjectType_str (pi_type projectInfo)] []
                       (now - startTime))
      | Some pipeline =>
          let k := pl_kind pipeline in
          emitProgress "Preparação" 20 "Preparando arquivos do projeto...";;
          ps ← prepare k projectPath (pl_state pipeline);
          emitProgress "Configuração" 30
                       "Gerando configurações (Manifest, Gradle, ícones)...";;
          ps ← configure k options ps;
          emitProgress "Compilação" 50 "Compilando projeto...";;
          result ← pipeline_build k ps (orch_env o);
          if negb (success result) then mret result
          else
            emitProgress "Assinatura" 90 "Assinando APK...";;
            signedApk ← sign k (apkPath result) options;
            finalApkPath ← placeOutput signedApk options;
            emitProgress "Concluído" 100 "Build finalizado com sucesso!";;
            now ← Date_now;
            mret {| success := success result;
                    apkPath := Some finalApkPath;
                    aabPath := aabPath result;
                    errors := errors result;
                    warnings := warnings result;
                    buildTime := now - startTime |}
      end.

(** [BuildOrchestrator.build] *)
Definition build (o : BuildOrchestrator) (projectPath : string) (options : BuildOptions)
  : M R BuildResult :=
  startTime ← Date_now;
  try_catchM
    (buildTry o projectPath options startTime)
    (λ error,
       now ← Date_now;
       mret (failed [error] [] (now - startTime))).

End Orchestrator.

(** * More of the code

    The functions below complete the files modelled above: the manifest
    generator ([src/generators/manifest.ts]), the remaining functions of
    [src/generators/signing.ts], [BasePipeline.createBuildDir] and the
    [prepare] and [configure] methods of the MAUI and Unity pipelines. *)

(** ** [String.prototype.replace] with a replacement that is interpreted

    In the replacement string [$$] stands for a dollar sign, [$&] for the
    matched text, [$`] for the text before the match and [$'] for the text
    after it.  The pattern is a string, so there are no capture groups and
    every other use of the dollar sign stands for itself. *)

Module JsReplace.

Fixpoint substitute (replacement matched before after : string) : string :=
  match replacement with
  | EmptyString => EmptyString
  | String a rest =>
      if Ascii.eqb a "$"%char then
        match rest with
        | EmptyString => String a EmptyString
        | String c r =>
            if Ascii.eqb c "$"%char then String "$"%char (substitute r matched before after)
            else if Ascii.eqb c "&"%char then matched +:+ substitute r matched before after
            else if Ascii.eqb c "`"%char then before +:+ substitute r matched before after
            else if Ascii.eqb c "'"%char then after +:+ substitute r matched before after
            else String a (substitute rest matched before after)
        end
      else String a (substitute rest matched before after)
  end.

(** [s.replace(pat, replacement)] where [before] is the text already passed:
    the first occurrence is replaced; without one the string is unchanged. *)
Fixpoint replaceFrom (before s pat replacement : string) : string :=
  if String.prefix pat s
  then let after := String.substring (String.length pat) (String.length s) s in
       substitute replacement pat before after +:+ after
  else match s with
       | EmptyString => EmptyString
       | String c s' =>
           String c (replaceFrom (before +:+ String c EmptyString) s' pat replacement)
       end.

Definition replace (s pat replacement : string) : string :=
  replaceFrom "" s pat replacement.

End JsReplace.

(** ** Manifest generator ([src/generators/manifest.ts]) *)

(** [WEB_API_PERMISSIONS], in the order of its keys. *)
Definition WEB_API_PERMISSIONS : list (string * list string) :=
  [
    ("navigator.geolocation", ["android.permission.ACCESS_FINE_LOCATION"; "android.permission.ACCESS_COARSE_LOCATION"]);
    ("navigator.mediaDevices.getUserMedia", ["android.permission.CAMERA"; "android.permission.RECORD_AUDIO"]);
    ("navigator.mediaDevices.getDisplayMedia", ["android.permission.RECORD_AUDIO"]);
    ("Notification", ["android.permission.POST_NOTIFICATIONS"]);
    ("navigator.vibrate", ["android.permission.VIBRATE"]);
    ("navigator.bluetooth", ["android.permission.BLUETOOTH"; "android.permission.BLUETOOTH_ADMIN"]);
    ("navigator.usb", ["android.permission.USB_PERMISSION"]);
    ("navigator.nfc", ["android.permission.NFC"]);
    ("navigator.contacts", ["android.permission.READ_CONTACTS"]);
    ("fetch", ["android.permission.INTERNET"]);
    ("XMLHttpRequest", ["android.permission.INTERNET"]);
    ("WebSocket", ["android.permission.INTERNET"]) ].

(** [set.add(x)] on a [Set], whose elements keep the order of insertion. *)
Definition setAdd (set : list string) (x : string) : list string :=
  if bool_decide (x ∈ set) then set else set ++ [x].

(** [new Set(arr)] *)
Definition newSet (arr : list string) : list string := fold_left setAdd arr [].

Section Manifest.

Context (h : Host) (fs : FS).

(** The body of the loop over [Object.entries(WEB_API_PERMISSIONS)]. *)
Definition scanApis (content : string) (permissions : list string) : list string :=
  fold_left (λ permissions entry,
               if Js.includes content entry.1
               then fold_left setAdd entry.2 permissions
               else permissions)
            WEB_API_PERMISSIONS permissions.

(** The body of the loop over the code files: a file that cannot be read is
    skipped. *)
Definition scanFile (projectPath : string) (permissions : list string) (file : string)
  : list string :=
  match readFileSync fs (path_join h [projectPath; file]) with
  | Some content => scanApis content permissions
  | None => permissions
  end.

Definition detectPermissions (projectPath : string) : list string :=
  let permissions := setAdd [] "android.permission.INTERNET" in
  let permissions := setAdd permissions "android.permission.ACCESS_NETWORK_STATE" in
  match readdirSyncRec fs projectPath with
  | None => permissions
  | Some files =>
      let codeFiles := withExt [".js"; ".ts"; ".html"; ".jsx"; ".tsx"] files in
      fold_left (scanFile projectPath) (Js.slice0 50 codeFiles) permissions
  end.

End Manifest.

(** [<uses-permission android:name="p" />] *)
Definition permTag (permission : string) : string :=
  "<uses-permission android:name=" +:+ dquote +:+ permission +:+ dquote +:+ " />".

(** The first two constants of [generateManifest]:
    [[...new Set([...options.permissions, 'android.permission.INTERNET'])]]
    and the block of declarations made of it, which the template of the
    manifest then holds. *)
Definition manifestPermissions (options : BuildOptions) : list string :=
  newSet (permissions options ++ ["android.permission.INTERNET"]).

Definition permissionsXml (options : BuildOptions) : string :=
  Js.join newline ((λ p, "    " +:+ permTag p) <$> manifestPermissions options).

(** The loop of [updateManifestPermissions] over the permissions. *)
Definition addPermission (content permission : string) : string :=
  if negb (Js.includes content permission)
  then JsReplace.replace content "</manifest>"
         ("    " +:+ permTag permission +:+ newline +:+ "</manifest>")
  else content.

Definition addPermissions (content : string) (permissions : list string) : string :=
  fold_left addPermission permissions content.

Section More_effects.

Context {R : Runtime}.

Abbreviation mjoin := (path_join (rt_host R)).

(** [readFileSync(p, 'utf-8')] outside a [try]. *)
Definition readFileSyncM (p : string) : M R string :=
  λ s, match readFileSync (rt_fs R (world s)) p with
       | Some content => (Ret content, s)
       | None => (Throw "readFileSync failed", s)
       end.

(** [readdirSync(p, { recursive: true })] outside a [try]. *)
Definition readdirSyncRecM (p : string) : M R (list string) :=
  λ s, match readdirSyncRec (rt_fs R (world s)) p with
       | Some files => (Ret files, s)
       | None => (Throw "readdirSync failed", s)
       end.

Definition updateManifestPermissions (manifestPath : string) (permissions : list string)
  : M R unit :=
  ex ← existsSyncM manifestPath;
  if negb ex then throw ("Manifest não encontrado: " +:+ manifestPath)
  else
    content ← readFileSyncM manifestPath;
    writeFileSync manifestPath (addPermissions content permissions).

(** ** The rest of [src/generators/signing.ts] *)


(** An exit code interpolated in a template literal. *)
Definition interpCode (code : option Z) : string :=
  match code with
  | Some c => pretty c
  | None => "null"
  end.

Definition createReleaseKeystore (outputPath password alias keyPassword dname : string)
    (env : OfflineEnvironment) : M R KeystoreInfo :=
  mkdirSync (path_dirname (rt_host R) outputPath);;
  let keytoolPath := mjoin [JAVA_HOME env; "bin"; "keytool"] in
  let args :=
    [ "-genkeypair"; "-v"; "-keystore"; outputPath; "-storepass"; password;
      "-alias"; alias; "-keypass"; keyPassword; "-keyalg"; "RSA";
      "-keysize"; "2048"; "-validity"; "10000"; "-dname"; dname ] in
  proc ← spawn keytoolPath (Some <$> args) None [];
  match pr_end proc with
  | Closed (Some 0) =>
      mret {| ks_path := Some outputPath;
              ks_password := Some password;
              ks_alias := Some alias;
              ks_keyPassword := Some keyPassword |}
  | Closed code => throw ("keytool falhou com código " +:+ interpCode code)
  | Errored message => throw message
  end.

(** ** [prepare] and [configure] of the MAUI and Unity pipelines

    A method takes the fields of the pipeline object and returns them as it
    leaves them.  When a method throws, the fields it assigned before stay
    on the object; the next [prepare] assigns them again before it reads
    them. *)

(** [BasePipeline.createBuildDir] ([src/runners/base-pipeline.ts]) *)
Definition createBuildDir (baseName : string) (ps : PipeState) : M R PipeState :=
  TEMP ← getenv "TEMP";
  now ← Date_now;
  let tempDir := mjoin [orElse TEMP "/tmp"; "apk-builder"; baseName; pretty now] in
  mkdirSync tempDir;;
  mret {| buildDir := tempDir; projectPath := projectPath ps; options := options ps;
          hasAndroidDir := hasAndroidDir ps; isExpo := isExpo ps;
          csprojPath := csprojPath ps; unityProjectPath := unityProjectPath ps |}.

(** The loop of [UnityPipeline.prepare] over the required directories. *)
Fixpoint requireDirs (projectPath : string) (dirs : list string) : M R unit :=
  match dirs with
  | [] => mret ()
  | dir :: rest =>
      ex ← existsSyncM (mjoin [projectPath; dir]);
      if negb ex
      then throw ("Diretório " +:+ dir +:+
                  " não encontrado. Não parece ser um projeto Unity válido.")
      else requireDirs projectPath rest
  end.

Definition UnityPipeline_prepare (path : string) (ps : PipeState) : M R PipeState :=
  let ps := {| buildDir := buildDir ps; projectPath := path; options := options ps;
               hasAndroidDir := hasAndroidDir ps; isExpo := isExpo ps;
               csprojPath := csprojPath ps; unityProjectPath := path |} in
  ps ← createBuildDir "unity" ps;
  requireDirs path ["Assets"; "ProjectSettings"];;
  mret ps.

(** [configure] of the MAUI and of the Unity pipeline: the options are
    stored. *)
Definition storeOptions (opts : BuildOptions) (ps : PipeState) : M R PipeState :=
  mret {| buildDir := buildDir ps; projectPath := projectPath ps; options := Some opts;
          hasAndroidDir := hasAndroidDir ps; isExpo := isExpo ps;
          csprojPath := csprojPath ps; unityProjectPath := unityProjectPath ps |}.

Definition UnityPipeline_configure := storeOptions.
Definition MauiPipeline_configure := storeOptions.

(** The loop of [MauiPipeline.findCsproj] that looks for a MAUI project;
    [None] when the loop ends without one. *)
Fixpoint firstMauiCsproj (buildDir : string) (csprojFiles : list string)
  : M R (option string) :=
  match csprojFiles with
  | [] => mret None
  | csproj :: rest =>
      content ← readFileSyncM (mjoin [buildDir; csproj]);
      if Js.includes content "Microsoft.Maui" || Js.includes content "UseMaui"
      then mret (Some (mjoin [buildDir; csproj]))
      else firstMauiCsproj buildDir rest
  end.

(** [MauiPipeline.findCsproj]: the value of [this.csprojPath] it sets. *)
Definition findCsproj (buildDir : string) : M R string :=
  files ← readdirSyncRecM buildDir;
  let csprojFiles := withExt [".csproj"] files in
  match csprojFiles with
  | [] => throw "Nenhum arquivo .csproj encontrado"
  | first :: _ =>
      found ← firstMauiCsproj buildDir csprojFiles;
      match found with
      | Some path => mret path
      | None => mret (mjoin [buildDir; first])
      end
  end.

Definition MauiPipeline_prepare (path : string) (ps : PipeState) : M R PipeState :=
  let ps := {| buildDir := buildDir ps; projectPath := path; options := options ps;
               hasAndroidDir := hasAndroidDir ps; isExpo := isExpo ps;
               csprojPath := csprojPath ps; unityProjectPath := unityProjectPath ps |} in
  ps ← createBuildDir "maui" ps;
  cpSync path (buildDir ps);;
  csproj ← findCsproj (buildDir ps);
  mret {| buildDir := buildDir ps; projectPath := projectPath ps; options := options ps;
          hasAndroidDir := hasAndroidDir ps; isExpo := isExpo ps;
          csprojPath := csproj; unityProjectPath := unityProjectPath ps |}.

End More_effects.

(** * Concrete scenarios

    A small host, a few filesystem snapshots and runtimes on which the model
    can be evaluated. *)

Module Scenario.

(** [path.join] without normalisation and [path.dirname] up to the last
    slash. *)
Definition posixJoin (parts : list string) : string := Js.join "/" parts.

Fixpoint dirnameGo (s : string) (seen acc : string) : string :=
  match s with
  | EmptyString => acc
  | String c s' =>
      if Ascii.eqb c "/"%char then dirnameGo s' (seen +:+ "/") seen
      else dirnameGo s' (seen +:+ String c EmptyString) acc
  end.

Definition posixDirname (p : string) : string := dirnameGo p "" ".".

(** The text of a [package.json] that depends on Expo. *)
Definition expoPackageJson : string :=
  "{" +:+ dquote +:+ "dependencies" +:+ dquote +:+ ":{" +:+
  dquote +:+ "expo" +:+ dquote +:+ ":" +:+ dquote +:+ "~50.0.0" +:+ dquote +:+ "}}".

(** A parser that knows this one text. *)
Definition parseKnown (content : string) : option json :=
  if String.eqb content expoPackageJson
  then Some (JObj [("dependencies", JObj [("expo", JStr "~50.0.0")])])
  else None.

Definition posix : Host :=
  {| path_join := posixJoin;
     path_dirname := posixDirname;
     JSON_parse := parseKnown;
     platform_win32 := false |}.

(** A filesystem given by the paths that exist, the files that can be read
    and the recursive listing of one directory. *)
Definition fsOf (paths : list string) (files : list (string * string))
    (root : string) (listing : list string) : FS :=
  {| existsSync := λ p, bool_decide (p ∈ paths);
     readFileSync := λ p, snd <$> List.find (λ f, String.eqb p f.1) files;
     readdirSync := λ p, if String.eqb p root then Some listing else None;
     readdirSyncRec := λ p, if String.eqb p root then Some listing else None |}.

(** An Expo application that ships a web entry page and native sources built
    with CMake and ndk-build. *)
Definition expoWithNative : FS :=
  fsOf [ "/app/index.html"; "/app/package.json"; "/app/CMakeLists.txt";
         "/app/Android.mk" ]
       [ ("/app/package.json", expoPackageJson) ]
       "/app"
       [ "index.html"; "package.json"; "CMakeLists.txt"; "Android.mk" ].

(** A plain Expo application with a web entry page. *)
Definition expoPlain : FS :=
  fsOf [ "/app/index.html"; "/app/package.json"; "/app/app.json" ]
       [ ("/app/package.json", expoPackageJson) ]
       "/app"
       [ "index.html"; "package.json"; "app.json" ].

(** A native project: the CMake descriptor and three C++ sources. *)
Definition cmakeWithSources : FS :=
  fsOf [ "/app/CMakeLists.txt" ] [] "/app"
       [ "CMakeLists.txt"; "a.cpp"; "b.cpp"; "src/c.cpp" ].

(** Only the CMake descriptor. *)
Definition cmakeOnly : FS :=
  fsOf [ "/app/CMakeLists.txt" ] [] "/app" [ "CMakeLists.txt" ].

(** An empty directory. *)
Definition emptyDir : FS := fsOf [] [] "/app" [].

(** The environment below [/opt/bundled]. *)
Definition env : OfflineEnvironment := getOfflineEnvironment posix "/opt/bundled".

(** Every toolchain root is installed except the Gradle distribution. *)
Definition noGradleHome : FS :=
  fsOf [ "/opt/bundled/jdk"; "/opt/bundled/android-sdk"; "/opt/bundled/ndk/r26";
         "/opt/bundled/gradle-cache"; "/opt/bundled/dotnet"; "/opt/bundled/node";
         "/opt/bundled/npm-cache"; "/opt/bundled/unity" ]
       [] "/app" [].

(** Every toolchain root is installed except the JDK and the NDK. *)
Definition noJdkNoNdk : FS :=
  fsOf [ "/opt/bundled/android-sdk"; "/opt/bundled/gradle-cache";
         "/opt/bundled/gradle/8.5"; "/opt/bundled/dotnet"; "/opt/bundled/node";
         "/opt/bundled/npm-cache"; "/opt/bundled/unity" ]
       [] "/app" [].

(** A web project, with the six checked toolchain roots installed. *)
Definition webProject : FS :=
  fsOf [ "/opt/bundled/jdk"; "/opt/bundled/android-sdk"; "/opt/bundled/ndk/r26";
         "/opt/bundled/gradle-cache"; "/opt/bundled/dotnet"; "/opt/bundled/node";
         "/app/index.html" ]
       [] "/app" [ "index.html" ].

(** The same project where the JDK and the NDK are not installed. *)
Definition webProjectNoJdkNoNdk : FS :=
  fsOf [ "/opt/bundled/android-sdk"; "/opt/bundled/gradle-cache";
         "/opt/bundled/dotnet"; "/opt/bundled/node"; "/app/index.html" ]
       [] "/app" [ "index.html" ].

(** A runtime over a fixed filesystem: [online] tells whether the DNS lookup
    succeeds, [spawned] is what every call of [spawn] gives (a child, or the
    exception it throws); every other call succeeds, and
    [prepare]/[configure] leave [ps] on the pipeline. *)
Definition runtimeWith (fs : FS) (online : bool) (spawned : Outcome ProcRun)
    (ps : PipeState) : Runtime :=
  {| World := unit;
     rt_host := posix;
     rt_bundled := "/opt/bundled";
     rt_fs := λ _, fs;
     rt_getenv := λ _ _, None;
     rt_setenv := λ _ _ w, w;
     rt_now := λ w, (0, w);
     rt_dns_lookup := λ _ w, (if online then Ret () else Throw "ENOTFOUND", w);
     rt_spawn := λ _ _ _ _ w, (spawned, w);
     rt_execSync := λ _ w, (Ret (), w);
     rt_mkdirSync := λ _ w, (Ret (), w);
     rt_writeFileSync := λ _ _ w, (Ret (), w);
     rt_cpSync := λ _ _ w, (Ret (), w);
     rt_copyFileSync := λ _ _ w, (Ret (), w);
     rt_prepare := λ _ _ _ w, (Ret ps, w);
     rt_configure := λ _ _ _ w, (Ret ps, w) |}.

(** The runtime in which every call of [spawn] returns a child that does
    [child]. *)
Definition runtime (fs : FS) (online : bool) (child : ProcRun) (ps : PipeState) : Runtime :=
  runtimeWith fs online (Ret child) ps.

Definition exits (code : Z) : ProcRun :=
  {| pr_chunks := [Stdout "BUILD"; Stderr "FAILED"]; pr_end := Closed (Some code) |}.

Definition killed : ProcRun :=
  {| pr_chunks := [Stdout "BUILD"]; pr_end := Closed None |}.

Definition spawnFails : ProcRun :=
  {| pr_chunks := [Stderr "sh: "]; pr_end := Errored "spawn ENOENT" |}.

Definition webState : PipeState :=
  {| buildDir := "/tmp/apk-builder/web/1"; projectPath := "/app"; options := None;
     hasAndroidDir := false; isExpo := false; csprojPath := "";
     unityProjectPath := "" |}.

(** Release options in which the key password was left out. *)
Definition releaseWithoutKeyPassword : BuildOptions :=
  {| appName := "Demo"; packageName := "com.demo.app"; version := "1.0.0";
     versionCode := 1; minSdk := 21; targetSdk := 34; compileSdk := 34;
     abis := ["arm64-v8a"; "armeabi-v7a"]; signMode := release;
     keystorePath := Some "/keys/release.jks";
     keystorePassword := Some "s3cret";
     keyAlias := Some "upload";
     keyPassword := None;
     iconPath := None;
     permissions := ["android.permission.INTERNET"];
     proguardEnabled := false |}.

Definition debugOptions : BuildOptions :=
  {| appName := "Demo"; packageName := "com.demo.app"; version := "1.0.0";
     versionCode := 1; minSdk := 21; targetSdk := 34; compileSdk := 34;
     abis := ["arm64-v8a"; "armeabi-v7a"]; signMode := debug;
     keystorePath := None; keystorePassword := None;
     keyAlias := None; keyPassword := None; iconPath := None;
     permissions := ["android.permission.INTERNET"];
     proguardEnabled := false |}.

(** What the Web pipeline returns when Gradle exits with code 1. *)
Definition gradleFailure : BuildResult :=
  failed ["Gradle build falhou"; "BUILDFAILED"] [] 0.

(** Online, Gradle exits with code 1. *)
Definition gradleFails : Runtime := runtime webProject true (exits 1) webState.

(** Online, every child exits with code 0. *)
Definition allGood : Runtime := runtime webProject true (exits 0) webState.

(** Offline, the child is killed by a signal. *)
Definition offlineKilled : Runtime := runtime webProject false killed webState.

(** The JDK and the NDK are missing. *)
Definition toolchainMissing : Runtime :=
  runtime webProjectNoJdkNoNdk true (exits 0) webState.



(** Every call of [spawn] throws: the system refuses the arguments of the
    new process. *)
Definition spawnThrows : Runtime :=
  runtimeWith webProject true (Throw "spawn E2BIG") webState.

End Scenario.

(** * Vocabulary of the properties *)

(** A detector whose failure is replaced by the absence of evidence. *)
Definition isolate (d : Detector) : Detector :=
  λ projectPath, try_catch (d projectPath) (λ _, Ret None).

(** What a detector contributes to the resolution: its result when it
    resolves with one of positive confidence, nothing otherwise. *)
Definition evidence (projectPath : string) (d : Detector) : list DetectionResult :=
  match d projectPath with
  | Ret (Some r) => if 0 <? dr_confidence r then [r] else []
  | Ret None => []
  | Throw _ => []
  end.

(** The evidence of all detectors, in registration order. *)
Definition survivors (projectPath : string) (ds : list Detector) : list DetectionResult :=
  ds ≫= evidence projectPath.

(** [info] is the classification of [projectPath] that the candidates
    [results] determine: [unknown] with confidence 0 without candidates, and
    otherwise the type, confidence and files of a candidate of maximal
    confidence before which every candidate has a strictly smaller one (the
    first registered among equals). *)
Definition resolves (results : list DetectionResult) (projectPath : string)
    (info : ProjectInfo) : Prop :=
  pi_path info = projectPath
  ∧ pi_suggestedName info = extractProjectName projectPath
  ∧ ((results = [] ∧ pi_type info = unknown ∧ pi_confidence info = 0
      ∧ pi_detectedFiles info = [])
     ∨ (∃ before best after,
          results = before ++ best :: after
          ∧ Forall (λ r, dr_confidence r < dr_confidence best) before
          ∧ Forall (λ r, dr_confidence r ≤ dr_confidence best) after
          ∧ pi_type info = dr_type best
          ∧ pi_confidence info = dr_confidence best
          ∧ pi_detectedFiles info = dr_detectedFiles best)).

(** What every detector returns: [null], or a result of its own type whose
    confidence is positive and at most 100. *)
Definition capped (t : ProjectType) (r : option DetectionResult) : Prop :=
  ∀ x, r = Some x → dr_type x = t ∧ 0 < dr_confidence x ≤ 100.

(** The confidence a detector reports, 0 when it returns [null]. *)
Definition confidenceOf (r : option DetectionResult) : Z :=
  from_option dr_confidence 0 r.

(** The [package.json] of the project lists [react-native] or [expo] among
    its dependencies or devDependencies: the file exists, can be read and
    parsed, and the entry has a truthy value (a non-empty version string). *)
Definition listsReactNative (h : Host) (fs : FS) (projectPath : string) : Prop :=
  let packageJsonPath := path_join h [projectPath; "package.json"] in
  existsSync fs packageJsonPath = true
  ∧ ∃ content pkg,
      readFileSync fs packageJsonPath = Some content
      ∧ JSON_parse h content = Some pkg
      ∧ (hasDep pkg "react-native" = Ret true ∨ hasDep pkg "expo" = Ret true).

(** The events of calls into the platform, as opposed to the progress
    events and stage marks of the orchestrator. *)
Definition external (e : Event) : bool :=
  match e with
  | EvLog _ | EvDnsLookup _ | EvSpawn _ _ | EvExecSync _
  | EvMkdirSync _ | EvWriteFileSync _ | EvCpSync _ _ => true
  | _ => false
  end.

(** Events other than the return of a pipeline's [build]. *)
Definition notBuildReturned (e : Event) : bool :=
  match e with
  | EvBuildReturned _ => false
  | _ => true
  end.

(** Events that are neither the return of [build], nor the entry of [sign],
    nor the copy that places the output. *)
Definition calm (e : Event) : bool :=
  match e with
  | EvBuildReturned _ | EvStage Sign _ | EvCopyFileSync _ _ => false
  | _ => true
  end.

(** [sign] was entered, or the output was placed. *)
Definition signsOrPlaces (e : Event) : bool :=
  match e with
  | EvStage Sign _ | EvCopyFileSync _ _ => true
  | _ => false
  end.


(** [m] adds to the trace only events that satisfy [P], however it ends. *)
Definition emits {R A} (P : Event → Prop) (m : M R A) : Prop :=
  ∀ s r s', m s = (r, s') → ∃ evs, trace s' = evs ++ trace s ∧ Forall P evs.

(** Whenever [m] returns a value, the value satisfies [Q]. *)
Definition returns {R A} (Q : A → Prop) (m : M R A) : Prop :=
  ∀ s a s', m s = (Ret a, s') → Q a.

(** A failing result carries at least one error and no [apkPath]. *)
Definition failsProperly (r : BuildResult) : Prop :=
  success r = false → errors r ≠ [] ∧ apkPath r = None.

(** The three shapes of the events [evs] of a run of the orchestrator's
    [build] that returns [res] (latest event first): no pipeline [build]
    returned, and the events are calm; or [res] is the failing result the
    pipeline's [build] returned, and that return is the last event; or the
    pipeline's [build] returned a success, once. *)
Definition buildTrace (res : BuildResult) (evs : list Event) : Prop :=
  Forall (λ e, calm e = true) evs
  ∨ (∃ evs1, evs = EvBuildReturned res :: evs1
             ∧ Forall (λ e, calm e = true) evs1
             ∧ success res = false ∧ apkPath res = None)
  ∨ (∃ br evs1 evs2, evs = evs2 ++ EvBuildReturned br :: evs1
                     ∧ success br = true
                     ∧ Forall (λ e, notBuildReturned e = true) evs2
                     ∧ Forall (λ e, calm e = true) evs1).

(** The filesystem as the orchestrator's [build] sees it when it verifies
    the environment: right after the start time was read. *)
Definition fsAtCheck {R : Runtime} (w : World R) : FS :=
  rt_fs R (rt_now R w).2.

(** The text on [stdout] among the chunks. *)
Fixpoint stdoutOf (chunks : list Chunk) : string :=
  match chunks with
  | [] => ""
  | Stdout text :: rest => text +:+ stdoutOf rest
  | Stderr _ :: rest => stdoutOf rest
  end.

(** What [runCommand] is claimed to resolve with, read off the child: the
    exit code of a ['close'], 0 when the code is [null], and on ['error']
    code 1 with the message appended to [stderr]. *)
Definition settle (proc : ProcRun) : CommandResult :=
  match pr_end proc with
  | Closed (Some c) =>
      {| stdout := stdoutOf (pr_chunks proc); stderr := stderrOf (pr_chunks proc);
         code := c |}
  | Closed None =>
      {| stdout := stdoutOf (pr_chunks proc); stderr := stderrOf (pr_chunks proc);
         code := 0 |}
  | Errored message =>
      {| stdout := stdoutOf (pr_chunks proc);
         stderr := stderrOf (pr_chunks proc) +:+ message;
         code := 1 |}
  end.

(** How [runCommand] settles, given what [spawn] did: it resolves with
    [settle] of the child it got, and rejects with what [spawn] threw. *)
Definition settled (spawned : Outcome ProcRun) : Outcome CommandResult :=
  match spawned with
  | Ret proc => Ret (settle proc)
  | Throw e => Throw e
  end.

(** The keystore made of the four credential fields of the options, as the
    caller supplied them. *)
Definition suppliedKeystore (opts : BuildOptions) : KeystoreInfo :=
  {| ks_path := keystorePath opts;
     ks_password := keystorePassword opts;
     ks_alias := keyAlias opts;
     ks_keyPassword := keyPassword opts |}.

(** How [signApk] settles, given what [apksigner] did. *)
Definition signOutcome (proc : ProcRun) (outputPath : string) : Outcome string :=
  match pr_end proc with
  | Closed (Some 0) => Ret outputPath
  | Closed _ => Throw ("apksigner falhou: " +:+ stderrOf (pr_chunks proc))
  | Errored message => Throw message
  end.

(** How [signApk] settles, given what the [spawn] of [apksigner] did. *)
Definition signSettles (spawned : Outcome ProcRun) (outputPath : string)
  : Outcome string :=
  match spawned with
  | Ret proc => signOutcome proc outputPath
  | Throw e => Throw e
  end.

(** The path of [apksigner] in the bundled SDK. *)
Definition apksigner (R : Runtime) : string :=
  path_join (rt_host R)
    [ANDROID_HOME (getOfflineEnvironment (rt_host R) (rt_bundled R));
     "build-tools"; "34.0.0"; "apksigner"].

(** The command line with which [signApk] tries to align the APK. *)
Definition zipalignCommand (h : Host) (env : OfflineEnvironment) (apkPath : string)
  : string :=
  dquote +:+ path_join h [ANDROID_HOME env; "build-tools"; "34.0.0"; "zipalign"]
  +:+ dquote +:+ " -f -p 4 " +:+ dquote +:+ apkPath +:+ dquote +:+ " " +:+
  dquote +:+ Js.replace apkPath ".apk" "-aligned.apk" +:+ dquote.

(** A failing result is descriptive: its first error is a text that is not
    empty. *)
Definition describesFailure (r : BuildResult) : Prop :=
  success r = false → ∃ first rest, errors r = first :: rest ∧ first ≠ "".

(** The arguments of the first Gradle invocation. *)
Definition gradleArgs (task : string) (online : bool) : list string :=
  if online then [task; "--no-daemon"; "--stacktrace"]
  else [task; "--no-daemon"; "--stacktrace"; "--offline"].

(** A ['log'] event. *)
Definition isLog (e : Event) : bool :=
  match e with
  | EvLog _ => true
  | _ => false
  end.

(** The Gradle executable [runGradle] invokes. *)
Definition gradleExec (h : Host) (env : OfflineEnvironment) : string :=
  path_join h [GRADLE_HOME env; "bin";
               if platform_win32 h then "gradle.bat" else "gradle"].

(** ** Further scenarios *)

Module Sample.

(** A MAUI project: one project file that uses MAUI, and its program. *)
Definition mauiProject : FS :=
  Scenario.fsOf [ "/app/MauiProgram.cs" ]
                [ ("/app/App.csproj", "<Project><UseMaui>true</UseMaui></Project>") ]
                "/app" [ "App.csproj"; "MauiProgram.cs" ].

(** A build directory with a class library before the MAUI project. *)
Definition twoCsproj : FS :=
  Scenario.fsOf []
                [ ("/b/Lib.csproj", "<Project></Project>");
                  ("/b/App.csproj", "<Project><UseMaui>true</UseMaui></Project>") ]
                "/b" [ "Lib.csproj"; "App.csproj" ].

(** The output directory of a .NET build: a signed and an unsigned APK. *)
Definition dotnetOutput : FS :=
  Scenario.fsOf [ "/b/bin/Debug/net8.0-android" ] []
                "/b/bin/Debug/net8.0-android"
                [ "com.demo.app-Signed.apk"; "com.demo.app.apk" ].

(** A Unity project. *)
Definition unityProject : FS :=
  Scenario.fsOf [ "/game/Assets"; "/game/ProjectSettings" ] [] "/game"
                [ "Assets"; "ProjectSettings" ].

(** A web project whose page asks for the position and calls [fetch]. *)
Definition geoPage : FS :=
  Scenario.fsOf [ "/app/index.html" ]
                [ ("/app/index.html",
                   "<script>navigator.geolocation.getCurrentPosition(show)</script>") ]
                "/app" [ "index.html"; "logo.png" ].

(** The six checked toolchain roots, and an empty project directory. *)
Definition toolchainOnly : FS :=
  Scenario.fsOf [ "/opt/bundled/jdk"; "/opt/bundled/android-sdk"; "/opt/bundled/ndk/r26";
                  "/opt/bundled/gradle-cache"; "/opt/bundled/dotnet"; "/opt/bundled/node" ]
                [] "/app" [].

(** The web project after a Gradle build that left the debug APK. *)
Definition webProjectBuilt : FS :=
  Scenario.fsOf
    [ "/opt/bundled/jdk"; "/opt/bundled/android-sdk"; "/opt/bundled/ndk/r26";
      "/opt/bundled/gradle-cache"; "/opt/bundled/dotnet"; "/opt/bundled/node";
      "/app/index.html";
      "/tmp/apk-builder/web/1/app/build/outputs/apk/debug/app-debug.apk" ]
    [] "/app" [ "index.html" ].

(** A manifest file that was cut off before its closing tag. *)
Definition truncatedManifest : FS :=
  Scenario.fsOf [ "/b/AndroidManifest.xml" ]
                [ ("/b/AndroidManifest.xml", "<manifest><application />") ]
                "/b" [ "AndroidManifest.xml" ].

(** A runtime over the filesystem [fs] in which every call succeeds and
    every child exits with code 0. *)
Definition over (fs : FS) : Runtime :=
  Scenario.runtime fs true (Scenario.exits 0) Scenario.webState.

(** A runtime whose world is the table of the environment variables. *)
Definition withEnv : Runtime :=
  {| World := gmap string string;
     rt_host := Scenario.posix;
     rt_bundled := "/opt/bundled";
     rt_fs := λ _, Scenario.webProject;
     rt_getenv := λ w name, w !! name;
     rt_setenv := λ name value w, <[name := value]> w;
     rt_now := λ w, (0, w);
     rt_dns_lookup := λ _ w, (Ret (), w);
     rt_spawn := λ _ _ _ _ w, (Ret (Scenario.exits 0), w);
     rt_execSync := λ _ w, (Ret (), w);
     rt_mkdirSync := λ _ w, (Ret (), w);
     rt_writeFileSync := λ _ _ w, (Ret (), w);
     rt_cpSync := λ _ _ w, (Ret (), w);
     rt_copyFileSync := λ _ _ w, (Ret (), w);
     rt_prepare := λ _ _ ps w, (Ret ps, w);
     rt_configure := λ _ _ ps w, (Ret ps, w) |}.

(** A manifest that declares the Bluetooth administration permission. *)
Definition bluetoothManifest : string :=
  "<manifest>" +:+ newline +:+
  "    " +:+ permTag "android.permission.BLUETOOTH_ADMIN" +:+ newline +:+
  "</manifest>".

End Sample.

(** ** Vocabulary of the further properties *)

(** A succeeding result carries an [apkPath] and no error. *)
Definition succeedsProperly (r : BuildResult) : Prop :=
  success r = true → ∃ p, apkPath r = Some p ∧ errors r = [].

(** The first Gradle invocation of [runGradle]: the [spawn] of the bundled
    executable, run in [buildDir] in the world [w] the DNS lookup left, with
    [--offline] unless the lookup succeeded. *)
Definition gradleProcess (R : Runtime) (task buildDir : string)
    (env : OfflineEnvironment) (online : bool) (w : World R)
  : Outcome ProcRun * World R :=
  rt_spawn R (gradleExec (rt_host R) env) (Some <$> gradleArgs task online)
           (Some buildDir)
           (gradleEnv env (path_join (rt_host R) [GRADLE_USER_HOME env])) w.

(** The arguments of the second Gradle invocation, made after the first
    [spawn] threw with connectivity present: those of the first, and
    [--offline] unless it is among them. *)
Definition retryArgs (task : string) : list string :=
  let args := gradleArgs task true in
  if argsInclude args "--offline" then args else args ++ ["--offline"].

(** The second Gradle invocation, in the world [w] the first one left. *)
Definition gradleRetry (R : Runtime) (task buildDir : string)
    (env : OfflineEnvironment) (w : World R) : Outcome ProcRun * World R :=
  rt_spawn R (gradleExec (rt_host R) env) (Some <$> retryArgs task)
           (Some buildDir)
           (gradleEnv env (path_join (rt_host R) [GRADLE_USER_HOME env])) w.

(** What [runGradle] makes of the result of [runCommand]. *)
Definition gradleReport (res : CommandResult) : GradleResult :=
  {| g_success := code res =? 0; g_output := stdout res +:+ stderr res |}.

(** What [runGradle] settles with after an invocation whose [spawn] did
    [spawned]. *)
Definition gradleSettles (spawned : Outcome ProcRun) : Outcome GradleResult :=
  match spawned with
  | Ret child => Ret (gradleReport (settle child))
  | Throw e => Throw e
  end.

(** The chunks a child writes; none when [spawn] threw. *)
Definition chunksOf (spawned : Outcome ProcRun) : list Chunk :=
  match spawned with
  | Ret child => pr_chunks child
  | Throw _ => []
  end.

(** The home directory [getDebugKeystore] resolves: [USERPROFILE], else
    [HOME], else the current directory; an empty variable counts as unset. *)
Definition homeDir (R : Runtime) (w : World R) : string :=
  orElse (rt_getenv R w "USERPROFILE") (orElse (rt_getenv R w "HOME") ".").

(** The debug keystore below a home directory, with the credentials of the
    Android tools. *)
Definition debugKeystore (h : Host) (home : string) : KeystoreInfo :=
  {| ks_path := Some (path_join h [path_join h [home; ".android"]; "debug.keystore"]);
     ks_password := Some "android";
     ks_alias := Some "androiddebugkey";
     ks_keyPassword := Some "android" |}.

(** The command line with which [createDebugKeystore] makes the debug
    keystore at [path]. *)
Definition keytoolCommand (h : Host) (env : OfflineEnvironment) (path : string)
  : string :=
  dquote +:+ path_join h [JAVA_HOME env; "bin"; "keytool"] +:+ dquote +:+ " " +:+
  Js.join " "
    [ "-genkeypair"; "-v"; "-keystore"; path; "-storepass"; "android";
      "-alias"; "androiddebugkey"; "-keypass"; "android"; "-keyalg"; "RSA";
      "-keysize"; "2048"; "-validity"; "10000";
      "-dname"; "CN=Android Debug,O=Android,C=US" ].

(** What [sign] does in debug mode for the APK [apkPath], the home
    directory being [home]: it creates the [.android] directory, makes the
    debug keystore with [keytool], aligns the APK, and spawns [apksigner]
    with the debug keystore on the aligned or on the original file. *)
Definition debugSignStep (R : Runtime) (home apkPath : string) (e : Event) : Prop :=
  let h := rt_host R in
  let env := getOfflineEnvironment h (rt_bundled R) in
  let debugDir := path_join h [home; ".android"] in
  e = EvMkdirSync debugDir
  ∨ e = EvExecSync (keytoolCommand h env (path_join h [debugDir; "debug.keystore"]))
  ∨ e = EvExecSync (zipalignCommand h env apkPath)
  ∨ ∃ inputApk,
      (inputApk = apkPath ∨ inputApk = Js.replace apkPath ".apk" "-aligned.apk")
      ∧ e = EvSpawn (apksigner R)
              (signArgs (debugKeystore h home)
                        (Js.replace apkPath ".apk" "-signed.apk") inputApk).

(** [name] is the last segment of [projectPath]: it holds no slash and no
    backslash, and it is the whole path or what follows a separator of it. *)
Definition isLastSegment (projectPath name : string) : Prop :=
  Forall (λ c, isPathSep c = false) (String.list_ascii_of_string name)
  ∧ (projectPath = name
     ∨ ∃ dir sep, isPathSep sep = true ∧ projectPath = dir +:+ String sep name).

(** The elements of a list in the order of their first occurrence, each
    once. *)
Fixpoint firstOccurrences (l : list string) : list string :=
  match l with
  | [] => []
  | x :: rest => x :: filter (λ y, y ≠ x) (firstOccurrences rest)
  end.

(** A process was spawned. *)
Definition isSpawn (e : Event) : bool :=
  match e with
  | EvSpawn _ _ => true
  | _ => false
  end.

(** A web API that requires the permission [x] occurs in the file [file] of
    the project, and the file can be read. *)
Definition usesApi (h : Host) (fs : FS) (projectPath file x : string) : Prop :=
  ∃ content api perms,
    readFileSync fs (path_join h [projectPath; file]) = Some content
    ∧ (api, perms) ∈ WEB_API_PERMISSIONS
    ∧ Js.includes content api = true
    ∧ x ∈ perms.

(** Whether the [.csproj] file [csproj] of the build directory is a MAUI
    project: its text mentions [Microsoft.Maui] or [UseMaui]; [None] when the
    file cannot be read. *)
Definition mauiMarked (h : Host) (fs : FS) (buildDir csproj : string) : option bool :=
  (λ content, Js.includes content "Microsoft.Maui" || Js.includes content "UseMaui")
  <$> readFileSync fs (path_join h [buildDir; csproj]).

(** The variables [applyEnvironment] assigns. *)
Definition appliedNames : list string :=
  [ "JAVA_HOME"; "ANDROID_HOME"; "ANDROID_SDK_ROOT"; "ANDROID_NDK_HOME";
    "GRADLE_USER_HOME"; "DOTNET_ROOT"; "npm_config_cache"; "PATH" ].

(** The directories [applyEnvironment] puts in front of [PATH]. *)
Definition toolDirs (h : Host) (env : OfflineEnvironment) : list string :=
  [ path_join h [JAVA_HOME env; "bin"];
    path_join h [ANDROID_HOME env; "platform-tools"];
    path_join h [ANDROID_HOME env; "cmdline-tools"; "latest"; "bin"];
    path_join h [ANDROID_HOME env; "build-tools"; "34.0.0"];
    path_join h [NODE_PATH env];
    path_join h [DOTNET_ROOT env] ].

(** [process.env] behaves as a table: a variable reads as what was last
    assigned to it, and assigning one variable leaves the others. *)
Definition envIsTable (R : Runtime) : Prop :=
  ∀ name value w name',
    rt_getenv R (rt_setenv R name value w) name'
    = if String.eqb name name' then Some value else rt_getenv R w name'.

(** What [detectProject] returns when no detector reports anything. *)
Definition unknownInfo (projectPath : string) : ProjectInfo :=
  {| pi_path := projectPath; pi_type := unknown; pi_confidence := 0;
     pi_detectedFiles := []; pi_suggestedName := extractProjectName projectPath |}.

(** The text of a chunk. *)
Definition chunkText (c : Chunk) : string :=
  match c with
  | Stdout text => text
  | Stderr text => text
  end.

(** * Properties *)

(** ** Strings *)

Lemma append_nil (b : string) : "" +:+ b = b.
Proof. reflexivity. Qed.

Lemma append_cons (c : ascii) (a b : string) : String c a +:+ b = String c (a +:+ b).
Proof. reflexivity. Qed.

Lemma prefix_app (a b : string) : String.prefix a (a +:+ b) = true.
Proof.
  induction a as [|c a IH].
  - rewrite append_nil. by destruct b.
  - rewrite append_cons. cbn [String.prefix].
    destruct (Ascii.ascii_dec c c); [exact IH | done].
Qed.

Lemma includes_prefix (s sub : string) :
  String.prefix sub s = true → Js.includes s sub = true.
Proof. intros H. destruct s; cbn [Js.includes]; rewrite H; done. Qed.

Lemma includes_app (a b c : string) : Js.includes (a +:+ b +:+ c) b = true.
Proof.
  induction a as [|x a IH].
  - rewrite append_nil. apply includes_prefix, prefix_app.
  - rewrite append_cons. cbn [Js.includes]. rewrite IH. apply orb_true_r.
Qed.

Lemma append_assoc (a b c : string) : (a +:+ b) +:+ c = a +:+ b +:+ c.
Proof. induction a; rewrite ?append_nil, ?append_cons; congruence. Qed.

Lemma append_empty_r (a : string) : a +:+ "" = a.
Proof. induction a; rewrite ?append_nil, ?append_cons; congruence. Qed.

(** Every element of a joined array occurs in the joined text. *)
Lemma join_elem (sep name : string) (l : list string) :
  name ∈ l → ∃ a c, Js.join sep l = a +:+ name +:+ c.
Proof.
  unfold Js.join. induction l as [|x l IH]; intros Hin.
  - by apply elem_of_nil in Hin.
  - apply elem_of_cons in Hin as [->|Hin].
    + destruct l as [|y l]; simpl.
      * exists "", "". by rewrite append_empty_r.
      * exists "", (sep +:+ String.concat sep (y :: l)). done.
    + destruct (IH Hin) as (a & c & E).
      destruct l as [|y l]; [by apply elem_of_nil in Hin|].
      exists (x +:+ sep +:+ a), c.
      change (String.concat sep (x :: y :: l))
        with (x +:+ sep +:+ String.concat sep (y :: l)).
      rewrite E. by rewrite !append_assoc.
Qed.

Lemma includes_join (pre sep name : string) (l : list string) :
  name ∈ l → Js.includes (pre +:+ Js.join sep l) name = true.
Proof.
  intros Hin. destruct (join_elem sep name l Hin) as (a & c & ->).
  rewrite <- append_assoc. apply includes_app.
Qed.

Lemma len_zero {A} (l : list A) : (Js.len l =? 0) = true ↔ l = [].
Proof.
  unfold Js.len. destruct l; simpl; split; done.
Qed.

(** ** Environment provider *)

Lemma missing_fold (fs : FS) (cs : list (string * string)) (acc : list string) :
  fold_left (λ missing check,
               if negb (existsSync fs check.2) then missing ++ [check.1] else missing)
            cs acc
  = acc ++ (filter (λ c, existsSync fs c.2 = false) cs).*1.
Proof.
  revert acc. induction cs as [|c cs IH]; intros acc; simpl.
  - by rewrite app_nil_r.
  - rewrite IH. rewrite filter_cons.
    destruct (existsSync fs c.2) eqn:E; simpl.
    + done.
    + by rewrite <- app_assoc.
Qed.

Lemma verifyEnvironment_missing (fs : FS) (env : OfflineEnvironment) :
  missing (verifyEnvironment fs env)
  = (filter (λ c, existsSync fs c.2 = false) (checks env)).*1.
Proof. unfold verifyEnvironment. cbn [missing]. exact (missing_fold fs (checks env) []). Qed.

Lemma verifyEnvironment_valid (fs : FS) (env : OfflineEnvironment) :
  valid (verifyEnvironment fs env) = true ↔ missing (verifyEnvironment fs env) = [].
Proof. unfold verifyEnvironment. cbn [missing valid]. apply len_zero. Qed.


(** C9, as amended.  [verifyEnvironment] reports [valid] exactly when its
    [missing] list is empty, and [missing] holds, in the order of the table,
    the names of those of the six checked roots (JDK, Android SDK, Android
    NDK, Gradle cache, Node.js, dotnet SDK) for which [existsSync] is false:
    an existence test and nothing more. *)
Theorem verifyEnvironment_six_roots (fs : FS) (env : OfflineEnvironment) :
  (valid (verifyEnvironment fs env) = true ↔ missing (verifyEnvironment fs env) = [])
  ∧ missing (verifyEnvironment fs env)
    = (filter (λ c, existsSync fs c.2 = false) (checks env)).*1
  ∧ (checks env).*2
    = [ JAVA_HOME env; ANDROID_HOME env; ANDROID_NDK_HOME env;
        GRADLE_USER_HOME env; NODE_PATH env; DOTNET_ROOT env ].
Proof.
  split; [apply verifyEnvironment_valid|].
  split; [apply verifyEnvironment_missing|done].
Qed.

Example verifyEnvironment_without_jdk_and_ndk :
  verifyEnvironment Scenario.noJdkNoNdk Scenario.env
  = {| valid := false; missing := ["JDK"; "Android NDK"] |}.
Proof. vm_compute. reflexivity. Qed.

(** C9, as stated, fails: the Gradle distribution [GRADLE_HOME] is a root of
    the [OfflineEnvironment] mapping, it does not exist, and the check still
    reports a valid environment with nothing missing. *)
Lemma verifyEnvironment_skips_GRADLE_HOME :
  GRADLE_HOME Scenario.env ∈ roots Scenario.env
  ∧ existsSync Scenario.noGradleHome (GRADLE_HOME Scenario.env) = false
  ∧ verifyEnvironment Scenario.noGradleHome Scenario.env
    = {| valid := true; missing := [] |}.
Proof. split; [|split]; [|vm_compute; reflexivity..]. vm_compute. set_solver. Qed.

(** ** Type resolver *)

Lemma runDetector_evidence (projectPath : string) (results : list DetectionResult)
    (d : Detector) :
  runDetector projectPath results d = Ret (results ++ evidence projectPath d).
Proof.
  unfold runDetector, evidence, try_catch, mbind, Outcome_bind, mret, Outcome_ret.
  destruct (d projectPath) as [[r|]|e]; rewrite ?app_nil_r; try done.
  destruct (0 <? dr_confidence r); by rewrite ?app_nil_r.
Qed.

Lemma runDetectors_survivors (projectPath : string) (ds : list Detector)
    (results : list DetectionResult) :
  runDetectors projectPath ds results = Ret (results ++ survivors projectPath ds).
Proof.
  revert results. induction ds as [|d ds IH]; intros results.
  - unfold survivors. simpl. by rewrite app_nil_r.
  - cbn [runDetectors]. rewrite runDetector_evidence.
    unfold mbind at 1, Outcome_bind. rewrite IH.
    unfold survivors. rewrite bind_cons, app_assoc. done.
Qed.

Lemma evidence_isolate (projectPath : string) (d : Detector) :
  evidence projectPath (isolate d) = evidence projectPath d.
Proof. unfold evidence, isolate, try_catch. by destruct (d projectPath) as [[r|]|e]. Qed.

Lemma survivors_isolate (projectPath : string) (ds : list Detector) :
  survivors projectPath (isolate <$> ds) = survivors projectPath ds.
Proof.
  unfold survivors. induction ds as [|d ds IH]; [done|].
  rewrite fmap_cons, !bind_cons, IH, evidence_isolate. done.
Qed.

Lemma survivors_elem (projectPath : string) (ds : list Detector) (r : DetectionResult) :
  r ∈ survivors projectPath ds ↔
  ∃ d, d ∈ ds ∧ d projectPath = Ret (Some r) ∧ 0 < dr_confidence r.
Proof.
  unfold survivors. rewrite list_elem_of_bind. split.
  - intros (d & Hr & Hd). exists d. split; [done|]. unfold evidence in Hr.
    destruct (d projectPath) as [[r'|]|e]; try by apply elem_of_nil in Hr.
    destruct (0 <? dr_confidence r') eqn:E; [|by apply elem_of_nil in Hr].
    apply list_elem_of_singleton in Hr as ->. split; [done|]. by apply Z.ltb_lt.
  - intros (d & Hd & E & Hpos). exists d. split; [|done].
    unfold evidence. rewrite E. apply Z.ltb_lt in Hpos. rewrite Hpos.
    by apply list_elem_of_singleton.
Qed.

(** The head of the stably sorted results is the first one of maximal
    confidence. *)
Lemma insertByConfidence_head (x : DetectionResult) (l : list DetectionResult) :
  head (insertByConfidence x l)
  = match head l with
    | Some y => if dr_confidence y <=? dr_confidence x then Some x else Some y
    | None => Some x
    end.
Proof. destruct l as [|y l]; simpl; [done|]. by destruct (_ <=? _). Qed.

Lemma sortByConfidence_head (l : list DetectionResult) :
  match head (sortByConfidence l) with
  | None => l = []
  | Some best =>
      ∃ before after,
        l = before ++ best :: after
        ∧ Forall (λ r, dr_confidence r < dr_confidence best) before
        ∧ Forall (λ r, dr_confidence r ≤ dr_confidence best) after
  end.
Proof.
  induction l as [|x l IH]; [done|].
  unfold sortByConfidence in *. cbn [foldr]. rewrite insertByConfidence_head.
  destruct (head (foldr insertByConfidence [] l)) as [y|].
  - destruct IH as (before & after & -> & Hb & Ha).
    destruct (dr_confidence y <=? dr_confidence x) eqn:E.
    + apply Z.leb_le in E. exists [], (before ++ y :: after). split; [done|].
      split; [constructor|]. apply Forall_app. split.
      * eapply Forall_impl; [exact Hb|]. simpl. lia.
      * constructor; [done|]. eapply Forall_impl; [exact Ha|]. simpl. lia.
    + apply Z.leb_gt in E. exists (x :: before), after. split; [done|].
      split; [|done]. by constructor.
  - subst l. exists [], []. by repeat split.
Qed.

Lemma detectProjectWith_resolves (ds : list Detector) (projectPath : string) :
  ∃ info, detectProjectWith ds projectPath = Ret info
          ∧ resolves (survivors projectPath ds) projectPath info.
Proof.
  unfold detectProjectWith. rewrite runDetectors_survivors. rewrite app_nil_l.
  unfold mbind, Outcome_bind.
  pose proof (sortByConfidence_head (survivors projectPath ds)) as H.
  destruct (sortByConfidence (survivors projectPath ds)) as [|best rest]; simpl in H.
  - eexists. split; [done|]. unfold resolves. simpl. by repeat split; try left.
  - destruct H as (before & after & E & Hb & Ha).
    eexists. split; [done|]. unfold resolves. simpl. do 2 (split; [done|]).
    right. exists before, best, after. by repeat split.
Qed.

(** C1.  Whatever the detectors do, [detectProject] returns a [ProjectInfo]
    and never throws; a detector that throws counts as one that returned
    [null]; and the result is the classification determined by the results
    of positive confidence of the detectors that did return one: [unknown]
    without any, otherwise the first registered among those of maximal
    confidence. *)
Theorem detectProject_fault_isolation (ds : list Detector) (projectPath : string) :
  ∃ info,
    detectProjectWith ds projectPath = Ret info
    ∧ detectProjectWith (isolate <$> ds) projectPath = Ret info
    ∧ resolves (survivors projectPath ds) projectPath info
    ∧ ∀ r, r ∈ survivors projectPath ds ↔
           ∃ d, d ∈ ds ∧ d projectPath = Ret (Some r) ∧ 0 < dr_confidence r.
Proof.
  destruct (detectProjectWith_resolves ds projectPath) as (info & E & Hres).
  exists info. split; [done|]. split; [|split; [done|]].
  - unfold detectProjectWith in *.
    rewrite runDetectors_survivors, survivors_isolate.
    by rewrite runDetectors_survivors in E.
  - intros r. apply survivors_elem.
Qed.

(** ** Detectors *)

(** The last step of every detector: [null] on a zero confidence, the
    result cut at 100 otherwise. *)
Lemma capped_finish (t : ProjectType) (c : Z) (files : list string) :
  0 ≤ c →
  capped t (if c =? 0 then None
            else Some {| dr_type := t; dr_confidence := Js.Math_min c 100;
                         dr_detectedFiles := files |}).
Proof.
  intros Hc. destruct (Z.eqb_spec c 0); [by intros x|].
  intros x [= <-]. simpl. unfold Js.Math_min. split; [done|lia].
Qed.

Lemma capped_none (t : ProjectType) : capped t None.
Proof. by intros x. Qed.

Lemma fold_left_ge {A} (f : Z → A → Z) (l : list A) (c : Z) :
  (∀ c x, c ≤ f c x) → c ≤ fold_left f l c.
Proof.
  intros Hf. revert c. induction l as [|x l IH]; intros c; simpl; [lia|].
  etrans; [apply (Hf c x)|apply IH].
Qed.

Lemma firstExisting_ge (fs : FS) (paths : list string) (w c : Z) (files : list string) :
  0 ≤ w → c ≤ (firstExisting fs paths w c files).1.
Proof. intros Hw. unfold firstExisting. destruct (find _ _); simpl; lia. Qed.

Lemma ifExists_ge (fs : FS) (p : string) (w : Z) (acc : Z * list string) :
  0 ≤ w → acc.1 ≤ (ifExists fs p w acc).1.
Proof. intros Hw. unfold ifExists. destruct (existsSync fs p); simpl; lia. Qed.

Lemma webPackageBlock_ge (h : Host) (fs : FS) (p : string) (c : Z) (files : list string) :
  c ≤ (webPackageBlock h fs p c files).2.1.
Proof. unfold webPackageBlock. repeat case_match; simpl; lia. Qed.

(** The confidence accumulated so far is never negative. *)
Ltac nonneg :=
  unfold firstExisting, ifExists, Js.Math_min, Js.len in *;
  repeat case_match; intros; simplify_eq; simpl in *; lia.

(** A detector, one accumulation after the other: an early [null], the
    next pair of accumulators (whose confidence is not negative), or the
    final cut. *)
Ltac capped_go :=
  repeat
    (cbn beta iota zeta;
     match goal with
     | |- capped _ None => apply capped_none
     | |- capped _ (if _ =? 0 then None else Some _) =>
         apply capped_finish; nonneg
     | |- capped _ (match ?e with _ => _ end) =>
         lazymatch type of e with
         | prod _ _ =>
             let c := fresh "c" in
             let f := fresh "f" in
             let H := fresh "H" in
             destruct e as [c f] eqn:H;
             assert (0 ≤ c) by (revert H; nonneg);
             clear H
         | _ => destruct e
         end
     end).

Lemma webTail_capped (h : Host) (fs : FS) (p : string) (c : Z) (files : list string) :
  0 ≤ c → capped web (webTail h fs p c files).
Proof.
  intros Hc. unfold webTail. apply capped_finish.
  etrans; [|apply fold_left_ge; intros; case_match; lia].
  unfold Js.len. repeat case_match; lia.
Qed.

Lemma detectWebProject_capped (h : Host) (fs : FS) (p : string) :
  capped web (detectWebProject h fs p).
Proof.
  unfold detectWebProject.
  destruct (find _ _); (destruct (existsSync fs _); [|by apply webTail_capped]);
    match goal with
    | |- context [webPackageBlock h fs ?q ?c ?f] =>
        pose proof (webPackageBlock_ge h fs q c f) as Hge;
        destruct (webPackageBlock h fs q c f) as [[] [c' f']]
    end; simpl in Hge;
    first [apply capped_none | apply webTail_capped; lia].
Qed.

Lemma detectNdkProject_capped (h : Host) (fs : FS) (p : string) :
  capped ndk (detectNdkProject h fs p).
Proof. unfold detectNdkProject. capped_go. Qed.

Lemma scoreCsproj_ge (h : Host) (fs : FS) (p : string) (acc : Z * list string)
    (file : string) :
  acc.1 ≤ (scoreCsproj h fs p acc file).1.
Proof. unfold scoreCsproj. destruct acc as [c f]. repeat case_match; simpl; lia. Qed.

Lemma scoreCsproj_fold_ge (h : Host) (fs : FS) (p : string) (l : list string)
    (acc : Z * list string) :
  acc.1 ≤ (fold_left (scoreCsproj h fs p) l acc).1.
Proof.
  revert acc. induction l as [|x l IH]; intros acc; simpl; [lia|].
  etrans; [apply (scoreCsproj_ge h fs p acc x)|apply IH].
Qed.

Lemma detectMauiProject_capped (h : Host) (fs : FS) (p : string) :
  capped maui (detectMauiProject h fs p).
Proof.
  unfold detectMauiProject.
  destruct (readdirSyncRec fs p) as [files|]; [|apply capped_none].
  destruct (_ =? 0); [apply capped_none|].
  pose proof (scoreCsproj_fold_ge h fs p (withExt [".csproj"] files) (0, [])) as Hfold.
  destruct (fold_left _ _ _) as [c f]. simpl in Hfold.
  capped_go.
Qed.

Lemma rnPackageBlock_ge (h : Host) (fs : FS) (p : string) (c : Z) (files : list string) :
  rnPackageBlock h fs p = Some (c, files) → 0 ≤ c.
Proof.
  unfold rnPackageBlock, Js.Math_min, Js.len.
  repeat case_match; intros; simplify_eq; lia.
Qed.

Lemma detectReactNativeProject_capped (h : Host) (fs : FS) (p : string) :
  capped reactnative (detectReactNativeProject h fs p).
Proof.
  unfold detectReactNativeProject.
  destruct (negb _); [apply capped_none|].
  destruct (rnPackageBlock h fs _) as [[c files]|] eqn:E; [|apply capped_none].
  apply rnPackageBlock_ge in E.
  destruct (Z.eqb_spec c 0); [apply capped_none|].
  intros x [= <-]. cbn [dr_type dr_confidence]. split; [done|].
  match goal with |- context [Js.Math_min (?a).1 100] => assert (c ≤ a.1) as Hacc end.
  { repeat (etrans; [|apply ifExists_ge; lia]). simpl. repeat case_match; lia. }
  unfold Js.Math_min. lia.
Qed.

Lemma detectUnityProject_capped (h : Host) (fs : FS) (p : string) :
  capped unity (detectUnityProject h fs p).
Proof. unfold detectUnityProject. capped_go. Qed.

(** Every registered detector returns [null] or a result of a type other
    than [unknown] with a confidence between 1 and 100. *)
Lemma detectors_capped (h : Host) (fs : FS) (p : string) (d : Detector)
    (r : DetectionResult) :
  d ∈ detectors h fs → d p = Ret (Some r) →
  dr_type r ≠ unknown ∧ 0 < dr_confidence r ≤ 100.
Proof.
  unfold detectors. rewrite !fmap_cons, fmap_nil. intros Hd E.
  repeat (apply elem_of_cons in Hd as [->|Hd]); [..|by apply elem_of_nil in Hd];
    injection E as E.
  - destruct (detectWebProject_capped h fs p r E) as [-> ?]. done.
  - destruct (detectNdkProject_capped h fs p r E) as [-> ?]. done.
  - destruct (detectMauiProject_capped h fs p r E) as [-> ?]. done.
  - destruct (detectReactNativeProject_capped h fs p r E) as [-> ?]. done.
  - destruct (detectUnityProject_capped h fs p r E) as [-> ?]. done.
Qed.

(** C3.  Detection always produces a [ProjectInfo]; its confidence is an
    integer between 0 and 100, and it is 0 exactly when the type is
    [unknown]. *)
Theorem detectProject_confidence (h : Host) (fs : FS) (projectPath : string) :
  ∃ info,
    detectProject h fs projectPath = Ret info
    ∧ 0 ≤ pi_confidence info ≤ 100
    ∧ (pi_confidence info = 0 ↔ pi_type info = unknown).
Proof.
  unfold detectProject.
  destruct (detectProjectWith_resolves (detectors h fs) projectPath)
    as (info & E & _ & _ & Hres).
  exists info. split; [done|].
  destruct Hres as [(_ & -> & -> & _)|(before & best & after & Hs & _ & _ & -> & -> & _)].
  - done.
  - assert (best ∈ survivors projectPath (detectors h fs)) as Hin.
    { rewrite Hs. apply elem_of_app. right. apply elem_of_cons. by left. }
    apply survivors_elem in Hin as (d & Hd & Ed & Hpos).
    destruct (detectors_capped h fs projectPath d best Hd Ed) as [Hty Hle].
    split; [lia|]. split; [lia|done].
Qed.

(** Detection on concrete directories. *)
Example detect_empty_directory :
  detectProject Scenario.posix Scenario.emptyDir "/app"
  = Ret {| pi_path := "/app"; pi_type := unknown; pi_confidence := 0;
           pi_detectedFiles := []; pi_suggestedName := "app" |}.
Proof. vm_compute. reflexivity. Qed.

Example detect_cmake_only :
  detectNdkProject Scenario.posix Scenario.cmakeOnly "/app"
  = Some {| dr_type := ndk; dr_confidence := 35;
            dr_detectedFiles := ["/app/CMakeLists.txt"] |}.
Proof. vm_compute. reflexivity. Qed.

Example detect_cmake_with_sources :
  detectNdkProject Scenario.posix Scenario.cmakeWithSources "/app"
  = Some {| dr_type := ndk; dr_confidence := 50;
            dr_detectedFiles := [ "/app/CMakeLists.txt"; "/app/a.cpp"; "/app/b.cpp";
                                  "/app/src/c.cpp" ] |}.
Proof. vm_compute. reflexivity. Qed.

Example detect_expo_application :
  detectProject Scenario.posix Scenario.expoPlain "/app"
  = Ret {| pi_path := "/app"; pi_type := reactnative; pi_confidence := 50;
           pi_detectedFiles := ["/app/package.json"; "/app/app.json"];
           pi_suggestedName := "app" |}.
Proof. vm_compute. reflexivity. Qed.

Example extractProjectName_windows_path :
  extractProjectName "C:\Users\me\my-app 2" = "myapp2".
Proof. vm_compute. reflexivity. Qed.

(** ** The exclusion between the Web and the React Native detectors *)

(** A [package.json] on which one dependency test succeeds is not [null]:
    no dependency test on it throws. *)
Lemma hasDep_total (pkg : json) (a b : string) (x : bool) :
  hasDep pkg a = Ret x → ∃ y, hasDep pkg b = Ret y.
Proof.
  unfold hasDep, Json.getField. destruct pkg; try done; intros _;
    repeat case_match; eauto.
Qed.

Lemma getField_total (pkg : json) (a k : string) (x : bool) :
  hasDep pkg a = Ret x → ∃ v, Json.getField pkg k = Ret v.
Proof. unfold hasDep, Json.getField. destruct pkg; try done; eauto. Qed.

Lemma readJson_lists (h : Host) (fs : FS) (p content : string) (pkg : json) :
  readFileSync fs p = Some content → JSON_parse h content = Some pkg →
  readJson h fs p = Ret pkg.
Proof. intros E1 E2. unfold readJson. by rewrite E1, E2. Qed.

Lemma detectWebProject_yields (h : Host) (fs : FS) (projectPath : string) :
  listsReactNative h fs projectPath → detectWebProject h fs projectPath = None.
Proof.
  intros (Hex & content & pkg & Hread & Hparse & Hdep).
  unfold detectWebProject. rewrite Hex.
  destruct (find (existsSync fs) _);
    unfold webPackageBlock; rewrite (readJson_lists _ _ _ _ _ Hread Hparse);
    (destruct Hdep as [Hrn|Hexpo];
     [ by rewrite Hrn
     | destruct (hasDep_total pkg "expo" "react-native" true Hexpo) as [[] ->];
       [done | by rewrite Hexpo] ]).
Qed.

Lemma rnPackageBlock_lists (h : Host) (fs : FS) (p content : string) (pkg : json) :
  readFileSync fs p = Some content → JSON_parse h content = Some pkg →
  hasDep pkg "react-native" = Ret true ∨ hasDep pkg "expo" = Ret true →
  ∃ c files, rnPackageBlock h fs p = Some (c, files) ∧ 40 ≤ c.
Proof.
  intros Hread Hparse Hdep. unfold rnPackageBlock.
  rewrite (readJson_lists _ _ _ _ _ Hread Hparse).
  assert (∃ rn ex, hasDep pkg "react-native" = Ret rn ∧ hasDep pkg "expo" = Ret ex
                   ∧ (rn = true ∨ ex = true)) as (rn & ex & -> & -> & Hor).
  { destruct Hdep as [H|H].
    - destruct (hasDep_total pkg _ "expo" _ H) as [ex ->]. eauto 6.
    - destruct (hasDep_total pkg _ "react-native" _ H) as [rn ->]. eauto 6. }
  assert (∃ d, Json.getField pkg "dependencies" = Ret d) as [d ->].
  { destruct Hdep as [H|H]; eapply getField_total; exact H. }
  assert (∃ dd, Json.getField pkg "devDependencies" = Ret dd) as [dd ->].
  { destruct Hdep as [H|H]; eapply getField_total; exact H. }
  pose proof (Nat2Z.is_nonneg (length (rnPackages d dd))) as Hlen.
  unfold Js.Math_min, Js.len.
  destruct rn, ex; try (by destruct Hor); simpl;
    destruct (0 <? _); eexists _, _; (split; [done|lia]).
Qed.

Lemma detectReactNativeProject_lists (h : Host) (fs : FS) (projectPath : string) :
  listsReactNative h fs projectPath →
  ∃ rn, detectReactNativeProject h fs projectPath = Some rn
        ∧ dr_type rn = reactnative ∧ 40 ≤ dr_confidence rn ≤ 100.
Proof.
  intros (Hex & content & pkg & Hread & Hparse & Hdep).
  unfold detectReactNativeProject. rewrite Hex. cbn [negb].
  destruct (rnPackageBlock_lists h fs _ content pkg Hread Hparse Hdep)
    as (c & files & -> & Hc).
  destruct (c =? 0) eqn:E; [apply Z.eqb_eq in E; lia|].
  eexists. split; [done|]. cbn [dr_type dr_confidence]. split; [done|].
  match goal with |- context [Js.Math_min (?a).1 100] => assert (40 ≤ a.1) as Hacc end.
  { repeat (etrans; [|apply ifExists_ge; lia]). simpl. repeat case_match; lia. }
  unfold Js.Math_min. lia.
Qed.

(** C2, as amended.  When the [package.json] lists [react-native] or [expo],
    the Web detector returns [null] and the React Native detector returns a
    candidate of confidence at least 40, so the project never resolves to the
    Web type (nor to [unknown]): it resolves to the candidate of highest
    confidence among the NDK, MAUI, React Native and Unity detectors, which
    is React Native whenever NDK and MAUI report less and Unity reports no
    more. *)
Theorem web_yields_to_react_native (h : Host) (fs : FS) (projectPath : string) :
  listsReactNative h fs projectPath →
  detectWebProject h fs projectPath = None
  ∧ ∃ rn info,
      detectReactNativeProject h fs projectPath = Some rn
      ∧ dr_type rn = reactnative
      ∧ 40 ≤ dr_confidence rn
      ∧ detectProject h fs projectPath = Ret info
      ∧ pi_type info ≠ web
      ∧ pi_type info ≠ unknown
      ∧ dr_confidence rn ≤ pi_confidence info
      ∧ (confidenceOf (detectNdkProject h fs projectPath) < dr_confidence rn →
         confidenceOf (detectMauiProject h fs projectPath) < dr_confidence rn →
         confidenceOf (detectUnityProject h fs projectPath) ≤ dr_confidence rn →
         pi_type info = reactnative).
Proof.
  intros Hl. pose proof (detectWebProject_yields h fs projectPath Hl) as Hweb.
  destruct (detectReactNativeProject_lists h fs projectPath Hl) as (rn & Hrn & Hty & Hc).
  split; [done|]. exists rn.
  pose proof (detectNdkProject_capped h fs projectPath) as Hn.
  pose proof (detectMauiProject_capped h fs projectPath) as Hm.
  pose proof (detectUnityProject_capped h fs projectPath) as Hu.
  unfold detectProject, detectProjectWith, detectors, confidenceOf.
  cbn [fmap list_fmap runDetectors].
  unfold runDetector. cbn beta.
  rewrite Hweb, Hrn.
  destruct (detectNdkProject h fs projectPath) as [n|];
    [destruct (Hn n eq_refl) as [Hnt _]|];
  (destruct (detectMauiProject h fs projectPath) as [m|];
    [destruct (Hm m eq_refl) as [Hmt _]|]);
  (destruct (detectUnityProject h fs projectPath) as [u|];
    [destruct (Hu u eq_refl) as [Hut _]|]);
  clear Hn Hm Hu;
  unfold runDetector, try_catch, mbind, Outcome_bind, mret, Outcome_ret;
  cbn [from_option];
  repeat match goal with
         | |- context [0 <? ?x] => destruct (Z.ltb_spec 0 x)
         end;
  cbn [app sortByConfidence foldr insertByConfidence];
  repeat (match goal with
          | |- context [?x <=? ?y] => destruct (Z.leb_spec x y)
          end; cbn [insertByConfidence]);
  try lia;
  (eexists; do 3 (split; [first [done|lia]|]); split; [reflexivity|]);
  cbn [pi_type pi_confidence];
  (split; [congruence|]); (split; [congruence|]); (split; [lia|]);
  intros; first [done | lia].
Qed.

(** The claim C2 as it is stated fails: this Expo application has an
    [index.html] and lists [expo], the Web detector yields, and the project
    still does not resolve to React Native, because its CMake and ndk-build
    files give the NDK detector the higher confidence. *)
Lemma expo_with_native_resolves_to_ndk :
  listsReactNative Scenario.posix Scenario.expoWithNative "/app"
  ∧ existsSync Scenario.expoWithNative
               (path_join Scenario.posix ["/app"; "index.html"]) = true
  ∧ detectWebProject Scenario.posix Scenario.expoWithNative "/app" = None
  ∧ confidenceOf (detectReactNativeProject Scenario.posix Scenario.expoWithNative "/app") = 40
  ∧ detectProject Scenario.posix Scenario.expoWithNative "/app"
    = Ret {| pi_path := "/app";
             pi_type := ndk;
             pi_confidence := 65;
             pi_detectedFiles := ["/app/CMakeLists.txt"; "/app/Android.mk"];
             pi_suggestedName := "app" |}.
Proof.
  split.
  { split; [vm_compute; reflexivity|].
    exists Scenario.expoPackageJson,
           (JObj [("dependencies", JObj [("expo", JStr "~50.0.0")])]).
    split; [vm_compute; reflexivity|]. split; [vm_compute; reflexivity|].
    right. vm_compute. reflexivity. }
  repeat split; vm_compute; reflexivity.
Qed.

(** The amended C2 on a plain Expo application with an [index.html]. *)
Lemma web_yields_to_react_native_witness :
  detectWebProject Scenario.posix Scenario.expoPlain "/app" = None
  ∧ ∃ rn info,
      detectReactNativeProject Scenario.posix Scenario.expoPlain "/app" = Some rn
      ∧ dr_type rn = reactnative
      ∧ 40 ≤ dr_confidence rn
      ∧ detectProject Scenario.posix Scenario.expoPlain "/app" = Ret info
      ∧ pi_type info ≠ web
      ∧ pi_type info ≠ unknown
      ∧ dr_confidence rn ≤ pi_confidence info
      ∧ (confidenceOf (detectNdkProject Scenario.posix Scenario.expoPlain "/app")
           < dr_confidence rn →
         confidenceOf (detectMauiProject Scenario.posix Scenario.expoPlain "/app")
           < dr_confidence rn →
         confidenceOf (detectUnityProject Scenario.posix Scenario.expoPlain "/app")
           ≤ dr_confidence rn →
         pi_type info = reactnative).
Proof.
  apply (web_yields_to_react_native Scenario.posix Scenario.expoPlain "/app").
  split; [vm_compute; reflexivity|].
  exists Scenario.expoPackageJson,
         (JObj [("dependencies", JObj [("expo", JStr "~50.0.0")])]).
  split; [vm_compute; reflexivity|]. split; [vm_compute; reflexivity|].
  right. vm_compute. reflexivity.
Defined.

(** ** Reasoning about effectful code *)

Section Effects_lemmas.

Context {R : Runtime}.

Lemma bind_inv {A B} (m : M R A) (f : A → M R B) s r s' :
  (m ≫= f) s = (r, s') →
  (∃ a s1, m s = (Ret a, s1) ∧ f a s1 = (r, s'))
  ∨ (∃ e, m s = (Throw e, s') ∧ r = Throw e).
Proof.
  unfold mbind, M_bind. destruct (m s) as [[a|e] s1]; intros H.
  - left. eauto.
  - right. injection H as <- <-. eauto.
Qed.

Lemma try_inv {A} (body : M R A) (handler : string → M R A) s r s' :
  try_catchM body handler s = (r, s') →
  (∃ a, body s = (Ret a, s') ∧ r = Ret a)
  ∨ (∃ e s1, body s = (Throw e, s1) ∧ handler e s1 = (r, s')).
Proof.
  unfold try_catchM. destruct (body s) as [[a|e] s1]; intros H.
  - left. injection H as <- <-. eauto.
  - right. eauto.
Qed.

Lemma mret_inv {A} (a : A) s r s' :
  (mret a : M R A) s = (r, s') → r = Ret a ∧ s' = s.
Proof. unfold mret, M_ret. by intros [= <- <-]. Qed.

(** *** Events *)

Section Emits.

Context (P : Event → Prop).

Lemma emits_mret {A} (a : A) : emits P (mret a : M R A).
Proof. intros s r s' [-> ->]%mret_inv. by exists []. Qed.

Lemma emits_throw {A} (e : string) : emits P (throw e : M R A).
Proof. intros s r s' [= <- <-]. by exists []. Qed.

Lemma emits_bind {A B} (m : M R A) (f : A → M R B) :
  emits P m → (∀ a, emits P (f a)) → emits P (m ≫= f).
Proof.
  intros Hm Hf s r s' [(a & s1 & E1 & E2)|(e & E1 & ->)]%bind_inv.
  - destruct (Hm _ _ _ E1) as (evs1 & T1 & F1).
    destruct (Hf a _ _ _ E2) as (evs2 & T2 & F2).
    exists (evs2 ++ evs1). rewrite T2, T1, app_assoc. split; [done|].
    by apply Forall_app.
  - exact (Hm _ _ _ E1).
Qed.

Lemma emits_try_catchM {A} (body : M R A) (handler : string → M R A) :
  emits P body → (∀ e, emits P (handler e)) → emits P (try_catchM body handler).
Proof.
  intros Hb Hh s r s' [(a & E1 & ->)|(e & s1 & E1 & E2)]%try_inv.
  - exact (Hb _ _ _ E1).
  - destruct (Hb _ _ _ E1) as (evs1 & T1 & F1).
    destruct (Hh e _ _ _ E2) as (evs2 & T2 & F2).
    exists (evs2 ++ evs1). rewrite T2, T1, app_assoc. split; [done|].
    by apply Forall_app.
Qed.

Lemma emits_record (e : Event) : P e → emits P (record e : M R unit).
Proof. intros He s r s' [= <- <-]. exists [e]. split; [done|]. by constructor. Qed.

Lemma emits_call {A} (f : World R → Outcome A * World R) : emits P (call f).
Proof.
  intros s r s'. unfold call. destruct (f (world s)) as [r0 w]. intros [= <- <-].
  by exists [].
Qed.

Lemma emits_call_total {A} (f : World R → A * World R) : emits P (call_total f).
Proof.
  intros s r s'. unfold call_total. destruct (f (world s)) as [a w]. intros [= <- <-].
  by exists [].
Qed.

Lemma emits_peek {A} (f : World R → A) : emits P (peek f).
Proof. intros s r s' [= <- <-]. by exists []. Qed.

Lemma emits_readdirSyncM (p : string) : emits P (readdirSyncM p : M R _).
Proof.
  intros s r s'. unfold readdirSyncM.
  destruct (readdirSync _ _); intros [= <- <-]; by exists [].
Qed.

End Emits.

(** *** Returned values *)

Lemma returns_mret {A} (Q : A → Prop) (a : A) : Q a → returns Q (mret a : M R A).
Proof. intros Ha s x s' [[= <-] _]%mret_inv. done. Qed.

Lemma returns_throw {A} (Q : A → Prop) (e : string) : returns Q (throw e : M R A).
Proof. intros s x s' [=]. Qed.

Lemma returns_bind {A B} (Q : B → Prop) (m : M R A) (f : A → M R B) :
  (∀ a, returns Q (f a)) → returns Q (m ≫= f).
Proof.
  intros Hf s x s' [(a & s1 & E1 & E2)|(e & E1 & [=])]%bind_inv.
  exact (Hf a _ _ _ E2).
Qed.

Lemma returns_try_catchM {A} (Q : A → Prop) (body : M R A) (handler : string → M R A) :
  returns Q body → (∀ e, returns Q (handler e)) → returns Q (try_catchM body handler).
Proof.
  intros Hb Hh s x s' [(a & E1 & [= <-])|(e & s1 & E1 & E2)]%try_inv.
  - exact (Hb _ _ _ E1).
  - exact (Hh e _ _ _ E2).
Qed.

End Effects_lemmas.

(** One step of a proof that a computation emits only events of a class
    [P] that contains the external ones (hypothesis [HP] of the context). *)
Ltac emits_step :=
  first
    [ assumption
    | apply emits_mret
    | apply emits_throw
    | apply emits_call
    | apply emits_call_total
    | apply emits_peek
    | apply emits_readdirSyncM
    | apply emits_record; solve [auto]
    | match goal with
      | |- emits _ (if ?b then _ else _) => destruct b
      | |- emits _ (match ?x with _ => _ end) => destruct x
      | |- emits _ (let '(_, _) := ?x in _) => destruct x
      end
    | apply emits_try_catchM; [|intros ?]
    | apply emits_bind; [|intros ?] ].

Ltac returns_step :=
  first
    [ assumption
    | apply returns_throw
    | match goal with
      | |- returns _ (if ?b then _ else _) => destruct b
      | |- returns _ (match ?x with _ => _ end) => destruct x
      | |- returns _ (let '(_, _) := ?x in _) => destruct x
      end
    | apply returns_try_catchM; [|intros ?]
    | apply returns_bind; intros ? ].

Section Pipeline_lemmas.

Context {R : Runtime}.
Context (P : Event → Prop) (HP : ∀ e, external e = true → P e).

Lemma emits_onData (chunks : list Chunk) (out err : string) :
  emits P (onData (R:=R) chunks out err).
Proof.
  revert out err. induction chunks as [|[text|text] chunks IH]; intros out err;
    cbn [onData]; repeat emits_step; apply IH.
Qed.

Lemma emits_runCommand (command : string) (args : list string) (cwd : string)
    (env : list (string * string)) :
  emits P (runCommand (R:=R) command args cwd env).
Proof.
  unfold runCommand. apply emits_bind; [repeat emits_step|intros proc].
  apply emits_bind; [apply emits_onData|intros [out err]].
  repeat emits_step.
Qed.

Lemma emits_runGradle (task buildDir : string) (env : OfflineEnvironment) :
  emits P (runGradle (R:=R) task buildDir env).
Proof.
  unfold runGradle.
  apply emits_bind; [repeat emits_step|intros online].
  apply emits_try_catchM; [|intros e; destruct online].
  - apply emits_bind; [apply emits_runCommand|intros ?]. apply emits_mret.
  - apply emits_bind; [apply emits_runCommand|intros ?]. apply emits_mret.
  - apply emits_throw.
Qed.

Lemma emits_copyGradleWrapper (targetDir : string) (env : OfflineEnvironment) :
  emits P (copyGradleWrapper (R:=R) targetDir env).
Proof. unfold copyGradleWrapper, when. repeat emits_step. Qed.

Lemma emits_generateLocalProperties (sdk ndk out : string) :
  emits P (generateLocalProperties (R:=R) sdk ndk out).
Proof. unfold generateLocalProperties. repeat emits_step. Qed.

Lemma emits_findGeneratedApk (dirs : list string) :
  emits P (findGeneratedApk (R:=R) dirs).
Proof.
  induction dirs as [|dir dirs IH]; cbn [findGeneratedApk]; repeat emits_step.
Qed.

Lemma emits_expoPrebuild (ps : PipeState) (env : OfflineEnvironment) :
  emits P (expoPrebuild (R:=R) ps env).
Proof.
  unfold expoPrebuild. destruct (_ && _); [|apply emits_mret].
  apply emits_bind; [repeat emits_step|intros PATH].
  apply emits_bind; [apply emits_runCommand|intros ?]. repeat emits_step.
Qed.

Create HintDb effects.
#[local] Hint Resolve emits_runCommand emits_runGradle emits_copyGradleWrapper
  emits_generateLocalProperties emits_findGeneratedApk emits_expoPrebuild
  emits_onData : effects.

(** A [build] body in progress: library calls first, then the generic
    steps. *)
Ltac build_emits :=
  repeat first [ solve [auto with effects] | emits_step ].

Lemma emits_WebPipeline_build (ps : PipeState) (env : OfflineEnvironment) :
  emits P (WebPipeline_build (R:=R) ps env).
Proof. unfold WebPipeline_build. build_emits. Qed.

Lemma emits_NdkPipeline_build (ps : PipeState) (env : OfflineEnvironment) :
  emits P (NdkPipeline_build (R:=R) ps env).
Proof. unfold NdkPipeline_build. build_emits. Qed.

Lemma emits_ReactNativePipeline_build (ps : PipeState) (env : OfflineEnvironment) :
  emits P (ReactNativePipeline_build (R:=R) ps env).
Proof. unfold ReactNativePipeline_build. build_emits. Qed.

Lemma emits_MauiPipeline_build (ps : PipeState) (env : OfflineEnvironment) :
  emits P (MauiPipeline_build (R:=R) ps env).
Proof. unfold MauiPipeline_build. build_emits. Qed.

Lemma emits_UnityPipeline_build (ps : PipeState) (env : OfflineEnvironment) :
  emits P (UnityPipeline_build (R:=R) ps env).
Proof. unfold UnityPipeline_build. build_emits. Qed.

End Pipeline_lemmas.

(** ** The [build] methods of the pipelines *)

Section Builds.

Context {R : Runtime}.

Lemma returns_bind_with {A B} (Q1 : A → Prop) (Q : B → Prop)
    (m : M R A) (f : A → M R B) :
  returns Q1 m → (∀ a, Q1 a → returns Q (f a)) → returns Q (m ≫= f).
Proof.
  intros Hm Hf s x s' [(a & s1 & E1 & E2)|(e & E1 & [=])]%bind_inv.
  exact (Hf a (Hm _ _ _ E1) _ _ _ E2).
Qed.

Lemma failsProperly_failed (e : string) (es ws : list string) (t : Z) :
  failsProperly (failed (e :: es) ws t).
Proof. intros _. by split. Qed.

Lemma failsProperly_built (p : string) : failsProperly (built p).
Proof. by intros [=]. Qed.

(** Every value a [build] body returns is one of its object literals. *)
Ltac build_returns :=
  repeat first
    [ apply returns_mret; first [apply failsProperly_failed | apply failsProperly_built]
    | returns_step ].

Lemma WebPipeline_build_fails (ps : PipeState) (env : OfflineEnvironment) :
  returns failsProperly (WebPipeline_build (R:=R) ps env).
Proof. unfold WebPipeline_build. build_returns. Qed.

Lemma NdkPipeline_build_fails (ps : PipeState) (env : OfflineEnvironment) :
  returns failsProperly (NdkPipeline_build (R:=R) ps env).
Proof. unfold NdkPipeline_build. build_returns. Qed.

Lemma expoPrebuild_fails (ps : PipeState) (env : OfflineEnvironment) :
  returns (λ early, ∀ r, early = Some r → failsProperly r)
          (expoPrebuild (R:=R) ps env).
Proof.
  unfold expoPrebuild.
  repeat first
    [ apply returns_mret; intros r [= <-]; apply failsProperly_failed
    | apply returns_mret; by intros r
    | returns_step ].
Qed.

Lemma ReactNativePipeline_build_fails (ps : PipeState) (env : OfflineEnvironment) :
  returns failsProperly (ReactNativePipeline_build (R:=R) ps env).
Proof.
  unfold ReactNativePipeline_build.
  eapply returns_bind_with; [apply expoPrebuild_fails|intros [r|] Hr].
  - apply returns_mret. by apply Hr.
  - build_returns.
Qed.

Lemma MauiPipeline_build_fails (ps : PipeState) (env : OfflineEnvironment) :
  returns failsProperly (MauiPipeline_build (R:=R) ps env).
Proof. unfold MauiPipeline_build. build_returns. Qed.

Lemma UnityPipeline_build_fails (ps : PipeState) (env : OfflineEnvironment) :
  returns failsProperly (UnityPipeline_build (R:=R) ps env).
Proof. unfold UnityPipeline_build. build_returns. Qed.

Lemma describesFailure_failed (e : string) (es ws : list string) (t : Z) :
  e ≠ "" → describesFailure (failed (e :: es) ws t).
Proof. intros He _. by exists e, es. Qed.

Lemma describesFailure_built (p : string) : describesFailure (built p).
Proof. by intros [=]. Qed.

(** The first error of every failing literal of a [build] body is a text
    that begins with a fixed word. *)
Ltac build_describes :=
  repeat first
    [ apply returns_mret;
      first [ apply describesFailure_built
            | apply describesFailure_failed; rewrite ?append_cons; discriminate ]
    | returns_step ].

Lemma expoPrebuild_describes (ps : PipeState) (env : OfflineEnvironment) :
  returns (λ early, ∀ r, early = Some r → describesFailure r)
          (expoPrebuild (R:=R) ps env).
Proof.
  unfold expoPrebuild.
  repeat first
    [ apply returns_mret; intros r [= <-]; by apply describesFailure_failed
    | apply returns_mret; by intros r
    | returns_step ].
Qed.

Lemma pipeline_build_describes (k : PipelineKind) (ps : PipeState)
    (env : OfflineEnvironment) :
  returns describesFailure (pipeline_build (R:=R) k ps env).
Proof.
  unfold pipeline_build.
  apply returns_bind; intros _.
  eapply returns_bind_with with (Q1 := describesFailure).
  - destruct k.
    + unfold WebPipeline_build. build_describes.
    + unfold NdkPipeline_build. build_describes.
    + unfold MauiPipeline_build. build_describes.
    + unfold ReactNativePipeline_build.
      eapply returns_bind_with; [apply expoPrebuild_describes|intros [r|] Hr].
      * apply returns_mret. by apply Hr.
      * build_describes.
    + unfold UnityPipeline_build. build_describes.
  - intros r Hr. apply returns_bind; intros _. by apply returns_mret.
Qed.

Lemma external_calm (e : Event) : external e = true → calm e = true.
Proof. by destruct e. Qed.

(** The [build] method of a pipeline, seen from the orchestrator: calm
    events (the stage mark and calls into the platform), and either an
    exception or a result that fails properly, whose return is the last
    event. *)
Lemma pipeline_build_inv (k : PipelineKind) (ps : PipeState) (env : OfflineEnvironment)
    (s : St R) (r : Outcome BuildResult) (s' : St R) :
  pipeline_build k ps env s = (r, s') →
  ∃ evs, Forall (λ e, calm e = true) evs
    ∧ ((∃ br, r = Ret br ∧ failsProperly br
              ∧ trace s' = (EvBuildReturned br :: evs) ++ trace s)
       ∨ (∃ e, r = Throw e ∧ trace s' = evs ++ trace s)).
Proof.
  unfold pipeline_build.
  intros [(? & s1 & E1 & H)|(e & [=] & _)]%bind_inv.
  injection E1 as _ <-.
  set (body := match k with
               | WebPipeline => WebPipeline_build ps env
               | NdkPipeline => NdkPipeline_build ps env
               | MauiPipeline => MauiPipeline_build ps env
               | ReactNativePipeline => ReactNativePipeline_build ps env
               | UnityPipeline => UnityPipeline_build ps env
               end) in H.
  assert (emits (λ e, calm e = true) body) as Hemits.
  { subst body. destruct k;
      auto using emits_WebPipeline_build, emits_NdkPipeline_build,
        emits_MauiPipeline_build, emits_ReactNativePipeline_build,
        emits_UnityPipeline_build, external_calm. }
  assert (returns failsProperly body) as Hret.
  { subst body. destruct k;
      auto using WebPipeline_build_fails, NdkPipeline_build_fails,
        MauiPipeline_build_fails, ReactNativePipeline_build_fails,
        UnityPipeline_build_fails. }
  apply bind_inv in H as [(br & s2 & E2 & H)|(e & E2 & ->)];
    destruct (Hemits _ _ _ E2) as (evs & T & F);
    exists (evs ++ [EvStage Build k]);
    (split; [apply Forall_app; split; [done|by constructor]|]).
  - left. exists br.
    apply bind_inv in H as [(? & s3 & E3 & [-> ->]%mret_inv)|(e & [=] & _)].
    split; [done|]. split; [exact (Hret _ _ _ E2)|].
    unfold record in E3. simplify_eq/=. rewrite T. simpl. by rewrite <- app_assoc.
  - right. exists e. split; [done|]. rewrite T. simpl. by rewrite <- app_assoc.
Qed.

End Builds.

(** ** Signing and output placement *)

Section Sign_lemmas.

Context {R : Runtime}.
Context (P : Event → Prop) (HP : ∀ e, external e = true → P e).

Lemma emits_getDebugKeystore (env : OfflineEnvironment) :
  emits P (getDebugKeystore (R:=R) env).
Proof. unfold getDebugKeystore, when, createDebugKeystore. repeat emits_step. Qed.

Lemma emits_signApk (apk : string) (ks : KeystoreInfo) (out : string)
    (env : OfflineEnvironment) :
  emits P (signApk (R:=R) apk ks out env).
Proof. unfold signApk. repeat emits_step. Qed.

Lemma emits_sign (k : PipelineKind) (apk : option string) (opts : BuildOptions) :
  P (EvStage Sign k) → emits P (sign (R:=R) k apk opts).
Proof.
  intros Hk. unfold sign.
  apply emits_bind; [by apply emits_record|intros _].
  apply emits_bind; [destruct (signMode opts);
                     [apply emits_getDebugKeystore|apply emits_mret]|intros ks].
  destruct apk; [apply emits_signApk|apply emits_throw].
Qed.

Lemma emits_placeOutput (signedApk : string) (opts : BuildOptions) :
  (∀ a b, P (EvCopyFileSync a b)) → emits P (placeOutput (R:=R) signedApk opts).
Proof.
  intros Hc. unfold placeOutput, when, copyFileSync.
  repeat first [ apply emits_record; apply Hc | emits_step ].
Qed.

End Sign_lemmas.

(** ** Orchestrator *)

Section Orchestrator_lemmas.

Context {R : Runtime}.

Lemma Date_now_inv (s : St R) (r : Outcome Z) (s' : St R) :
  Date_now s = (r, s') → ∃ t, r = Ret t ∧ trace s' = trace s.
Proof.
  unfold Date_now, call_total. destruct (rt_now R (world s)) as [t w].
  intros [= <- <-]. by exists t.
Qed.

(** A failing return of the orchestrator itself: [now] is read and the
    literal with the single error is returned. *)
Lemma fail_now_inv (err : string) (t0 : Z) (s : St R) (r : Outcome BuildResult)
    (s' : St R) :
  (now ← Date_now; mret (failed [err] [] (now - t0))) s = (r, s') →
  (∃ t, r = Ret (failed [err] [] (t - t0))) ∧ trace s' = trace s.
Proof.
  intros [(t & s1 & E1 & [-> ->]%mret_inv)|(e & E1 & ->)]%bind_inv;
    destruct (Date_now_inv _ _ _ E1) as (t' & E & T); [|done].
  split; [by exists t|done].
Qed.

Lemma emits_applyEnvironment (env : OfflineEnvironment) :
  emits (λ e, calm e = true) (applyEnvironment (R:=R) env).
Proof. unfold applyEnvironment, setenv, getenv. repeat emits_step. Qed.

Lemma emits_orch_detectProject (p : string) :
  emits (λ e, calm e = true) (orch_detectProject (R:=R) p).
Proof.
  unfold orch_detectProject, emitProgress.
  apply emits_bind; [repeat emits_step|intros _].
  apply emits_bind; [|intros info; repeat emits_step].
  intros s r s' [= <- <-]. by exists [].
Qed.

Lemma emits_prepare (k : PipelineKind) (p : string) (ps : PipeState) :
  emits (λ e, calm e = true) (prepare (R:=R) k p ps).
Proof. unfold prepare. repeat emits_step. Qed.

Lemma emits_configure (k : PipelineKind) (o : BuildOptions) (ps : PipeState) :
  emits (λ e, calm e = true) (configure (R:=R) k o ps).
Proof. unfold configure. repeat emits_step. Qed.

Lemma emits_emitProgress (P : Event → Prop) (stage : string) (pct : Z) (msg : string) :
  P (EvProgress stage pct msg) → emits P (emitProgress (R:=R) stage pct msg).
Proof. apply emits_record. Qed.

End Orchestrator_lemmas.

Section Build_run.

Context {R : Runtime}.

Lemma external_notBuildReturned (e : Event) : external e = true → notBuildReturned e = true.
Proof. by destruct e. Qed.

Lemma calm_not_signsOrPlaces (e : Event) : calm e = true → signsOrPlaces e = false.
Proof.
  destruct e; try done.
  by match goal with st : Stage |- _ => destruct st end.
Qed.

(** The part of [build] after a successful pipeline [build]: it never emits
    the return of a pipeline [build], and what it returns is a success. *)
Lemma after_build_emits (k : PipelineKind) (result : BuildResult) (opts : BuildOptions)
    (t0 : Z) :
  emits (λ e, notBuildReturned e = true)
    (emitProgress (R:=R) "Assinatura" 90 "Assinando APK...";;
     signedApk ← sign k (apkPath result) opts;
     finalApkPath ← placeOutput signedApk opts;
     emitProgress "Concluído" 100 "Build finalizado com sucesso!";;
     now ← Date_now;
     mret {| success := success result;
             apkPath := Some finalApkPath;
             aabPath := aabPath result;
             errors := errors result;
             warnings := warnings result;
             buildTime := now - t0 |}).
Proof.
  apply emits_bind; [by apply emits_emitProgress|intros _].
  apply emits_bind;
    [by apply emits_sign; [apply external_notBuildReturned|]|intros signedApk].
  apply emits_bind;
    [by apply emits_placeOutput; [apply external_notBuildReturned|]|intros final].
  apply emits_bind; [by apply emits_emitProgress|intros _].
  repeat emits_step.
Qed.

Lemma after_build_returns (k : PipelineKind) (result : BuildResult) (opts : BuildOptions)
    (t0 : Z) :
  returns (λ r, success r = success result)
    (emitProgress (R:=R) "Assinatura" 90 "Assinando APK...";;
     signedApk ← sign k (apkPath result) opts;
     finalApkPath ← placeOutput signedApk opts;
     emitProgress "Concluído" 100 "Build finalizado com sucesso!";;
     now ← Date_now;
     mret {| success := success result;
             apkPath := Some finalApkPath;
             aabPath := aabPath result;
             errors := errors result;
             warnings := warnings result;
             buildTime := now - t0 |}).
Proof. repeat first [ by apply returns_mret | returns_step ]. Qed.

(** One more step of the prefix of [build] that only emits calm events. *)
Ltac calm_step H :=
  match type of H with
  | (?m ≫= _) _ = _ =>
      let E := fresh "E" in
      let T := fresh "T" in
      let F := fresh "F" in
      let Hm := fresh "Hm" in
      assert (emits (λ e, calm e = true) m) as Hm
        by first [ apply emits_applyEnvironment
                 | apply emits_orch_detectProject
                 | apply emits_prepare
                 | apply emits_configure
                 | apply emits_emitProgress; reflexivity
                 | apply emits_peek ];
      apply bind_inv in H as [(? & ? & E & H)|(? & E & ->)];
      apply Hm in E as (? & T & F); clear Hm
  end.

(** The trace of the state reached is the events collected so far on top
    of the initial trace. *)
Ltac collect_trace :=
  repeat match goal with
         | T : trace _ = _ |- _ => rewrite T; clear T
         end;
  rewrite ?app_assoc; reflexivity.

Ltac all_calm :=
  rewrite ?Forall_app; repeat split; first [assumption | by constructor].

(** The prefix threw: the events so far are calm and nothing is returned. *)
Ltac throw_leaf :=
  eexists; split; [collect_trace|left; split; [all_calm|done]].

(** A failing return of the orchestrator itself. *)
Ltac fail_leaf H :=
  apply fail_now_inv in H as [(? & ->) ?];
  eexists; split; [collect_trace|left; split; [all_calm|intros ? [= <-]; by split]].

Lemma build_body_run (o : BuildOrchestrator) (p : string) (opts : BuildOptions)
    (t0 : Z) (s0 : St R) (r : Outcome BuildResult) (s1 : St R) :
  buildTry o p opts t0 s0 = (r, s1) →
  ∃ evs, trace s1 = evs ++ trace s0
    ∧ ((Forall (λ e, calm e = true) evs
        ∧ ∀ br, r = Ret br → success br = false ∧ errors br ≠ [])
       ∨ (∃ br evs1, r = Ret br ∧ evs = EvBuildReturned br :: evs1
                     ∧ Forall (λ e, calm e = true) evs1
                     ∧ success br = false ∧ apkPath br = None ∧ errors br ≠ [])
       ∨ (∃ br evs1 evs2, evs = evs2 ++ EvBuildReturned br :: evs1
                          ∧ success br = true
                          ∧ Forall (λ e, notBuildReturned e = true) evs2
                          ∧ Forall (λ e, calm e = true) evs1
                          ∧ ∀ x, r = Ret x → success x = true)).
Proof.
  unfold buildTry. intros H.
  calm_step H; [|throw_leaf].
  calm_step H; [|throw_leaf].
  destruct (negb (valid _)); [fail_leaf H|].
  calm_step H; [|throw_leaf].
  calm_step H; [|throw_leaf].
  destruct (decide _); [fail_leaf H|].
  destruct (orch_pipelines o !! _) as [pipeline|]; [|fail_leaf H].
  cbn zeta in H.
  do 5 (calm_step H; [|throw_leaf]).
  apply bind_inv in H as [(result & s & E & H)|(e & E & ->)];
    (match type of E with
     | pipeline_build _ _ _ ?sb = _ =>
         assert (∃ pre, trace sb = pre ++ trace s0 ∧ Forall (λ e, calm e = true) pre)
           as (pre & Tpre & Fpre)
           by (eexists; split; [collect_trace|all_calm])
     end);
    apply pipeline_build_inv in E
      as (evs & Fb & [(br & [= <-] & Hfp & Tb)|(e' & [=] & Tb)]).
  - destruct (negb (success result)) eqn:Hs.
    + apply negb_true_iff in Hs. apply mret_inv in H as [-> ->].
      destruct (Hfp Hs) as [Herr Hapk].
      exists ((EvBuildReturned result :: evs) ++ pre).
      split; [by rewrite Tb, Tpre, app_assoc|]. right. left.
      exists result, (evs ++ pre). repeat split; try done.
      by apply Forall_app.
    + apply negb_false_iff in Hs.
      pose proof (after_build_emits _ _ _ _ _ _ _ H) as (post & Tpost & Fpost).
      pose proof (after_build_returns (pl_kind pipeline) result opts t0) as Hret.
      exists (post ++ (EvBuildReturned result :: evs) ++ pre).
      split; [by rewrite Tpost, Tb, Tpre, !app_assoc|]. right. right.
      exists result, (evs ++ pre), post. repeat split; try done.
      * by apply Forall_app.
      * intros res ->. rewrite <- Hs. exact (Hret _ _ _ H).
  - subst e'. exists (evs ++ pre).
    split; [by rewrite Tb, Tpre, app_assoc|]. left.
    split; [by apply Forall_app|done].
Qed.

Lemma build_run (o : BuildOrchestrator) (p : string) (opts : BuildOptions)
    (s : St R) (out : Outcome BuildResult) (s' : St R) :
  build o p opts s = (out, s') →
  ∃ res evs, out = Ret res
    ∧ trace s' = evs ++ trace s
    ∧ (success res = false → errors res ≠ [])
    ∧ buildTrace res evs.
Proof.
  unfold build.
  intros [(t0 & s0 & E0 & H)|(e & E0 & ->)]%bind_inv;
    destruct (Date_now_inv _ _ _ E0) as (t & [=] & T0).
  apply try_inv in H as [(a & Hb & ->)|(e & s1 & Hb & Hh)];
    apply build_body_run in Hb as (evs & T & Hc); rewrite T0 in T.
  - exists a, evs. split; [done|]. split; [done|].
    destruct Hc as [[Fc Ha]|[(br & evs1 & [= <-] & -> & Fc & Hs & Hapk & Herr)
                             |(br & evs1 & evs2 & -> & Hs & F2 & F1 & Ha)]].
    + split; [intros _; by apply (Ha a)|]. by left.
    + split; [done|]. right. left. by exists evs1.
    + split; [intros Hf; by rewrite (Ha a eq_refl) in Hf|].
      right. right. by exists br, evs1, evs2.
  - apply fail_now_inv in Hh as [(t' & ->) T'].
    eexists _, evs. split; [done|]. split; [by rewrite T'|]. split; [done|].
    destruct Hc as [[Fc Ha]|[(br & evs1 & [=] & _)
                             |(br & evs1 & evs2 & -> & Hs & F2 & F1 & Ha)]].
    + by left.
    + right. right. by exists br, evs1, evs2.
Qed.

(** What the [try] block returns is descriptive when it fails: the
    orchestrator's own failures and those of the five [build] methods begin
    with a fixed text. *)
Lemma buildTry_describes (o : BuildOrchestrator) (p : string) (opts : BuildOptions)
    (t0 : Z) :
  returns describesFailure (buildTry (R:=R) o p opts t0).
Proof.
  unfold buildTry.
  apply returns_bind; intros _. apply returns_bind; intros envCheck.
  destruct (negb (valid envCheck)).
  { apply returns_bind; intros now. apply returns_mret.
    apply describesFailure_failed. rewrite append_cons. discriminate. }
  apply returns_bind; intros _. apply returns_bind; intros info.
  destruct (decide _).
  { apply returns_bind; intros now. apply returns_mret.
    by apply describesFailure_failed. }
  destruct (orch_pipelines o !! _) as [pipeline|].
  2:{ apply returns_bind; intros now. apply returns_mret.
      apply describesFailure_failed. rewrite append_cons. discriminate. }
  cbn zeta. do 5 (apply returns_bind; intros ?).
  eapply returns_bind_with; [apply pipeline_build_describes|intros result Hres].
  destruct (success result) eqn:Hs; cbn [negb].
  - do 5 (apply returns_bind; intros ?). apply returns_mret.
    intros Hf. cbn [success] in Hf. congruence.
  - by apply returns_mret.
Qed.

(** C7.  From every state, for every project path and options, the
    orchestrator's [build] returns a [BuildResult]: no exception escapes it.
    When the [try] block returns a result, [build] returns that result, and
    if it is a failure its first error is a text that is not empty.  When
    the [try] block throws, the exception is converted to the failure whose
    single error is the message of the exception, with no [apkPath] and no
    warning.  So a result with [success = false] always carries at least
    one error string. *)
Theorem build_always_returns (o : BuildOrchestrator) (projectPath : string)
    (opts : BuildOptions) (s : St R) :
  let start := rt_now R (world s) in
  let body := buildTry o projectPath opts start.1
                       {| world := start.2; trace := trace s |} in
  ∃ res s',
    build o projectPath opts s = (Ret res, s')
    ∧ (success res = false → errors res ≠ [])
    ∧ match body.1 with
      | Ret r =>
          res = r ∧ s' = body.2
          ∧ (success r = false → ∃ first rest, errors r = first :: rest ∧ first ≠ "")
      | Throw e =>
          res = failed [e] [] ((rt_now R (world body.2)).1 - start.1)
          ∧ s' = {| world := (rt_now R (world body.2)).2; trace := trace body.2 |}
      end.
Proof.
  cbn zeta. unfold build, Date_now, call_total. unfold mbind at 1, M_bind at 1.
  destruct (rt_now R (world s)) as [t0 w0]. cbn [fst snd].
  unfold try_catchM.
  pose proof (buildTry_describes o projectPath opts t0
                {| world := w0; trace := trace s |}) as Hdesc.
  destruct (buildTry o projectPath opts t0 {| world := w0; trace := trace s |})
    as [[r|e] s1]; cbn [fst snd].
  - exists r, s1. split; [done|]. specialize (Hdesc r s1 eq_refl).
    split; [|done]. intros Hf. destruct (Hdesc Hf) as (first & rest & -> & _). done.
  - unfold mbind, M_bind, mret, M_ret. destruct (rt_now R (world s1)) as [t1 w1].
    cbn [fst snd]. eexists _, _. split; [reflexivity|]. done.
Qed.

(** C5.  In a run of the orchestrator's [build] in which the pipeline's
    [build] stage returned a result with [success = false], that result is
    what the caller gets, it has no [apkPath], neither [sign] was entered
    nor the output placed ([copyFileSync]) at any point of the run, and the
    return of the pipeline's [build] is the last event of the run: nothing
    is done after it. *)
Theorem failed_build_short_circuits (o : BuildOrchestrator) (projectPath : string)
    (opts : BuildOptions) (w : World R) (out : Outcome BuildResult) (s' : St R)
    (br : BuildResult) :
  run (build o projectPath opts) w = (out, s') →
  EvBuildReturned br ∈ trace s' →
  success br = false →
  out = Ret br
  ∧ apkPath br = None
  ∧ Forall (λ e, signsOrPlaces e = false) (trace s')
  ∧ head (trace s') = Some (EvBuildReturned br).
Proof.
  unfold run. intros E Hin Hfail.
  destruct (build_run _ _ _ _ _ _ E)
    as (res & evs & -> & T & _ & [Fc|[(evs1 & -> & F1 & Hs & Hapk)
                                     |(br' & evs1 & evs2 & -> & Hs & F2 & F1)]]);
    simpl in T; rewrite app_nil_r in T; rewrite T in *; clear T.
  - rewrite Forall_forall in Fc. by apply Fc in Hin.
  - apply elem_of_cons in Hin as [[= ->]|Hin].
    + split; [done|]. split; [done|]. split; [|done]. constructor; [done|].
      eapply Forall_impl; [exact F1|]. apply calm_not_signsOrPlaces.
    + rewrite Forall_forall in F1. by apply F1 in Hin.
  - apply elem_of_app in Hin as [Hin|Hin].
    + rewrite Forall_forall in F2. by apply F2 in Hin.
    + apply elem_of_cons in Hin as [[= ->]|Hin]; [congruence|].
      rewrite Forall_forall in F1. by apply F1 in Hin.
Qed.


End Build_run.

(** ** Processes and Gradle *)

Section Process_lemmas.

Context {R : Runtime}.

Lemma onData_run (chunks : list Chunk) (out err : string) (s : St R) :
  ∃ logs, onData chunks out err s
          = (Ret (out +:+ stdoutOf chunks, err +:+ stderrOf chunks),
             {| world := world s; trace := logs ++ trace s |})
          ∧ Forall (λ e, isLog e = true) logs.
Proof.
  revert out err s. induction chunks as [|[text|text] chunks IH]; intros out err s.
  - exists []. cbn [onData stdoutOf stderrOf]. rewrite !append_empty_r.
    split; [|done]. by destruct s.
  - destruct (IH (out +:+ text) err
                 {| world := world s; trace := EvLog text :: trace s |})
      as (logs & E & F).
    exists (logs ++ [EvLog text]). split.
    + cbn [onData stdoutOf stderrOf]. unfold mbind, M_bind, record.
      rewrite E. cbn [world trace]. by rewrite append_assoc, <- app_assoc.
    + apply Forall_app. split; [done|]. by constructor.
  - destruct (IH out (err +:+ text)
                 {| world := world s; trace := EvLog text :: trace s |})
      as (logs & E & F).
    exists (logs ++ [EvLog text]). split.
    + cbn [onData stdoutOf stderrOf]. unfold mbind, M_bind, record.
      rewrite E. cbn [world trace]. by rewrite append_assoc, <- app_assoc.
    + apply Forall_app. split; [done|]. by constructor.
Qed.

Lemma codeOrZero_some (c : Z) : codeOrZero (Some c) = c.
Proof. unfold codeOrZero. destruct (Z.eqb_spec c 0); congruence. Qed.

(** [runCommand] settles as [settled] tells from what [spawn] did; the
    events are the spawn and one log per chunk of the child. *)
Lemma runCommand_run (command : string) (args : list string) (cwd : string)
    (env : list (string * string)) (s : St R) :
  ∃ logs,
    runCommand command args cwd env s
    = (settled (rt_spawn R command (Some <$> args) (Some cwd) env (world s)).1,
       {| world := (rt_spawn R command (Some <$> args) (Some cwd) env (world s)).2;
          trace := logs ++ EvSpawn command (Some <$> args) :: trace s |})
    ∧ Forall (λ e, isLog e = true) logs.
Proof.
  unfold runCommand, spawn, mbind, M_bind, record, call. cbn [world trace].
  destruct (rt_spawn R command (Some <$> args) (Some cwd) env (world s))
    as [[proc|e] w]; cbn [fst snd settled]; [|by exists []].
  destruct (onData_run (pr_chunks proc) "" ""
              {| world := w; trace := EvSpawn command (Some <$> args) :: trace s |})
    as (logs & E & F).
  exists logs. split; [|done].
  cbn [world trace] in E. rewrite E. rewrite !append_nil.
  unfold settle. destruct (pr_end proc) as [[c|]|message]; cbn [mret M_ret];
    unfold mret, M_ret; rewrite ?codeOrZero_some; done.
Qed.

(** When [spawn] throws, [runCommand] rejects at once. *)
Lemma runCommand_throw (command : string) (args : list string) (cwd : string)
    (env : list (string * string)) (s : St R) (e : string) (w : World R) :
  rt_spawn R command (Some <$> args) (Some cwd) env (world s) = (Throw e, w) →
  runCommand command args cwd env s
  = (Throw e, {| world := w; trace := EvSpawn command (Some <$> args) :: trace s |}).
Proof.
  intros E. unfold runCommand, spawn, mbind, M_bind, record, call. cbn [world trace].
  by rewrite E.
Qed.

(** C10, as amended.  [runCommand] settles by what [spawn] does.  When
    [spawn] returns a child, [runCommand] resolves with [settle] of it:
    after an ['error'] that is code 1 with the message appended to [stderr];
    after a ['close'] with a [null] code it is code 0, the very result of a
    child that exited with code 0.  When [spawn] itself throws,
    [runCommand] rejects with that exception; it rejects in no other case. *)
Theorem runCommand_rejects_only_when_spawn_throws (command : string)
    (args : list string) (cwd : string) (env : list (string * string)) (s : St R) :
  (∃ s', runCommand command args cwd env s
         = (match (rt_spawn R command (Some <$> args) (Some cwd) env (world s)).1 with
            | Ret child => Ret (settle child)
            | Throw e => Throw e
            end, s'))
  ∧ (∀ chunks message,
       code (settle {| pr_chunks := chunks; pr_end := Errored message |}) = 1
       ∧ stderr (settle {| pr_chunks := chunks; pr_end := Errored message |})
         = stderrOf chunks +:+ message)
  ∧ (∀ chunks,
       code (settle {| pr_chunks := chunks; pr_end := Closed None |}) = 0
       ∧ settle {| pr_chunks := chunks; pr_end := Closed None |}
         = settle {| pr_chunks := chunks; pr_end := Closed (Some 0) |}).
Proof.
  split; [|done].
  destruct (runCommand_run command args cwd env s) as (logs & E & _). eauto.
Qed.

Lemma isOnline_run (s : St R) :
  isOnline s
  = (Ret (match (rt_dns_lookup R "google.com" (world s)).1 with
          | Ret _ => true
          | Throw _ => false
          end),
     {| world := (rt_dns_lookup R "google.com" (world s)).2;
        trace := EvDnsLookup "google.com" :: trace s |}).
Proof.
  unfold isOnline, try_catchM, dns_lookup, mbind, M_bind, record, call, mret, M_ret.
  cbn [world trace].
  by destruct (rt_dns_lookup R "google.com" (world s)) as [[[]|e] w].
Qed.

(** [runGradle]: one DNS lookup, then the invocation of Gradle, offline
    exactly when the lookup failed.  When its [spawn] returns a child, that
    is the only invocation, whatever the child does.  When the [spawn]
    throws, the [catch] is entered: without connectivity the exception is
    thrown again, with connectivity Gradle is invoked a second time, with
    [--offline]. *)
Lemma runGradle_run (task buildDir : string) (env : OfflineEnvironment) (s : St R) :
  let lookup := rt_dns_lookup R "google.com" (world s) in
  let online := match lookup.1 with Ret _ => true | Throw _ => false end in
  let first := gradleProcess R task buildDir env online lookup.2 in
  let second := gradleRetry R task buildDir env first.2 in
  let spawn1 := EvSpawn (gradleExec (rt_host R) env) (Some <$> gradleArgs task online) in
  let spawn2 := EvSpawn (gradleExec (rt_host R) env) (Some <$> retryArgs task) in
  ∃ logs,
    Forall (λ e, isLog e = true) logs
    ∧ runGradle task buildDir env s
      = match first.1 with
        | Ret child =>
            (Ret (gradleReport (settle child)),
             {| world := first.2;
                trace := logs ++ spawn1 :: EvDnsLookup "google.com" :: trace s |})
        | Throw e =>
            if online
            then (gradleSettles second.1,
                  {| world := second.2;
                     trace := logs ++ spawn2 :: spawn1
                                   :: EvDnsLookup "google.com" :: trace s |})
            else (Throw e,
                  {| world := first.2;
                     trace := spawn1 :: EvDnsLookup "google.com" :: trace s |})
        end.
Proof.
  cbn zeta. unfold runGradle. unfold mbind at 1, M_bind at 1. rewrite isOnline_run.
  unfold gradleProcess, gradleRetry.
  fold (gradleExec (rt_host R) env).
  set (exec := gradleExec (rt_host R) env).
  set (genv := gradleEnv env (path_join (rt_host R) [GRADLE_USER_HOME env])).
  destruct (rt_dns_lookup R "google.com" (world s)) as [[[]|e0] w0]; cbn [fst snd negb].
  - (* connectivity *)
    fold (gradleArgs task true).
    set (s1 := {| world := w0; trace := EvDnsLookup "google.com" :: trace s |}).
    unfold try_catchM. unfold mbind at 1, M_bind at 1.
    destruct (rt_spawn R exec (Some <$> gradleArgs task true) (Some buildDir) genv w0)
      as [[child|e] w1] eqn:Hsp; cbn [fst snd].
    + destruct (runCommand_run exec (gradleArgs task true) buildDir genv s1)
        as (logs & E & F).
      cbn [world trace s1] in E. rewrite Hsp in E. rewrite E.
      exists logs. split; [done|]. reflexivity.
    + rewrite (runCommand_throw exec (gradleArgs task true) buildDir genv s1 e w1 Hsp).
      assert ((if negb (argsInclude (gradleArgs task true) "--offline")
               then gradleArgs task true ++ ["--offline"]
               else gradleArgs task true) = retryArgs task) as ->.
      { unfold retryArgs. by destruct (argsInclude _ _). }
      destruct (runCommand_run exec (retryArgs task) buildDir genv
                  {| world := w1;
                     trace := EvSpawn exec (Some <$> gradleArgs task true)
                                :: trace s1 |})
        as (logs2 & E2 & F2).
      exists logs2. split; [done|].
      unfold mbind, M_bind. rewrite E2. cbn [world trace s1].
      destruct (rt_spawn R exec (Some <$> retryArgs task) (Some buildDir) genv w1)
        as [[child|e2] w2]; cbn [fst snd settled gradleSettles]; reflexivity.
  - (* no connectivity *)
    change ([task; "--no-daemon"; "--stacktrace"] ++ ["--offline"])
      with (gradleArgs task false).
    set (s1 := {| world := w0; trace := EvDnsLookup "google.com" :: trace s |}).
    unfold try_catchM. unfold mbind at 1, M_bind at 1.
    destruct (rt_spawn R exec (Some <$> gradleArgs task false) (Some buildDir) genv w0)
      as [[child|e] w1] eqn:Hsp; cbn [fst snd].
    + destruct (runCommand_run exec (gradleArgs task false) buildDir genv s1)
        as (logs & E & F).
      cbn [world trace s1] in E. rewrite Hsp in E. rewrite E.
      exists logs. split; [done|]. reflexivity.
    + rewrite (runCommand_throw exec (gradleArgs task false) buildDir genv s1 e w1 Hsp).
      exists []. split; [done|]. reflexivity.
Qed.

End Process_lemmas.

(** C6 at the failing input: connectivity is present and Gradle exits with
    code 1.  [runGradle] reports the failure after this one invocation: the
    lookup and a spawn without [--offline] are the only calls, there is no
    second attempt.  The [catch] that holds the offline retry is entered
    when [spawn] itself throws, not when Gradle fails. *)
Example runGradle_online_failure_not_retried :
  run (R := Scenario.gradleFails)
      (runGradle "assembleDebug" "/tmp/apk-builder/web/1" Scenario.env) tt
  = (Ret {| g_success := false; g_output := "BUILDFAILED" |},
     Build_St Scenario.gradleFails tt
       [ EvLog "FAILED"; EvLog "BUILD";
         EvSpawn "/opt/bundled/gradle/8.5/bin/gradle"
                 [Some "assembleDebug"; Some "--no-daemon"; Some "--stacktrace"];
         EvDnsLookup "google.com" ]).
Proof. vm_compute. reflexivity. Qed.

(** The offline retry is made when the [spawn] of the online invocation
    throws; here the second [spawn] throws as well. *)
Example runGradle_spawn_throws_retried :
  run (R := Scenario.spawnThrows)
      (runGradle "assembleDebug" "/tmp/apk-builder/web/1" Scenario.env) tt
  = (Throw "spawn E2BIG",
     Build_St Scenario.spawnThrows tt
       [ EvSpawn "/opt/bundled/gradle/8.5/bin/gradle"
                 [Some "assembleDebug"; Some "--no-daemon"; Some "--stacktrace";
                  Some "--offline"];
         EvSpawn "/opt/bundled/gradle/8.5/bin/gradle"
                 [Some "assembleDebug"; Some "--no-daemon"; Some "--stacktrace"];
         EvDnsLookup "google.com" ]).
Proof. vm_compute. reflexivity. Qed.

(** The claim C10 as it is stated fails: when [spawn] throws instead of
    returning a child, [runCommand] rejects with that exception. *)
Lemma runCommand_rejects_when_spawn_throws :
  run (R := Scenario.spawnThrows)
      (runCommand "gradle" ["assembleDebug"] "/tmp/apk-builder/web/1" []) tt
  = (Throw "spawn E2BIG",
     Build_St Scenario.spawnThrows tt [ EvSpawn "gradle" [Some "assembleDebug"] ]).
Proof. vm_compute. reflexivity. Qed.

(** A child that could not be started: code 1, and the message of the
    error after what was read from [stderr]. *)
Example runCommand_spawn_error :
  run (R := Scenario.runtime Scenario.webProject true Scenario.spawnFails
                             Scenario.webState)
      (runCommand "gradle" ["assembleDebug"] "/tmp/apk-builder/web/1" []) tt
  = (Ret {| stdout := ""; stderr := "sh: spawn ENOENT"; code := 1 |},
     Build_St (Scenario.runtime Scenario.webProject true Scenario.spawnFails
                                Scenario.webState) tt
       [ EvLog "sh: "; EvSpawn "gradle" [Some "assembleDebug"] ]).
Proof. vm_compute. reflexivity. Qed.

(** Without connectivity the single invocation is offline; a child killed
    by a signal counts as a success. *)
Example runGradle_offline_killed :
  run (R := Scenario.offlineKilled)
      (runGradle "assembleDebug" "/tmp/apk-builder/web/1" Scenario.env) tt
  = (Ret {| g_success := true; g_output := "BUILD" |},
     Build_St Scenario.offlineKilled tt
       [ EvLog "BUILD";
         EvSpawn "/opt/bundled/gradle/8.5/bin/gradle"
                 [Some "assembleDebug"; Some "--no-daemon"; Some "--stacktrace";
                  Some "--offline"];
         EvDnsLookup "google.com" ]).
Proof. vm_compute. reflexivity. Qed.

(** ** Release signing *)

Section Release_signing.

Context {R : Runtime}.

(** [signApk]: the attempt to align, then the [spawn] of [apksigner] on
    the aligned file if it exists and on the original otherwise; it settles
    as [signSettles] tells from what that [spawn] did. *)
Lemma signApk_run (apkPath : string) (keystore : KeystoreInfo) (outputPath : string)
    (env : OfflineEnvironment) (s : St R) :
  let zipalign := zipalignCommand (rt_host R) env apkPath in
  let w1 := (rt_execSync R zipalign (world s)).2 in
  let alignedPath := Js.replace apkPath ".apk" "-aligned.apk" in
  let inputApk := if existsSync (rt_fs R w1) alignedPath then alignedPath else apkPath in
  let apksignerPath :=
    path_join (rt_host R) [ANDROID_HOME env; "build-tools"; "34.0.0"; "apksigner"] in
  let started :=
    rt_spawn R apksignerPath (signArgs keystore outputPath inputApk) None [] w1 in
  signApk apkPath keystore outputPath env s
  = (signSettles started.1 outputPath,
     {| world := started.2;
        trace := EvSpawn apksignerPath (signArgs keystore outputPath inputApk)
                 :: EvExecSync zipalign :: trace s |}).
Proof.
  cbn zeta. unfold signApk, execSync, existsSyncM, spawn, zipalignCommand.
  unfold mbind, M_bind, record, try_catchM, call, peek, mret, M_ret, throw.
  cbn [world trace].
  match goal with
  | |- context [rt_execSync R ?c ?w] => destruct (rt_execSync R c w) as [[[]|e] w1]
  end;
    cbn [world trace snd];
    (match goal with
     | |- context [existsSync ?fs ?p] => destruct (existsSync fs p)
     end);
    (match goal with
     | |- context [rt_spawn R ?c ?a ?d ?e ?w] =>
         destruct (rt_spawn R c a d e w) as [[proc|e'] w2]
     end);
    cbn [fst snd signSettles]; try reflexivity;
    unfold signOutcome; destruct (pr_end proc) as [[[| |]|]|]; reflexivity.
Qed.

(** C8, as amended.  With [signMode = release], [sign] hands to [apksigner]
    the keystore made of the caller's [keystorePath], [keystorePassword],
    [keyAlias] and [keyPassword] exactly as supplied.  It does nothing else
    than enter the stage, try [zipalign] and spawn [apksigner] (no debug
    keystore is resolved), and how it settles is decided by that one [spawn],
    started in the world [zipalign] left: the signed path after exit code 0,
    an exception otherwise.  The presence of the four fields is not
    checked. *)
Theorem sign_release_uses_supplied_credentials (k : PipelineKind) (apkPath : string)
    (opts : BuildOptions) (s : St R) :
  signMode opts = release →
  let env := getOfflineEnvironment (rt_host R) (rt_bundled R) in
  let zipalign := zipalignCommand (rt_host R) env apkPath in
  let w1 := (rt_execSync R zipalign (world s)).2 in
  let signedPath := Js.replace apkPath ".apk" "-signed.apk" in
  let alignedPath := Js.replace apkPath ".apk" "-aligned.apk" in
  let inputApk := if existsSync (rt_fs R w1) alignedPath then alignedPath else apkPath in
  let args := signArgs (suppliedKeystore opts) signedPath inputApk in
  let started := rt_spawn R (apksigner R) args None [] w1 in
  sign k (Some apkPath) opts s
  = (match started.1 with
     | Ret proc => signOutcome proc signedPath
     | Throw e => Throw e
     end,
     {| world := started.2;
        trace := [ EvSpawn (apksigner R) args; EvExecSync zipalign; EvStage Sign k ]
                 ++ trace s |}).
Proof.
  intros Hrelease. cbn zeta.
  unfold sign. rewrite Hrelease.
  unfold mbind at 1, M_bind at 1, record at 1. cbn [world trace].
  unfold mbind at 1, M_bind at 1, mret at 1, M_ret at 1.
  rewrite signApk_run. cbn [world trace]. reflexivity.
Qed.

End Release_signing.

(** The amended C8 on release options in which the key password is left
    out. *)
Lemma sign_release_uses_supplied_credentials_witness :
  signMode Scenario.releaseWithoutKeyPassword = release
  ∧ sign (R := Scenario.allGood) WebPipeline (Some "/out/app-release.apk")
         Scenario.releaseWithoutKeyPassword
         (Build_St Scenario.allGood tt [])
    = (Ret "/out/app-release-signed.apk",
       Build_St Scenario.allGood tt
         [ EvSpawn (apksigner Scenario.allGood)
                   (signArgs (suppliedKeystore Scenario.releaseWithoutKeyPassword)
                             "/out/app-release-signed.apk" "/out/app-release.apk");
           EvExecSync (zipalignCommand Scenario.posix Scenario.env
                                       "/out/app-release.apk");
           EvStage Sign WebPipeline ]).
Proof.
  split; [reflexivity|].
  exact (sign_release_uses_supplied_credentials (R := Scenario.allGood)
           WebPipeline "/out/app-release.apk" Scenario.releaseWithoutKeyPassword
           (Build_St Scenario.allGood tt []) eq_refl).
Defined.

(** The claim C8 as it is stated fails: in release mode with the key
    password left out, [sign] reports no configuration error; it passes
    [pass:undefined] to [apksigner] and, [apksigner] exiting with code 0,
    returns the signed path. *)
Lemma sign_release_without_keyPassword_succeeds :
  signMode Scenario.releaseWithoutKeyPassword = release
  ∧ keyPassword Scenario.releaseWithoutKeyPassword = None
  ∧ run (R := Scenario.allGood)
        (sign WebPipeline (Some "/out/app-release.apk")
              Scenario.releaseWithoutKeyPassword) tt
    = (Ret "/out/app-release-signed.apk",
       Build_St Scenario.allGood tt
         [ EvSpawn "/opt/bundled/android-sdk/build-tools/34.0.0/apksigner"
                   [ Some "sign"; Some "--ks"; Some "/keys/release.jks";
                     Some "--ks-pass"; Some "pass:s3cret";
                     Some "--ks-key-alias"; Some "upload";
                     Some "--key-pass"; Some "pass:undefined";
                     Some "--v2-signing-enabled"; Some "true";
                     Some "--v3-signing-enabled"; Some "true";
                     Some "--out"; Some "/out/app-release-signed.apk";
                     Some "/out/app-release.apk" ];
           EvExecSync (dquote +:+ "/opt/bundled/android-sdk/build-tools/34.0.0/zipalign"
                       +:+ dquote +:+ " -f -p 4 " +:+ dquote +:+ "/out/app-release.apk"
                       +:+ dquote +:+ " " +:+ dquote +:+ "/out/app-release-aligned.apk"
                       +:+ dquote);
           EvStage Sign WebPipeline ]).
Proof. repeat split; vm_compute; reflexivity. Qed.

(** ** The orchestrator on concrete runs *)



(** The run of C4's witness, evaluated. *)
Example build_without_jdk_and_ndk :
  run (R := Scenario.toolchainMissing)
      (build (newBuildOrchestrator Scenario.toolchainMissing) "/app"
             Scenario.debugOptions) tt
  = (Ret (failed ["SDKs faltando: JDK, Android NDK"] [] 0),
     Build_St Scenario.toolchainMissing tt
       [EvProgress "Verificação" 5 "Verificando SDKs embutidos..."]).
Proof. vm_compute. reflexivity. Qed.

(** C5 where Gradle exits with code 1 in the Web pipeline. *)
Lemma failed_build_short_circuits_witness :
  (run (R := Scenario.gradleFails)
       (build (newBuildOrchestrator Scenario.gradleFails) "/app"
              Scenario.debugOptions) tt).1
  = Ret Scenario.gradleFailure
  ∧ apkPath Scenario.gradleFailure = None
  ∧ Forall (λ e, signsOrPlaces e = false)
           (trace (run (R := Scenario.gradleFails)
                       (build (newBuildOrchestrator Scenario.gradleFails) "/app"
                              Scenario.debugOptions) tt).2)
  ∧ head (trace (run (R := Scenario.gradleFails)
                     (build (newBuildOrchestrator Scenario.gradleFails) "/app"
                            Scenario.debugOptions) tt).2)
    = Some (EvBuildReturned Scenario.gradleFailure).
Proof.
  apply (failed_build_short_circuits
           (R := Scenario.gradleFails)
           (newBuildOrchestrator Scenario.gradleFails) "/app"
           Scenario.debugOptions tt).
  - apply surjective_pairing.
  - vm_compute. left.
  - reflexivity.
Defined.

(** A successful run, evaluated: after the build returned, [sign] is
    entered and the output is placed. *)
Example build_succeeds_then_signs :
  ∃ res s',
    run (R := Scenario.runtime
                (Scenario.fsOf
                   [ "/opt/bundled/jdk"; "/opt/bundled/android-sdk";
                     "/opt/bundled/ndk/r26"; "/opt/bundled/gradle-cache";
                     "/opt/bundled/dotnet"; "/opt/bundled/node"; "/app/index.html";
                     "/tmp/apk-builder/web/1/app/build/outputs/apk/debug/app-debug.apk" ]
                   [] "/app" ["index.html"])
                true (Scenario.exits 0) Scenario.webState)
        (build (newBuildOrchestrator Scenario.allGood) "/app" Scenario.debugOptions) tt
    = (Ret res, s')
    ∧ success res = true
    ∧ apkPath res
      = Some "/tmp/apk-builder/web/1/app/build/outputs/apk/debug/Demo/Demo.apk"
    ∧ Exists (λ e, signsOrPlaces e = true) (trace s').
Proof.
  eexists _, _. split; [vm_compute; reflexivity|].
  split; [reflexivity|]. split; [reflexivity|].
  apply Exists_cons_tl, Exists_cons_hd. reflexivity.
Qed.
(** * Further lemmas on strings *)

Lemma prefix_refl (s : string) : String.prefix s s = true.
Proof. rewrite <- (append_empty_r s) at 2. apply prefix_app. Qed.

Lemma prefix_weaken (x a b : string) :
  String.prefix x a = true → String.prefix x (a +:+ b) = true.
Proof.
  revert a. induction x as [|c x IH]; intros a H.
  - by destruct (a +:+ b).
  - destruct a as [|c' a]; [done|]. rewrite append_cons. simpl in *.
    destruct (ascii_dec c c'); [by apply IH|done].
Qed.

Lemma includes_refl (s : string) : Js.includes s s = true.
Proof. apply includes_prefix, prefix_refl. Qed.

Lemma includes_right (a b x : string) :
  Js.includes b x = true → Js.includes (a +:+ b) x = true.
Proof.
  intros H. induction a as [|c a IH].
  - by rewrite append_nil.
  - rewrite append_cons. cbn [Js.includes]. rewrite IH. apply orb_true_r.
Qed.

Lemma includes_left (a b x : string) :
  Js.includes a x = true → Js.includes (a +:+ b) x = true.
Proof.
  induction a as [|c a IH]; cbn [Js.includes].
  - rewrite orb_false_r. intros H. apply includes_prefix.
    by apply (prefix_weaken x "" b).
  - intros [H|H]%orb_prop.
    + apply includes_prefix. by apply (prefix_weaken x (String c a) b).
    + rewrite append_cons. cbn [Js.includes]. rewrite (IH H). apply orb_true_r.
Qed.

(** A one-character pattern occurs in a concatenation exactly when it occurs
    in one of the parts. *)
Lemma includes_char_cons (c a : ascii) (s : string) :
  Js.includes (String a s) (String c "") = Ascii.eqb a c || Js.includes s (String c "").
Proof.
  cbn [Js.includes String.prefix].
  destruct (ascii_dec c a) as [->|Hne].
  - rewrite Ascii.eqb_refl. destruct s; reflexivity.
  - destruct (Ascii.eqb_spec a c); [congruence|done].
Qed.

Lemma includes_char_app (c : ascii) (a b : string) :
  Js.includes (a +:+ b) (String c "")
  = Js.includes a (String c "") || Js.includes b (String c "").
Proof.
  induction a as [|x a IH].
  - rewrite append_nil. done.
  - rewrite append_cons, !includes_char_cons, IH. by rewrite orb_assoc.
Qed.

Lemma substring_enough (s : string) (n m m' : nat) :
  (String.length s ≤ n + m)%nat → (String.length s ≤ n + m')%nat →
  String.substring n m s = String.substring n m' s.
Proof.
  revert n m m'. induction s as [|c s IH]; intros n m m' H H'.
  - by destruct n, m, m'.
  - destruct n as [|n]; simpl in *.
    + destruct m as [|m]; [lia|]. destruct m' as [|m']; [lia|].
      f_equal. apply IH; lia.
    + apply IH; lia.
Qed.

Lemma substring_all (s : string) : String.substring 0 (String.length s) s = s.
Proof. induction s as [|c s IH]; simpl; [done|]. by rewrite IH. Qed.

Lemma prefix_split (pat s : string) :
  String.prefix pat s = true →
  s = pat +:+ String.substring (String.length pat) (String.length s) s.
Proof.
  revert s. induction pat as [|c pat IH]; intros s H.
  - by rewrite append_nil, substring_all.
  - destruct s as [|x s]; [done|]. simpl in H.
    destruct (ascii_dec c x) as [->|]; [|done].
    rewrite append_cons. cbn [String.length String.substring].
    f_equal. rewrite (IH s H) at 1. f_equal.
    apply substring_enough; lia.
Qed.

(** A replacement without a dollar sign stands for itself. *)
Lemma substitute_plain (replacement matched before after : string) :
  Js.includes replacement "$" = false →
  JsReplace.substitute replacement matched before after = replacement.
Proof.
  induction replacement as [|a rest IH]; [done|].
  rewrite includes_char_cons. intros [Ha Hrest]%orb_false_elim.
  cbn [JsReplace.substitute]. rewrite Ha. by rewrite IH.
Qed.

Lemma replaceFrom_eq (before s pat replacement : string) :
  JsReplace.replaceFrom before s pat replacement
  = if String.prefix pat s
    then JsReplace.substitute replacement pat before
           (String.substring (String.length pat) (String.length s) s)
         +:+ String.substring (String.length pat) (String.length s) s
    else match s with
         | EmptyString => EmptyString
         | String c s' =>
             String c (JsReplace.replaceFrom (before +:+ String c EmptyString) s'
                                             pat replacement)
         end.
Proof. by destruct s. Qed.

Lemma replaceFrom_absent (before s pat replacement : string) :
  Js.includes s pat = false →
  JsReplace.replaceFrom before s pat replacement = s.
Proof.
  revert before. induction s as [|c s IH]; intros before; cbn [Js.includes];
    intros [H Hs]%orb_false_elim; rewrite replaceFrom_eq, H; [done|].
  by rewrite IH.
Qed.

Lemma replaceFrom_present (before s pat replacement : string) :
  Js.includes s pat = true →
  ∃ a c, s = a +:+ pat +:+ c
         ∧ JsReplace.replaceFrom before s pat replacement
           = a +:+ JsReplace.substitute replacement pat (before +:+ a) c +:+ c.
Proof.
  revert before. induction s as [|x s IH]; intros before Hs;
    rewrite replaceFrom_eq; cbn [Js.includes] in Hs;
    destruct (String.prefix pat _) eqn:Hp; try done.
  1,2: match type of Hp with
       | String.prefix _ ?t = _ =>
           exists "", (String.substring (String.length pat) (String.length t) t)
       end; rewrite !append_nil, append_empty_r;
    (split; [by apply prefix_split|done]).
  simpl in Hs. destruct (IH (before +:+ String x "") Hs) as (a & c & -> & E).
  exists (String x a), c. split; [by rewrite append_cons|].
  rewrite E, append_cons. f_equal. f_equal.
  by rewrite append_assoc, append_cons, append_nil.
Qed.

(** The occurrence that is replaced is the first one. *)
Lemma replaceFrom_first (before s pat replacement : string) :
  Js.includes s pat = true →
  ∃ a c, s = a +:+ pat +:+ c
         ∧ (pat ≠ "" → Js.includes a pat = false)
         ∧ JsReplace.replaceFrom before s pat replacement
           = a +:+ JsReplace.substitute replacement pat (before +:+ a) c +:+ c.
Proof.
  revert before. induction s as [|x s IH]; intros before Hs;
    rewrite replaceFrom_eq; cbn [Js.includes] in Hs;
    destruct (String.prefix pat _) eqn:Hp; try done.
  1,2: match type of Hp with
       | String.prefix _ ?t = _ =>
           exists "", (String.substring (String.length pat) (String.length t) t)
       end; rewrite !append_nil, append_empty_r;
    (split; [by apply prefix_split|]); (split; [|done]);
    intros Hne; by destruct pat.
  simpl in Hs. destruct (IH (before +:+ String x "") Hs) as (a & c & -> & Hfirst & E).
  exists (String x a), c. split; [by rewrite append_cons|]. split.
  - intros Hne. cbn [Js.includes]. rewrite (Hfirst Hne), orb_false_r.
    destruct (String.prefix pat (String x a)) eqn:Hpa; [|done].
    pose proof (prefix_weaken pat (String x a) (pat +:+ c) Hpa) as Hw.
    rewrite append_cons in Hw. congruence.
  - rewrite E, append_cons. f_equal. f_equal.
    by rewrite append_assoc, append_cons, append_nil.
Qed.

(** * Further properties of the detector *)

(** ** The suggested name *)

Lemma keepAlnum_alnum (s : string) :
  Forall (λ c, isAlnum c = true) (String.list_ascii_of_string (keepAlnum s)).
Proof.
  induction s as [|c s IH]; simpl; [constructor|].
  destruct (isAlnum c) eqn:E; simpl; [by constructor|done].
Qed.

(** X1.  The name [detectProject] suggests for the application is made of
    ASCII letters and digits only, whatever the path. *)
Theorem extractProjectName_alphanumeric (projectPath : string) :
  Forall (λ c, isAlnum c = true) (String.list_ascii_of_string (extractProjectName projectPath)).
Proof. unfold extractProjectName. apply keepAlnum_alnum. Qed.

Lemma lastPart_app (a b acc : string) :
  lastPart (a +:+ b) acc = lastPart b (lastPart a acc).
Proof.
  revert acc. induction a as [|c a IH]; intros acc.
  - by rewrite append_nil.
  - rewrite append_cons. simpl. destruct (isPathSep c); apply IH.
Qed.

Lemma lastPart_segment (name acc : string) :
  Forall (λ c, isPathSep c = false) (String.list_ascii_of_string name) →
  lastPart name acc = acc +:+ name.
Proof.
  revert acc. induction name as [|c name IH]; intros acc H; simpl.
  - by rewrite append_empty_r.
  - inversion H as [|? ? Hc Hn]; subst. rewrite Hc, IH by done.
    by rewrite append_assoc, append_cons, append_nil.
Qed.

Lemma noSep_app (a b : string) :
  Forall (λ c, isPathSep c = false) (String.list_ascii_of_string a) →
  Forall (λ c, isPathSep c = false) (String.list_ascii_of_string b) →
  Forall (λ c, isPathSep c = false) (String.list_ascii_of_string (a +:+ b)).
Proof.
  intros Ha Hb. induction a as [|c a IH]; [by rewrite append_nil|].
  rewrite append_cons. inversion Ha; subst. constructor; [done|]. by apply IH.
Qed.

(** What [lastPart] leaves: the accumulator followed by the whole text when
    the text has no separator, the part after a separator otherwise. *)
Lemma lastPart_cases (p acc : string) :
  Forall (λ c, isPathSep c = false) (String.list_ascii_of_string acc) →
  Forall (λ c, isPathSep c = false) (String.list_ascii_of_string (lastPart p acc))
  ∧ ((lastPart p acc = acc +:+ p
      ∧ Forall (λ c, isPathSep c = false) (String.list_ascii_of_string p))
     ∨ ∃ dir sep, isPathSep sep = true ∧ p = dir +:+ String sep (lastPart p acc)).
Proof.
  revert acc. induction p as [|c p IH]; intros acc Hacc; simpl.
  - split; [done|]. left. split; [by rewrite append_empty_r|constructor].
  - destruct (isPathSep c) eqn:Hc.
    + destruct (IH "" ltac:(constructor)) as [Hn [[E Hp]|(dir & sep & Hsep & E)]].
      * split; [done|]. right. exists "", c. split; [done|].
        rewrite append_nil. rewrite E at 1. by rewrite append_nil.
      * split; [done|]. right. exists (String c dir), sep. split; [done|].
        rewrite append_cons. by rewrite <- E.
    + assert (Forall (λ c, isPathSep c = false)
                     (String.list_ascii_of_string (acc +:+ String c ""))) as Hacc'.
      { apply noSep_app; [done|]. by repeat constructor. }
      destruct (IH _ Hacc') as [Hn [[E Hp]|(dir & sep & Hsep & E)]].
      * split; [done|]. left. split; [|by constructor].
        by rewrite E, append_assoc, append_cons, append_nil.
      * split; [done|]. right. exists (String c dir), sep. split; [done|].
        rewrite append_cons. by rewrite <- E.
Qed.

(** X2.  The suggested name is computed from the last segment of the path
    alone: the whole path when it holds no slash and no backslash, what
    follows the last of them otherwise.  Every path has exactly one last
    segment, and the name is that segment without its characters that are
    not letters or digits, or [MeuApp] treated so when the segment is empty
    (an empty path, or one that ends in a separator). *)
Theorem extractProjectName_last_segment (projectPath : string) :
  ∃ name,
    isLastSegment projectPath name
    ∧ (∀ other, isLastSegment projectPath other → other = name)
    ∧ extractProjectName projectPath
      = keepAlnum (if String.eqb name "" then "MeuApp" else name).
Proof.
  exists (lastPart projectPath ""). split; [|split].
  - destruct (lastPart_cases projectPath "" ltac:(constructor))
      as [Hn [[E Hp]|(dir & sep & Hsep & E)]].
    + split; [done|]. left. by rewrite E, append_nil.
    + split; [done|]. right. by exists dir, sep.
  - intros other [Hother [->|(dir & sep & Hsep & ->)]].
    + by rewrite lastPart_segment, append_nil.
    + rewrite lastPart_app. simpl. rewrite Hsep.
      by rewrite lastPart_segment, append_nil.
  - reflexivity.
Qed.

(** ** The resolver's sort *)

Lemma insertByConfidence_perm (x : DetectionResult) (l : list DetectionResult) :
  insertByConfidence x l ≡ₚ x :: l.
Proof.
  induction l as [|y l IH]; simpl; [done|].
  destruct (dr_confidence y <=? dr_confidence x); [done|].
  rewrite IH. apply Permutation_swap.
Qed.

Lemma insertByConfidence_sorted (x : DetectionResult) (l : list DetectionResult) :
  StronglySorted (λ a b, dr_confidence b ≤ dr_confidence a) l →
  StronglySorted (λ a b, dr_confidence b ≤ dr_confidence a) (insertByConfidence x l).
Proof.
  induction 1 as [|y l Hs IH Hy]; simpl.
  - repeat constructor.
  - destruct (Z.leb_spec (dr_confidence y) (dr_confidence x)) as [Hle|Hlt].
    + constructor; [by constructor|].
      constructor; [done|]. eapply Forall_impl; [exact Hy|]. simpl. lia.
    + constructor; [done|].
      rewrite insertByConfidence_perm. constructor; [lia|done].
Qed.

Lemma insertByConfidence_filter (c : Z) (x : DetectionResult) (l : list DetectionResult) :
  StronglySorted (λ a b, dr_confidence b ≤ dr_confidence a) l →
  filter (λ r, dr_confidence r = c) (insertByConfidence x l)
  = filter (λ r, dr_confidence r = c) (x :: l).
Proof.
  induction 1 as [|y l Hs IH Hy]; simpl; [done|].
  destruct (Z.leb_spec (dr_confidence y) (dr_confidence x)) as [Hle|Hlt]; [done|].
  rewrite !filter_cons. rewrite IH. rewrite filter_cons.
  destruct (decide (dr_confidence y = c)), (decide (dr_confidence x = c)); try done.
  lia.
Qed.

(** X3.  The sort of the candidates keeps every candidate, puts them in
    order of non-increasing confidence, and is stable: candidates of equal
    confidence stay in the order in which the detectors are registered. *)
Theorem sortByConfidence_stable (l : list DetectionResult) :
  sortByConfidence l ≡ₚ l
  ∧ StronglySorted (λ a b, dr_confidence b ≤ dr_confidence a) (sortByConfidence l)
  ∧ ∀ c, filter (λ r, dr_confidence r = c) (sortByConfidence l)
         = filter (λ r, dr_confidence r = c) l.
Proof.
  unfold sortByConfidence.
  induction l as [|x l (Hp & Hs & Hf)]; simpl.
  - repeat split; constructor.
  - split; [|split].
    + by rewrite insertByConfidence_perm, Hp.
    + by apply insertByConfidence_sorted.
    + intros c. rewrite insertByConfidence_filter by done.
      rewrite !filter_cons, Hf. done.
Qed.
(** ** What the detectors report *)

Lemma scoreCsproj_files (h : Host) (fs : FS) (p : string) (acc : Z * list string)
    (file : string) :
  (scoreCsproj h fs p acc file).2 = acc.2 ++ [path_join h [p; file]].
Proof.
  destruct acc as [c fl]. unfold scoreCsproj.
  by destruct (readFileSync fs _).
Qed.

Lemma scoreCsproj_fold_files (h : Host) (fs : FS) (p : string) (l : list string)
    (acc : Z * list string) :
  (fold_left (scoreCsproj h fs p) l acc).2
  = acc.2 ++ ((λ f, path_join h [p; f]) <$> l).
Proof.
  revert acc. induction l as [|f l IH]; intros acc; simpl.
  - by rewrite app_nil_r.
  - rewrite IH, scoreCsproj_files. by rewrite <- app_assoc.
Qed.

(** X4.  The MAUI detector reports a project only where the recursive
    listing of the directory has a [.csproj] file, and the files it reports
    begin with every [.csproj] file, in the order of the listing. *)
Theorem detectMauiProject_lists_csproj (h : Host) (fs : FS) (projectPath : string)
    (r : DetectionResult) :
  detectMauiProject h fs projectPath = Some r →
  ∃ files,
    readdirSyncRec fs projectPath = Some files
    ∧ withExt [".csproj"] files ≠ []
    ∧ ((λ f, path_join h [projectPath; f]) <$> withExt [".csproj"] files)
        `prefix_of` dr_detectedFiles r.
Proof.
  unfold detectMauiProject. intros H.
  destruct (readdirSyncRec fs projectPath) as [files|] eqn:Hls; [|done].
  exists files. split; [done|].
  destruct (Js.len (withExt [".csproj"] files) =? 0) eqn:Hlen; [done|].
  split.
  { intros Hnil. rewrite Hnil in Hlen. done. }
  pose proof (scoreCsproj_fold_files h fs projectPath
                (withExt [".csproj"] files) (0, [])) as Hfold.
  destruct (fold_left _ _ _) as [c fl]. simpl in Hfold. subst fl.
  unfold firstExisting in H.
  destruct (List.find _ _) as [mp|]; simpl in H.
  - match type of H with (if ?b then None else _) = _ => destruct b end; [done|].
    injection H as <-. simpl. by apply prefix_app_r.
  - match type of H with (if ?b then None else _) = _ => destruct b end; [done|].
    injection H as <-. done.
Qed.
Lemma len_nonneg {A} (l : list A) : 0 ≤ Js.len l.
Proof. unfold Js.len. lia. Qed.

(** X5.  Where the project has a [CMakeLists.txt], the NDK detector reports
    a native project with confidence at least 35, and the descriptor is the
    first file it reports. *)
Theorem detectNdkProject_cmake (h : Host) (fs : FS) (projectPath : string) :
  existsSync fs (path_join h [projectPath; "CMakeLists.txt"]) = true →
  ∃ r, detectNdkProject h fs projectPath = Some r
       ∧ dr_type r = ndk
       ∧ 35 ≤ dr_confidence r ≤ 100
       ∧ head (dr_detectedFiles r) = Some (path_join h [projectPath; "CMakeLists.txt"]).
Proof.
  intros Hcmake. unfold detectNdkProject, firstExisting. rewrite Hcmake.
  destruct (readdirSyncRec fs projectPath) as [files|].
  - pose proof (len_nonneg (withExt [".c"; ".cpp"; ".cc"; ".cxx"] files)).
    pose proof (len_nonneg (withExt [".h"; ".hpp"; ".hxx"] files)).
    repeat (match goal with
            | |- context [List.find ?f ?l] => destruct (List.find f l)
            | |- context [existsSync ?f ?p] => destruct (existsSync f p)
            | |- context [0 <? ?x] => destruct (Z.ltb_spec 0 x)
            end; cbn [fst snd]);
    (match goal with
     | |- context [?c =? 0] => destruct (Z.eqb_spec c 0); [unfold Js.Math_min in *; lia|]
     end);
    eexists; (split; [reflexivity|]); cbn; unfold Js.Math_min in *;
    (split; [done|]); (split; [lia|done]).
  - repeat (match goal with
            | |- context [List.find ?f ?l] => destruct (List.find f l)
            | |- context [existsSync ?f ?p] => destruct (existsSync f p)
            end; cbn [fst snd]);
    (match goal with
     | |- context [?c =? 0] => destruct (Z.eqb_spec c 0); [lia|]
     end);
    eexists; (split; [reflexivity|]); cbn; unfold Js.Math_min;
    (split; [done|]); (split; [lia|done]).
Qed.
Ltac split_detector :=
  repeat (match goal with
          | |- context [List.find ?f ?l] => destruct (List.find f l)
          | |- context [existsSync ?f ?p] => destruct (existsSync f p)
          | |- context [readdirSyncRec ?f ?p] => destruct (readdirSyncRec f p)
          | |- context [readdirSync ?f ?p] => destruct (readdirSync f p)
          | |- context [readJson ?h ?f ?p] => destruct (readJson h f p)
          | |- context [Json.getField ?v ?k] => destruct (Json.getField v k)
          | |- context [Json.truthy ?v] => destruct (Json.truthy v)
          | |- context [0 <? ?x] => destruct (0 <? x)
          | |- context [?c =? 0] => destruct (c =? 0)
          end; cbn [fst snd ifExists]).

(** X6.  The detectors report a bounded number of files.  The NDK detector
    reports at most eight: the CMake descriptor, one [Android.mk], one
    [Application.mk] and the first five C or C++ sources of the listing
    (headers are counted, never reported).  The Unity detector reports at
    most five: the project settings asset, the first three scenes below
    [Assets] and the package manifest. *)
Theorem detectors_report_few_files (h : Host) (fs : FS) (projectPath : string) :
  (length (from_option dr_detectedFiles [] (detectNdkProject h fs projectPath)) ≤ 8)%nat
  ∧ (length (from_option dr_detectedFiles [] (detectUnityProject h fs projectPath))
     ≤ 5)%nat.
Proof.
  split.
  - unfold detectNdkProject, firstExisting, Js.slice0.
    split_detector; cbn [from_option dr_detectedFiles];
      rewrite ?length_app, ?length_fmap, ?length_take; cbn [length]; lia.
  - unfold detectUnityProject, ifExists, Js.slice0.
    split_detector; cbn [from_option dr_detectedFiles];
      rewrite ?length_app, ?length_fmap, ?length_take; cbn [length]; lia.
Qed.

Lemma readJson_inv (h : Host) (fs : FS) (p : string) (pkg : json) :
  readJson h fs p = Ret pkg →
  ∃ content, readFileSync fs p = Some content ∧ JSON_parse h content = Some pkg.
Proof.
  unfold readJson. destruct (readFileSync fs p) as [content|]; [|done].
  destruct (JSON_parse h content) as [v|] eqn:E; [|done].
  intros [= <-]. by exists content.
Qed.

Lemma hasDep_not_null (pkg : json) (name : string) (b : bool) :
  hasDep pkg name = Ret b → pkg ≠ JNull.
Proof. by intros H ->. Qed.

Lemma rnPackageBlock_inv (h : Host) (fs : FS) (p : string) (c : Z) (files : list string) :
  rnPackageBlock h fs p = Some (c, files) →
  (∃ content pkg, readFileSync fs p = Some content ∧ JSON_parse h content = Some pkg
                  ∧ pkg ≠ JNull)
  ∧ (c = 0 ∨ 5 ≤ c).
Proof.
  unfold rnPackageBlock. intros H.
  destruct (readJson h fs p) as [pkg|] eqn:Hpkg; [|done].
  apply readJson_inv in Hpkg as (content & Hread & Hparse).
  destruct (hasDep pkg "react-native") as [rn|] eqn:Hrn; [|done].
  split; [exists content, pkg; eauto using hasDep_not_null|].
  destruct (hasDep pkg "expo") as [ex|]; [|by destruct rn].
  destruct (Json.getField pkg "dependencies") as [d|]; [|by destruct rn, ex].
  destruct (Json.getField pkg "devDependencies") as [dd|]; [|by destruct rn, ex].
  pose proof (len_nonneg (rnPackages d dd)).
  destruct rn, ex; simpl in H;
    destruct (Z.ltb_spec 0 (Js.len (rnPackages d dd)));
    injection H as <- <-; unfold Js.Math_min; lia.
Qed.

(** X7.  The React Native detector reports a project only where
    [package.json] exists, can be read and parses to a value other than
    [null]; its confidence is then at least 5. *)
Theorem detectReactNativeProject_needs_package_json (h : Host) (fs : FS)
    (projectPath : string) (r : DetectionResult) :
  detectReactNativeProject h fs projectPath = Some r →
  existsSync fs (path_join h [projectPath; "package.json"]) = true
  ∧ (∃ content pkg,
       readFileSync fs (path_join h [projectPath; "package.json"]) = Some content
       ∧ JSON_parse h content = Some pkg
       ∧ pkg ≠ JNull)
  ∧ 5 ≤ dr_confidence r ≤ 100.
Proof.
  unfold detectReactNativeProject. intros H.
  destruct (existsSync fs (path_join h [projectPath; "package.json"])) eqn:Hex;
    [|done]. simpl in H.
  destruct (rnPackageBlock h fs _) as [[c files]|] eqn:Hblock; [|done].
  apply rnPackageBlock_inv in Hblock as [Hpkg Hc].
  destruct (Z.eqb_spec c 0) as [->|Hnz]; [done|].
  destruct Hc as [->|Hc]; [done|].
  split; [done|]. split; [done|].
  injection H as <-. cbn [dr_confidence]. unfold Js.Math_min.
  match goal with |- 5 ≤ Z.min ?x 100 ≤ 100 => cut (5 ≤ x); [lia|] end.
  repeat (etrans; [|apply ifExists_ge; lia]). cbn [fst].
  repeat case_match; lia.
Qed.
(** * Further properties of the runners *)

Section Runner_properties.

Context {R : Runtime}.

Lemma onData_logs (chunks : list Chunk) (out err : string) (s : St R) :
  trace (onData chunks out err s).2
  = reverse ((λ c, EvLog (chunkText c)) <$> chunks) ++ trace s.
Proof.
  revert out err s. induction chunks as [|[text|text] chunks IH]; intros out err s;
    [done|..];
    cbn [onData]; unfold mbind, M_bind, record; cbn [world trace];
    rewrite IH; cbn [trace fmap list_fmap chunkText];
    by rewrite reverse_cons, <- app_assoc.
Qed.

(** X8.  [runCommand] starts one process and emits everything the child
    writes, on [stdout] or on [stderr], as a ['log'] event, chunk by chunk
    in the order of arrival; when [spawn] throws there is no child and
    nothing is logged. *)
Theorem runCommand_logs_every_chunk (command : string) (args : list string)
    (cwd : string) (env : list (string * string)) (s : St R) :
  let spawned := rt_spawn R command (Some <$> args) (Some cwd) env (world s) in
  trace (runCommand command args cwd env s).2
  = reverse ((λ c, EvLog (chunkText c)) <$> chunksOf spawned.1)
    ++ EvSpawn command (Some <$> args) :: trace s.
Proof.
  cbn zeta. unfold runCommand, spawn.
  unfold mbind, M_bind, record, call. cbn [world trace].
  destruct (rt_spawn R command (Some <$> args) (Some cwd) env (world s))
    as [[proc|e] w]; cbn [fst chunksOf]; [|done].
  pose proof (onData_logs (pr_chunks proc) "" ""
                {| world := w; trace := EvSpawn command (Some <$> args) :: trace s |})
    as Hlogs.
  destruct (onData _ _ _ _) as [[[out err]|e] s1]; cbn [snd trace] in Hlogs.
  - by destruct (pr_end proc).
  - done.
Qed.

(** X9.  [runGradle] makes one DNS lookup and then invokes the bundled
    Gradle, with [--offline] exactly when the lookup failed.  When that
    [spawn] returns a child, it is the only invocation, whatever the child
    does: success when [runCommand] gives code 0, and the output is
    [stdout] followed by [stderr].  When that [spawn] throws and the lookup
    had failed, [runGradle] throws the same exception; when it throws and
    the lookup had succeeded, Gradle is invoked a second time with
    [--offline], and [runGradle] settles with that invocation. *)
Theorem runGradle_invocations (task buildDir : string)
    (env : OfflineEnvironment) (s : St R) :
  let lookup := rt_dns_lookup R "google.com" (world s) in
  let online := match lookup.1 with Ret _ => true | Throw _ => false end in
  let first := gradleProcess R task buildDir env online lookup.2 in
  let second := gradleRetry R task buildDir env first.2 in
  let spawn1 := EvSpawn (gradleExec (rt_host R) env) (Some <$> gradleArgs task online) in
  let spawn2 := EvSpawn (gradleExec (rt_host R) env) (Some <$> retryArgs task) in
  ∃ logs,
    Forall (λ e, isLog e = true) logs
    ∧ runGradle task buildDir env s
      = match first.1 with
        | Ret child =>
            (Ret (gradleReport (settle child)),
             {| world := first.2;
                trace := logs ++ spawn1 :: EvDnsLookup "google.com" :: trace s |})
        | Throw e =>
            if online
            then (gradleSettles second.1,
                  {| world := second.2;
                     trace := logs ++ spawn2 :: spawn1
                                   :: EvDnsLookup "google.com" :: trace s |})
            else (Throw e,
                  {| world := first.2;
                     trace := spawn1 :: EvDnsLookup "google.com" :: trace s |})
        end.
Proof. apply runGradle_run. Qed.

(** X10.  A Gradle process that ends without an exit code, as one
    terminated by a signal does, is reported by [runGradle] as a successful
    build. *)
Theorem runGradle_signal_is_success (task buildDir : string)
    (env : OfflineEnvironment) (s : St R) :
  (∀ args w, ∃ child,
      (rt_spawn R (gradleExec (rt_host R) env) args (Some buildDir)
                (gradleEnv env (path_join (rt_host R) [GRADLE_USER_HOME env])) w).1
      = Ret child
      ∧ pr_end child = Closed None) →
  ∃ output s',
    runGradle task buildDir env s
    = (Ret {| g_success := true; g_output := output |}, s').
Proof.
  intros Hkilled.
  destruct (runGradle_run task buildDir env s) as (logs & _ & E).
  cbn zeta in E. rewrite E. unfold gradleProcess.
  match goal with
  | |- context [rt_spawn R ?c ?a ?d ?e ?w] =>
      destruct (Hkilled a w) as (child & -> & Hend)
  end.
  unfold gradleReport, settle. rewrite Hend. by eexists _, _.
Qed.

Lemma succeedsProperly_failed (es ws : list string) (t : Z) :
  succeedsProperly (failed es ws t).
Proof. by intros [=]. Qed.

Lemma succeedsProperly_built (p : string) : succeedsProperly (built p).
Proof. intros _. by exists p. Qed.

Ltac build_succeeds :=
  repeat first
    [ apply returns_mret;
      first [apply succeedsProperly_failed | apply succeedsProperly_built]
    | returns_step ].

Lemma expoPrebuild_succeeds (ps : PipeState) (env : OfflineEnvironment) :
  returns (λ early, ∀ r, early = Some r → succeedsProperly r)
          (expoPrebuild (R:=R) ps env).
Proof.
  unfold expoPrebuild.
  repeat first
    [ apply returns_mret; intros r [= <-]; apply succeedsProperly_failed
    | apply returns_mret; by intros r
    | returns_step ].
Qed.

Lemma pipeline_build_succeeds (k : PipelineKind) (ps : PipeState)
    (env : OfflineEnvironment) :
  returns succeedsProperly (pipeline_build (R:=R) k ps env).
Proof.
  unfold pipeline_build.
  apply returns_bind; intros _.
  eapply returns_bind_with with (Q1 := succeedsProperly).
  - destruct k.
    + unfold WebPipeline_build. build_succeeds.
    + unfold NdkPipeline_build. build_succeeds.
    + unfold MauiPipeline_build. build_succeeds.
    + unfold ReactNativePipeline_build.
      eapply returns_bind_with; [apply expoPrebuild_succeeds|intros [r|] Hr].
      * apply returns_mret. by apply Hr.
      * build_succeeds.
    + unfold UnityPipeline_build. build_succeeds.
  - intros r Hr. apply returns_bind; intros _. by apply returns_mret.
Qed.

(** X11.  A [build] of any of the five pipelines that reports success
    carries the path of the APK and no error: the [apkPath] the orchestrator
    hands to [sign] is never undefined. *)
Theorem pipeline_build_success_has_apk (k : PipelineKind) (ps : PipeState)
    (env : OfflineEnvironment) (s : St R) (r : BuildResult) (s' : St R) :
  pipeline_build k ps env s = (Ret r, s') →
  success r = true →
  ∃ p, apkPath r = Some p ∧ errors r = [].
Proof. intros H Hs. exact (pipeline_build_succeeds k ps env s r s' H Hs). Qed.

(** X12.  The APK [MauiPipeline.findGeneratedApk] finds is a file of one of
    the search directories whose name ends in [.apk] and does not contain
    [Signed]; the search changes nothing. *)
Theorem findGeneratedApk_result (searchDirs : list string) (s : St R) (p : string)
    (s' : St R) :
  findGeneratedApk searchDirs s = (Ret (Some p), s') →
  s' = s
  ∧ ∃ dir files apk,
      dir ∈ searchDirs
      ∧ existsSync (rt_fs R (world s)) dir = true
      ∧ readdirSync (rt_fs R (world s)) dir = Some files
      ∧ apk ∈ files
      ∧ Js.endsWith apk ".apk" = true
      ∧ Js.includes apk "Signed" = false
      ∧ p = path_join (rt_host R) [dir; apk].
Proof.
  induction searchDirs as [|dir rest IH]; simpl; [done|].
  unfold mbind, M_bind, existsSyncM, peek, readdirSyncM.
  destruct (existsSync (rt_fs R (world s)) dir) eqn:Hex; simpl.
  - destruct (readdirSync (rt_fs R (world s)) dir) as [files|] eqn:Hls; [|done].
    destruct (List.find _ files) as [apk|] eqn:Hfind.
    + destruct (String.eqb apk "") eqn:Hempty.
      * intros H. destruct (IH H) as (-> & d & fl & a & Hd & Hrest).
        split; [done|]. exists d, fl, a. split; [by right|done].
      * intros [= <- <-]. split; [done|].
        apply find_some in Hfind as [Hin [Hend Hsigned]%andb_prop].
        exists dir, files, apk. repeat split; try done.
        -- by left.
        -- by apply list_elem_of_In.
        -- by destruct (Js.includes apk "Signed").
    + intros H. destruct (IH H) as (-> & d & fl & a & Hd & Hrest).
      split; [done|]. exists d, fl, a. split; [by right|done].
  - intros H. destruct (IH H) as (-> & d & fl & a & Hd & Hrest).
    split; [done|]. exists d, fl, a. split; [by right|done].
Qed.

End Runner_properties.
(** * Further properties of the signing stage *)

Section Signing_properties.

Context {R : Runtime}.

(** Unfolds the monad and splits on every call into the platform that the
    equation [H] runs through. *)
Ltac run_in H :=
  unfold when in H;
  unfold mbind, M_bind, record, try_catchM, call, call_total, peek, mret, M_ret,
    throw in H;
  cbn [world trace] in H;
  repeat (match type of H with
          | context [rt_mkdirSync R ?p ?w] =>
              destruct (rt_mkdirSync R p w) as [[[]|?] ?]
          | context [rt_execSync R ?c ?w] =>
              destruct (rt_execSync R c w) as [[[]|?] ?]
          | context [rt_writeFileSync R ?p ?c ?w] =>
              destruct (rt_writeFileSync R p c w) as [[[]|?] ?]
          | context [rt_cpSync R ?a ?b ?w] =>
              destruct (rt_cpSync R a b w) as [[[]|?] ?]
          | context [rt_spawn R ?c ?a ?d ?e ?w] =>
              let E := fresh "Hspawn" in
              destruct (rt_spawn R c a d e w) as [[?|?] ?] eqn:E
          | context [rt_now R ?w] =>
              destruct (rt_now R w) as [? ?]
          | context [existsSync ?fs ?p] =>
              let E := fresh "Hexists" in destruct (existsSync fs p) eqn:E
          | context [pr_end ?p] =>
              let E := fresh "Hend" in destruct (pr_end p) as [[[| |]|]|] eqn:E
          end; cbn [world trace negb] in H).

(** X13.  [getDebugKeystore] resolves with the debug keystore below the home
    directory and the fixed credentials of the Android tools.  It creates
    the [.android] directory, and runs [keytool] exactly when the keystore
    file does not exist after that; when it returns, [keytool] did not
    fail. *)
Theorem getDebugKeystore_result (env : OfflineEnvironment) (s : St R)
    (ks : KeystoreInfo) (s' : St R) :
  getDebugKeystore env s = (Ret ks, s') →
  let debugDir := path_join (rt_host R) [homeDir R (world s); ".android"] in
  let w1 := (rt_mkdirSync R debugDir (world s)).2 in
  ks = debugKeystore (rt_host R) (homeDir R (world s))
  ∧ ∃ keytool,
      trace s'
      = (if existsSync (rt_fs R w1) (path_join (rt_host R) [debugDir; "debug.keystore"])
         then [] else [EvExecSync keytool])
        ++ EvMkdirSync debugDir :: trace s
      ∧ Js.includes keytool "-genkeypair" = true.
Proof.
  unfold getDebugKeystore, createDebugKeystore, getenv, mkdirSync, existsSyncM, execSync.
  intros H. cbn zeta.
  unfold homeDir, debugKeystore.
  unfold when in H.
  unfold mbind, M_bind, record, try_catchM, call, call_total, peek, mret, M_ret,
    throw in H.
  cbn [world trace] in H.
  destruct (rt_mkdirSync R _ (world s)) as [[[]|?] w1]; [|done].
  cbn [world trace snd] in *.
  destruct (existsSync (rt_fs R w1) _) eqn:Hex; cbn [negb world trace] in H.
  - injection H as <- <-. split; [done|]. exists "-genkeypair". by split.
  - match type of H with
    | context [rt_execSync R ?c ?w] =>
        destruct (rt_execSync R c w) as [[[]|?] ?]; [|done];
        injection H as <- <-; split; [done|]; exists c
    end.
    split; [done|].
    rewrite <- !append_assoc.
    match goal with
    | |- Js.includes (?a +:+ Js.join " " ?l) _ = true =>
        apply (includes_join a " " "-genkeypair" l)
    end.
    by left.
Qed.

(** X14.  In debug mode [sign] ignores the credentials of the options.
    Everything it does after entering the stage is one of: creating the
    [.android] directory below the home directory, making the debug keystore
    there with [keytool] and the fixed credentials of the Android tools,
    aligning the APK with [zipalign], and spawning [apksigner] with that
    debug keystore, on the aligned or on the original file. *)
Theorem sign_debug_uses_debug_keystore (k : PipelineKind) (apkPath : string)
    (opts : BuildOptions) (s : St R) (r : Outcome string) (s' : St R) :
  signMode opts = debug →
  sign k (Some apkPath) opts s = (r, s') →
  ∃ evs,
    trace s' = evs ++ EvStage Sign k :: trace s
    ∧ ∀ e, e ∈ evs → debugSignStep R (homeDir R (world s)) apkPath e.
Proof.
  intros Hdebug H.
  unfold sign, getDebugKeystore, createDebugKeystore, signApk, getenv, mkdirSync,
    existsSyncM, execSync, spawn in H.
  rewrite Hdebug in H.
  run_in H; injection H as <- <-; cbn [trace];
    (first [ exists []; split; [reflexivity|]
           | eexists [_]; split; [reflexivity|]
           | eexists [_; _]; split; [reflexivity|]
           | eexists [_; _; _]; split; [reflexivity|]
           | eexists [_; _; _; _]; split; [reflexivity|] ]);
    intros ev Hev;
    repeat (apply elem_of_cons in Hev as [->|Hev];
            [unfold debugSignStep, homeDir, debugKeystore, apksigner, keytoolCommand,
               zipalignCommand; cbn zeta;
             first [ by left
                   | by right; left
                   | by right; right; left
                   | right; right; right; eexists; split; [|reflexivity]; auto ]|]);
    by apply elem_of_nil in Hev.
Qed.

(** X15.  [signApk] goes on whatever [zipalign] does.  It signs the aligned
    file exactly when that file exists after the attempt (also when
    [zipalign] failed and the file is left from an earlier run), the
    original otherwise; [apksigner] alone decides how it settles: the output
    path after exit code 0, an exception after any other code, after no code,
    after a start failure, and when its [spawn] throws. *)
Theorem signApk_input (apkPath : string) (keystore : KeystoreInfo)
    (outputPath : string) (env : OfflineEnvironment) (s : St R) :
  ∃ zipalign,
    let w1 := (rt_execSync R zipalign (world s)).2 in
    let alignedPath := Js.replace apkPath ".apk" "-aligned.apk" in
    let inputApk := if existsSync (rt_fs R w1) alignedPath then alignedPath else apkPath in
    let apksignerPath :=
      path_join (rt_host R) [ANDROID_HOME env; "build-tools"; "34.0.0"; "apksigner"] in
    let started :=
      rt_spawn R apksignerPath (signArgs keystore outputPath inputApk) None [] w1 in
    signApk apkPath keystore outputPath env s
    = (match started.1 with
       | Ret child => signOutcome child outputPath
       | Throw e => Throw e
       end,
       {| world := started.2;
          trace := EvSpawn apksignerPath (signArgs keystore outputPath inputApk)
                   :: EvExecSync zipalign :: trace s |}).
Proof.
  exists (zipalignCommand (rt_host R) env apkPath). apply signApk_run.
Qed.


(** X17.  [createReleaseKeystore] resolves only after [keytool] exited with
    code 0, and then with the path and the credentials it was given; the
    directory of the keystore is created before [keytool] is started. *)
Theorem createReleaseKeystore_result (outputPath password alias keyPassword dname : string)
    (env : OfflineEnvironment) (s : St R) (ks : KeystoreInfo) (s' : St R) :
  createReleaseKeystore outputPath password alias keyPassword dname env s = (Ret ks, s') →
  ks = {| ks_path := Some outputPath; ks_password := Some password;
          ks_alias := Some alias; ks_keyPassword := Some keyPassword |}
  ∧ ∃ w child,
      let keytool := path_join (rt_host R) [JAVA_HOME env; "bin"; "keytool"] in
      let args :=
        Some <$> [ "-genkeypair"; "-v"; "-keystore"; outputPath; "-storepass"; password;
                   "-alias"; alias; "-keypass"; keyPassword; "-keyalg"; "RSA";
                   "-keysize"; "2048"; "-validity"; "10000"; "-dname"; dname ] in
      trace s' = EvSpawn keytool args
                 :: EvMkdirSync (path_dirname (rt_host R) outputPath) :: trace s
      ∧ (rt_spawn R keytool args None [] w).1 = Ret child
      ∧ pr_end child = Closed (Some 0).
Proof.
  unfold createReleaseKeystore, mkdirSync, spawn. intros H.
  run_in H; try done.
  injection H as <- <-. split; [done|].
  match goal with
  | Hs : rt_spawn R _ _ _ _ ?w = (Ret ?c, _) |- _ =>
      exists w, c; cbn zeta; split; [reflexivity|]; by rewrite Hs
  end.
Qed.

End Signing_properties.
(** * Properties of the manifest generator *)

Lemma setAdd_elem (l : list string) (x y : string) :
  x ∈ setAdd l y ↔ x ∈ l ∨ x = y.
Proof.
  unfold setAdd. case_bool_decide as Hy.
  - split; [by left|]. by intros [?| ->].
  - rewrite elem_of_app, list_elem_of_singleton. done.
Qed.

Lemma setAdd_NoDup (l : list string) (y : string) : NoDup l → NoDup (setAdd l y).
Proof.
  unfold setAdd. intros Hl. case_bool_decide as Hy; [done|].
  apply NoDup_app. split; [done|]. split; [|apply NoDup_singleton].
  intros x Hx ->%list_elem_of_singleton. done.
Qed.

Lemma setAdd_prefix (l : list string) (y : string) : l `prefix_of` setAdd l y.
Proof. unfold setAdd. case_bool_decide; [done|]. by apply prefix_app_r. Qed.

Lemma setAdd_fold_elem (ys l : list string) (x : string) :
  x ∈ fold_left setAdd ys l ↔ x ∈ l ∨ x ∈ ys.
Proof.
  revert l. induction ys as [|y ys IH]; intros l; simpl.
  - rewrite elem_of_nil. tauto.
  - rewrite IH, setAdd_elem, elem_of_cons. tauto.
Qed.

Lemma setAdd_fold_NoDup (ys l : list string) : NoDup l → NoDup (fold_left setAdd ys l).
Proof.
  revert l. induction ys as [|y ys IH]; intros l Hl; simpl; [done|].
  by apply IH, setAdd_NoDup.
Qed.

Lemma setAdd_fold_prefix (ys l : list string) : l `prefix_of` fold_left setAdd ys l.
Proof.
  revert l. induction ys as [|y ys IH]; intros l; simpl; [done|].
  etrans; [apply setAdd_prefix|apply IH].
Qed.

(** The loop over a table of APIs, for any table. *)
Lemma scan_table_elem (content : string) (table : list (string * list string))
    (l : list string) (x : string) :
  x ∈ fold_left (λ permissions entry,
                   if Js.includes content entry.1
                   then fold_left setAdd entry.2 permissions
                   else permissions) table l
  ↔ x ∈ l ∨ ∃ api perms, (api, perms) ∈ table
                         ∧ Js.includes content api = true ∧ x ∈ perms.
Proof.
  revert l. induction table as [|[api perms] table IH]; intros l; simpl.
  - split; [by left|]. intros [?|(? & ? & []%elem_of_nil & _)]; done.
  - rewrite IH. destruct (Js.includes content api) eqn:Hinc.
    + rewrite setAdd_fold_elem. split.
      * intros [[?|?]|(a & p & Hin & ? & ?)]; [by left| |].
        -- right. exists api, perms. split; [by left|done].
        -- right. exists a, p. split; [by right|done].
      * intros [?|(a & p & [[= -> ->]|Hin]%elem_of_cons & ? & ?)]; [by left; left| |].
        -- by left; right.
        -- right. by exists a, p.
    + split.
      * intros [?|(a & p & Hin & ? & ?)]; [by left|].
        right. exists a, p. split; [by right|done].
      * intros [?|(a & p & [[= -> ->]|Hin]%elem_of_cons & ? & ?)]; [by left| |].
        -- congruence.
        -- right. by exists a, p.
Qed.

Lemma scan_table_NoDup (content : string) (table : list (string * list string))
    (l : list string) :
  NoDup l →
  NoDup (fold_left (λ permissions entry,
                      if Js.includes content entry.1
                      then fold_left setAdd entry.2 permissions
                      else permissions) table l).
Proof.
  revert l. induction table as [|[api perms] table IH]; intros l Hl; simpl; [done|].
  apply IH. destruct (Js.includes content api); [by apply setAdd_fold_NoDup|done].
Qed.

Lemma scan_table_prefix (content : string) (table : list (string * list string))
    (l : list string) :
  l `prefix_of` fold_left (λ permissions entry,
                             if Js.includes content entry.1
                             then fold_left setAdd entry.2 permissions
                             else permissions) table l.
Proof.
  revert l. induction table as [|[api perms] table IH]; intros l; simpl; [done|].
  etrans; [|apply IH].
  destruct (Js.includes content api); [apply setAdd_fold_prefix|done].
Qed.

Section Manifest_properties.

Context (h : Host) (fs : FS).

Lemma scanFile_elem (projectPath file : string) (l : list string) (x : string) :
  x ∈ scanFile h fs projectPath l file ↔ x ∈ l ∨ usesApi h fs projectPath file x.
Proof.
  unfold scanFile, usesApi, scanApis.
  destruct (readFileSync fs _) as [content|].
  - rewrite scan_table_elem. split.
    + intros [?|(api & perms & ?)]; [by left|]. right. by exists content, api, perms.
    + intros [?|(c & api & perms & [= <-] & ?)]; [by left|]. right. by exists api, perms.
  - split; [by left|]. by intros [?|(c & api & perms & [=] & ?)].
Qed.

Lemma scanFiles_elem (projectPath : string) (files l : list string) (x : string) :
  x ∈ fold_left (scanFile h fs projectPath) files l
  ↔ x ∈ l ∨ ∃ file, file ∈ files ∧ usesApi h fs projectPath file x.
Proof.
  revert l. induction files as [|f files IH]; intros l; simpl.
  - split; [by left|]. by intros [?|(? & []%elem_of_nil & _)].
  - rewrite IH, scanFile_elem. split.
    + intros [[?|?]|(file & ? & ?)]; [by left| |].
      * right. exists f. split; [by left|done].
      * right. exists file. split; [by right|done].
    + intros [?|(file & [->|?]%elem_of_cons & ?)]; [by left; left|by left; right|].
      right. by exists file.
Qed.

Lemma scanFiles_NoDup (projectPath : string) (files l : list string) :
  NoDup l → NoDup (fold_left (scanFile h fs projectPath) files l).
Proof.
  revert l. induction files as [|f files IH]; intros l Hl; simpl; [done|].
  apply IH. unfold scanFile, scanApis.
  destruct (readFileSync fs _); [by apply scan_table_NoDup|done].
Qed.

Lemma scanFiles_prefix (projectPath : string) (files l : list string) :
  l `prefix_of` fold_left (scanFile h fs projectPath) files l.
Proof.
  revert l. induction files as [|f files IH]; intros l; simpl; [done|].
  etrans; [|apply IH]. unfold scanFile, scanApis.
  destruct (readFileSync fs _); [apply scan_table_prefix|done].
Qed.

(** X18.  The permissions [detectPermissions] reports are exactly
    [INTERNET], [ACCESS_NETWORK_STATE] and the permissions of the table for
    the web APIs whose name occurs in one of the first fifty code files of
    the recursive listing that can be read.  A file after the fiftieth and a
    file that cannot be read contribute nothing. *)
Theorem detectPermissions_elem (projectPath x : string) :
  x ∈ detectPermissions h fs projectPath
  ↔ x = "android.permission.INTERNET"
    ∨ x = "android.permission.ACCESS_NETWORK_STATE"
    ∨ ∃ files file,
        readdirSyncRec fs projectPath = Some files
        ∧ file ∈ take 50 (withExt [".js"; ".ts"; ".html"; ".jsx"; ".tsx"] files)
        ∧ usesApi h fs projectPath file x.
Proof.
  unfold detectPermissions.
  assert (setAdd (setAdd [] "android.permission.INTERNET")
                 "android.permission.ACCESS_NETWORK_STATE"
          = [ "android.permission.INTERNET"; "android.permission.ACCESS_NETWORK_STATE" ])
    as -> by reflexivity.
  destruct (readdirSyncRec fs projectPath) as [files|].
  - rewrite scanFiles_elem. unfold Js.slice0.
    rewrite !elem_of_cons, elem_of_nil. split.
    + intros [[?|[?|[]]]|(file & ? & ?)]; [by left|by right; left|].
      right; right. by exists files, file.
    + intros [?|[?|(fl & file & [= <-] & ? & ?)]]; [by left; left|by left; right; left|].
      right. by exists file.
  - rewrite !elem_of_cons, elem_of_nil. split.
    + intros [?|[?|[]]]; [by left|by right; left].
    + by intros [?|[?|(fl & file & [=] & ?)]]; [left|right; left].
Qed.

(** X19.  [detectPermissions] never throws; its result has no duplicates
    and begins with [INTERNET] and [ACCESS_NETWORK_STATE], also when the
    project directory cannot be listed. *)
Theorem detectPermissions_defaults (projectPath : string) :
  NoDup (detectPermissions h fs projectPath)
  ∧ [ "android.permission.INTERNET"; "android.permission.ACCESS_NETWORK_STATE" ]
      `prefix_of` detectPermissions h fs projectPath.
Proof.
  unfold detectPermissions.
  assert (setAdd (setAdd [] "android.permission.INTERNET")
                 "android.permission.ACCESS_NETWORK_STATE"
          = [ "android.permission.INTERNET"; "android.permission.ACCESS_NETWORK_STATE" ])
    as -> by reflexivity.
  assert (NoDup [ "android.permission.INTERNET";
                  "android.permission.ACCESS_NETWORK_STATE" ]) as Hnd.
  { apply NoDup_cons. split; [by intros [=]%list_elem_of_singleton|].
    apply NoDup_singleton. }
  destruct (readdirSyncRec fs projectPath) as [files|]; [|done].
  split; [by apply scanFiles_NoDup|apply scanFiles_prefix].
Qed.

End Manifest_properties.

Lemma newSet_elem (arr : list string) (x : string) : x ∈ newSet arr ↔ x ∈ arr.
Proof. unfold newSet. rewrite setAdd_fold_elem, elem_of_nil. tauto. Qed.

Lemma newSet_NoDup (arr : list string) : NoDup (newSet arr).
Proof. apply setAdd_fold_NoDup, NoDup_nil_2. Qed.

Lemma filter_not_in_nil (l : list string) : filter (λ y, y ∉ []) l = l.
Proof.
  induction l as [|x l IH]; [done|].
  rewrite filter_cons. destruct (decide (x ∉ [])) as [_|Hn]; [by rewrite IH|].
  destruct Hn. apply not_elem_of_nil.
Qed.

Lemma setAdd_fold_firstOccurrences (arr acc : list string) :
  fold_left setAdd arr acc = acc ++ filter (λ y, y ∉ acc) (firstOccurrences arr).
Proof.
  revert acc. induction arr as [|x arr IH]; intros acc.
  - simpl. by rewrite app_nil_r.
  - cbn [fold_left firstOccurrences]. rewrite IH. unfold setAdd.
    rewrite filter_cons. case_bool_decide as Hx.
    + destruct (decide (x ∉ acc)) as [Hn|_]; [done|].
      f_equal. rewrite list_filter_filter. apply list_filter_iff.
      intros y. simpl. split; [|by intros [? ?]].
      intros Hy. split; [done|]. by intros ->.
    + destruct (decide (x ∉ acc)) as [_|Hn]; [|done].
      rewrite <- app_assoc. simpl. do 2 f_equal.
      rewrite list_filter_filter. apply list_filter_iff.
      intros y. simpl. rewrite elem_of_app, list_elem_of_singleton. tauto.
Qed.

(** X20.  The permissions [generateManifest] declares are those of the
    options followed by [INTERNET], each once, in the order of their first
    occurrence; [INTERNET] is always among them.  The block of declarations
    is made of one [uses-permission] line for each of them, in that order,
    their names being put in as they are. *)
Theorem manifest_declares_permissions (options : BuildOptions) :
  manifestPermissions options
  = firstOccurrences (permissions options ++ ["android.permission.INTERNET"])
  ∧ NoDup (manifestPermissions options)
  ∧ (∀ p, p ∈ manifestPermissions options
          ↔ p ∈ permissions options ∨ p = "android.permission.INTERNET")
  ∧ permissionsXml options
    = Js.join newline
        ((λ p, "    <uses-permission android:name=" +:+ dquote +:+ p +:+ dquote +:+ " />")
           <$> firstOccurrences (permissions options ++ ["android.permission.INTERNET"])).
Proof.
  assert (manifestPermissions options
          = firstOccurrences (permissions options ++ ["android.permission.INTERNET"]))
    as Hlist.
  { unfold manifestPermissions, newSet. rewrite setAdd_fold_firstOccurrences.
    simpl. apply filter_not_in_nil. }
  split; [done|]. split; [apply newSet_NoDup|]. split.
  - intros p. unfold manifestPermissions.
    by rewrite newSet_elem, elem_of_app, list_elem_of_singleton.
  - unfold permissionsXml. by rewrite Hlist.
Qed.

Lemma addPermissions_without_closing_tag (content : string) (permissions : list string) :
  Js.includes content "</manifest>" = false →
  addPermissions content permissions = content.
Proof.
  intros Hno. unfold addPermissions.
  induction permissions as [|p ps IH]; simpl; [done|].
  assert (addPermission content p = content) as ->; [|done].
  unfold addPermission, JsReplace.replace.
  destruct (Js.includes content p); [done|]. by apply replaceFrom_absent.
Qed.

(** X21.  A manifest without the closing tag [</manifest>] gets no
    permission from [updateManifestPermissions]: the file is written back
    with the text it had, and nothing is reported. *)
Theorem updateManifestPermissions_without_closing_tag {R : Runtime}
    (manifestPath content : string) (permissions : list string) (s : St R) :
  existsSync (rt_fs R (world s)) manifestPath = true →
  readFileSync (rt_fs R (world s)) manifestPath = Some content →
  Js.includes content "</manifest>" = false →
  updateManifestPermissions manifestPath permissions s
  = ((rt_writeFileSync R manifestPath content (world s)).1,
     {| world := (rt_writeFileSync R manifestPath content (world s)).2;
        trace := EvWriteFileSync manifestPath :: trace s |}).
Proof.
  intros Hex Hread Hno.
  unfold updateManifestPermissions, existsSyncM, readFileSyncM, writeFileSync.
  unfold mbind, M_bind, peek, record, call. cbn [world trace].
  rewrite Hex. cbn [negb]. rewrite Hread.
  rewrite addPermissions_without_closing_tag by done.
  by destruct (rt_writeFileSync R manifestPath content (world s)).
Qed.

Lemma includes_inv (s x : string) :
  Js.includes s x = true → ∃ a c, s = a +:+ x +:+ c.
Proof.
  intros H. destruct (replaceFrom_present "" s x "" H) as (a & c & E & _). eauto.
Qed.

Lemma includes_trans (s q p : string) :
  Js.includes s q = true → Js.includes q p = true → Js.includes s p = true.
Proof.
  intros (a & c & ->)%includes_inv Hp.
  by apply includes_right, includes_left.
Qed.

Lemma permTag_plain (p : string) :
  Js.includes p "$" = false →
  Js.includes ("    " +:+ permTag p +:+ newline +:+ "</manifest>") "$" = false.
Proof.
  intros Hp. unfold permTag. rewrite !includes_char_app, Hp. reflexivity.
Qed.

(** One step of the loop on a manifest that has the closing tag and not the
    name of the permission: the element is put before the tag. *)
Lemma addPermission_inserts (content permission : string) :
  Js.includes permission "$" = false →
  Js.includes content "</manifest>" = true →
  Js.includes content permission = false →
  ∃ a c, content = a +:+ "</manifest>" +:+ c
         ∧ addPermission content permission
           = a +:+ ("    " +:+ permTag permission +:+ newline +:+ "</manifest>") +:+ c.
Proof.
  intros Hplain Htag Hinc. unfold addPermission, JsReplace.replace. rewrite Hinc.
  cbn [negb].
  destruct (replaceFrom_present "" content "</manifest>"
              ("    " +:+ permTag permission +:+ newline +:+ "</manifest>") Htag)
    as (a & c & E & ->).
  exists a, c. split; [done|].
  by rewrite substitute_plain by by apply permTag_plain.
Qed.

Lemma addPermission_includes (content permission : string) :
  Js.includes permission "$" = false →
  Js.includes content "</manifest>" = true →
  Js.includes (addPermission content permission) permission = true.
Proof.
  intros Hplain Htag.
  destruct (Js.includes content permission) eqn:Hinc.
  - unfold addPermission. by rewrite Hinc.
  - destruct (addPermission_inserts content permission) as (a & c & _ & ->); try done.
    apply includes_right, includes_left, includes_right, includes_left.
    unfold permTag. do 2 apply includes_right. apply includes_left, includes_refl.
Qed.

(** X22.  To a manifest that has the closing tag and does not hold the name
    of the permission, [updateManifestPermissions] adds the
    [uses-permission] element of the permission on a line of its own, right
    before the first closing tag, and changes nothing else.  The permission
    is one without a dollar sign, which the replacement would interpret. *)
Theorem addPermission_adds_element (content permission : string) :
  Js.includes permission "$" = false →
  Js.includes content "</manifest>" = true →
  Js.includes content permission = false →
  ∃ a c,
    content = a +:+ "</manifest>" +:+ c
    ∧ Js.includes a "</manifest>" = false
    ∧ addPermission content permission
      = a +:+ "    " +:+ permTag permission +:+ newline +:+ "</manifest>" +:+ c.
Proof.
  intros Hplain Htag Hinc. unfold addPermission, JsReplace.replace. rewrite Hinc.
  cbn [negb].
  destruct (replaceFrom_first "" content "</manifest>"
              ("    " +:+ permTag permission +:+ newline +:+ "</manifest>") Htag)
    as (a & c & E & Hfirst & ->).
  exists a, c. split; [done|]. split; [by apply Hfirst|].
  rewrite substitute_plain by by apply permTag_plain.
  by rewrite !append_assoc.
Qed.

(** X23.  Adding a permission a second time changes nothing: after the
    first time the manifest holds its name, or has no closing tag to put it
    before. *)
Theorem addPermission_idempotent (content permission : string) :
  Js.includes permission "$" = false →
  addPermission (addPermission content permission) permission
  = addPermission content permission.
Proof.
  intros Hplain.
  destruct (Js.includes content "</manifest>") eqn:Htag.
  - unfold addPermission at 1. by rewrite addPermission_includes.
  - assert (addPermission content permission = content) as E; [|by rewrite !E].
    unfold addPermission, JsReplace.replace.
    destruct (Js.includes content permission); [done|]. by apply replaceFrom_absent.
Qed.

(** X24.  [updateManifestPermissions] looks for the bare name of the
    permission anywhere in the text: a permission whose name is part of
    something the manifest already holds, such as a longer permission name,
    is not added. *)
Theorem addPermission_skips_substring (content held permission : string) :
  Js.includes content held = true →
  Js.includes held permission = true →
  addPermission content permission = content.
Proof.
  intros Hheld Hpart. unfold addPermission.
  by rewrite (includes_trans content held permission).
Qed.
(** * Properties of the [prepare] methods *)

Section Prepare_properties.

Context {R : Runtime}.

Lemma requireDirs_inv (projectPath : string) (dirs : list string) (s : St R)
    (r : Outcome unit) (s' : St R) :
  requireDirs projectPath dirs s = (r, s') →
  s' = s
  ∧ match r with
    | Ret _ =>
        Forall (λ dir, existsSync (rt_fs R (world s))
                                  (path_join (rt_host R) [projectPath; dir]) = true) dirs
    | Throw e =>
        ∃ dir, dir ∈ dirs
               ∧ existsSync (rt_fs R (world s))
                            (path_join (rt_host R) [projectPath; dir]) = false
               ∧ e = "Diretório " +:+ dir +:+
                     " não encontrado. Não parece ser um projeto Unity válido."
    end.
Proof.
  induction dirs as [|dir dirs IH]; simpl.
  - intros [= <- <-]. by split.
  - unfold mbind, M_bind, existsSyncM, peek, throw.
    destruct (existsSync _ _) eqn:Hex; simpl.
    + intros H. destruct (IH H) as [-> Hr]. split; [done|].
      destruct r as [[]|e].
      * by constructor.
      * destruct Hr as (d & Hd & ?). exists d. split; [by apply elem_of_cons; right|done].
    + intros [= <- <-]. split; [done|]. exists dir.
      split; [by apply elem_of_cons; left|done].
Qed.

(** X25.  [UnityPipeline.prepare] returns only for a project that has both
    the [Assets] and the [ProjectSettings] directory; it leaves the project
    path in [projectPath] and [unityProjectPath], and the one thing it does
    is create the build directory. *)
Theorem UnityPipeline_prepare_validates (path : string) (ps : PipeState) (s : St R)
    (ps' : PipeState) (s' : St R) :
  UnityPipeline_prepare path ps s = (Ret ps', s') →
  existsSync (rt_fs R (world s')) (path_join (rt_host R) [path; "Assets"]) = true
  ∧ existsSync (rt_fs R (world s')) (path_join (rt_host R) [path; "ProjectSettings"]) = true
  ∧ projectPath ps' = path
  ∧ unityProjectPath ps' = path
  ∧ trace s' = EvMkdirSync (buildDir ps') :: trace s.
Proof.
  unfold UnityPipeline_prepare, createBuildDir, getenv, Date_now, mkdirSync.
  unfold mbind at 1 2 3 4 5 6, M_bind at 1 2 3 4 5 6.
  unfold peek, call_total, record, call, mret, M_ret. cbn [world trace].
  destruct (rt_now R (world s)) as [now w1]. cbn [world trace].
  destruct (rt_mkdirSync R _ w1) as [[[]|e] w2]; [|done].
  match goal with
  | |- context [requireDirs ?p ?d ?st] =>
      destruct (requireDirs p d st) as [[[]|e] s2] eqn:Hreq; [|done]
  end.
  apply requireDirs_inv in Hreq as [-> Hdirs].
  intros [= <- <-]. cbn [world trace projectPath unityProjectPath buildDir].
  apply Forall_cons in Hdirs as [HA Hdirs]. apply Forall_cons in Hdirs as [HP _].
  done.
Qed.

(** X26.  For a directory without [Assets], [UnityPipeline.prepare] throws,
    and it has created the build directory before. *)
Theorem UnityPipeline_prepare_rejects (path : string) (ps : PipeState) (s : St R) :
  (∀ w, existsSync (rt_fs R w) (path_join (rt_host R) [path; "Assets"]) = false) →
  (∀ p w, (rt_mkdirSync R p w).1 = Ret ()) →
  ∃ dir s',
    UnityPipeline_prepare path ps s
    = (Throw "Diretório Assets não encontrado. Não parece ser um projeto Unity válido.", s')
    ∧ trace s' = EvMkdirSync dir :: trace s.
Proof.
  intros Hassets Hmkdir.
  unfold UnityPipeline_prepare, createBuildDir, getenv, Date_now, mkdirSync.
  unfold requireDirs, existsSyncM.
  unfold mbind, M_bind, peek, call_total, record, call, mret, M_ret, throw.
  cbn [world trace].
  destruct (rt_now R (world s)) as [now w1]. cbn [world trace].
  match goal with
  | |- context [rt_mkdirSync R ?p ?w] =>
      pose proof (Hmkdir p w) as Hm; destruct (rt_mkdirSync R p w) as [r w2];
      simpl in Hm; subst r; exists p
  end.
  cbn [world trace]. rewrite Hassets. cbn [negb]. by eexists.
Qed.

Lemma firstMauiCsproj_inv (buildDir : string) (csprojFiles : list string) (s : St R)
    (found : option string) (s' : St R) :
  firstMauiCsproj buildDir csprojFiles s = (Ret found, s') →
  s' = s
  ∧ match found with
    | Some path =>
        ∃ before csproj after,
          csprojFiles = before ++ csproj :: after
          ∧ path = path_join (rt_host R) [buildDir; csproj]
          ∧ Forall (λ f, mauiMarked (rt_host R) (rt_fs R (world s)) buildDir f
                         = Some false) before
          ∧ mauiMarked (rt_host R) (rt_fs R (world s)) buildDir csproj = Some true
    | None =>
        Forall (λ f, mauiMarked (rt_host R) (rt_fs R (world s)) buildDir f = Some false)
               csprojFiles
    end.
Proof.
  induction csprojFiles as [|f files IH]; simpl.
  - intros [= <- <-]. by split.
  - unfold mbind, M_bind, readFileSyncM, mauiMarked in *.
    destruct (readFileSync _ _) as [content|] eqn:Hread; [|done].
    destruct (Js.includes content "Microsoft.Maui" || Js.includes content "UseMaui")
      eqn:Hmark.
    + intros [= <- <-]. split; [done|]. exists [], f, files.
      rewrite Hread. simpl. by rewrite Hmark.
    + intros H. destruct (IH H) as [-> Hfound]. split; [done|].
      destruct found as [path|].
      * destruct Hfound as (before & csproj & after & -> & -> & Hb & Hc).
        exists (f :: before), csproj, after. repeat split; try done.
        constructor; [|done]. rewrite Hread. simpl. by rewrite Hmark.
      * constructor; [|done]. rewrite Hread. simpl. by rewrite Hmark.
Qed.

(** X27.  The project [MauiPipeline.findCsproj] selects is a [.csproj] file
    of the recursive listing of the build directory: the first one that
    mentions [Microsoft.Maui] or [UseMaui], and the first one of the listing
    when none does.  Every [.csproj] file up to the selected one was read;
    the search changes nothing. *)
Theorem findCsproj_prefers_maui (buildDir : string) (s : St R) (path : string)
    (s' : St R) :
  findCsproj buildDir s = (Ret path, s') →
  s' = s
  ∧ ∃ files before csproj after,
      readdirSyncRec (rt_fs R (world s)) buildDir = Some files
      ∧ withExt [".csproj"] files = before ++ csproj :: after
      ∧ path = path_join (rt_host R) [buildDir; csproj]
      ∧ Forall (λ f, mauiMarked (rt_host R) (rt_fs R (world s)) buildDir f = Some false)
               before
      ∧ (mauiMarked (rt_host R) (rt_fs R (world s)) buildDir csproj = Some true
         ∨ (before = []
            ∧ Forall (λ f, mauiMarked (rt_host R) (rt_fs R (world s)) buildDir f
                           = Some false) (csproj :: after))).
Proof.
  unfold findCsproj. unfold mbind at 1, M_bind at 1, readdirSyncRecM.
  destruct (readdirSyncRec _ _) as [files|] eqn:Hls; [|done].
  destruct (withExt [".csproj"] files) as [|first rest] eqn:Hcs; [done|].
  unfold mbind, M_bind.
  destruct (firstMauiCsproj buildDir (first :: rest) s) as [[found|e] s1] eqn:Hfind;
    [|done].
  apply firstMauiCsproj_inv in Hfind as [-> Hfound].
  destruct found as [p|]; intros [= <- <-]; (split; [done|]).
  - destruct Hfound as (before & csproj & after & E & -> & Hb & Hc).
    exists files, before, csproj, after.
    split; [done|]. split; [by rewrite Hcs|]. split; [done|]. split; [done|]. by left.
  - exists files, [], first, rest.
    split; [done|]. split; [by rewrite Hcs|]. split; [done|]. split; [done|]. by right.
Qed.

End Prepare_properties.
(** * Further properties of the environment and of the orchestrator *)

Section Environment_properties.

Context {R : Runtime}.

(** X28.  Where [process.env] behaves as a table, [applyEnvironment] leaves
    the seven toolchain variables at the roots of the environment
    ([ANDROID_SDK_ROOT] at the Android SDK, as [ANDROID_HOME]), puts the six
    tool directories in front of the [PATH] it found, and changes no other
    variable.  It does not look whether the directories are in [PATH]
    already: every call puts them in front again. *)
Theorem applyEnvironment_sets (env : OfflineEnvironment) (s : St R) :
  envIsTable R →
  ∃ w',
    applyEnvironment env s
    = (Ret (), {| world := w'; trace := EvApplyEnvironment :: trace s |})
    ∧ rt_getenv R w' "JAVA_HOME" = Some (JAVA_HOME env)
    ∧ rt_getenv R w' "ANDROID_HOME" = Some (ANDROID_HOME env)
    ∧ rt_getenv R w' "ANDROID_SDK_ROOT" = Some (ANDROID_HOME env)
    ∧ rt_getenv R w' "ANDROID_NDK_HOME" = Some (ANDROID_NDK_HOME env)
    ∧ rt_getenv R w' "GRADLE_USER_HOME" = Some (GRADLE_USER_HOME env)
    ∧ rt_getenv R w' "DOTNET_ROOT" = Some (DOTNET_ROOT env)
    ∧ rt_getenv R w' "npm_config_cache" = Some (NPM_CONFIG_CACHE env)
    ∧ rt_getenv R w' "PATH"
      = (let separator := if platform_win32 (rt_host R) then ";" else ":" in
         Some (Js.join separator (toolDirs (rt_host R) env) +:+ separator +:+
               orElse (rt_getenv R (world s) "PATH") ""))
    ∧ ∀ name, name ∉ appliedNames → rt_getenv R w' name = rt_getenv R (world s) name.
Proof.
  intros Htable.
  unfold applyEnvironment, setenv, getenv.
  unfold mbind, M_bind, record, call_total, peek, mret, M_ret. cbn [world trace].
  eexists. split; [reflexivity|].
  repeat split; rewrite ?Htable; cbn [String.eqb Ascii.eqb Bool.eqb andb]; try done.
  intros name Hname. rewrite !Htable.
  repeat (match goal with
          | |- context [String.eqb ?a name] =>
              destruct (String.eqb_spec a name) as [<-|_];
              [exfalso; apply Hname; unfold appliedNames; set_solver|]
          end).
  done.
Qed.

End Environment_properties.

Section Unknown_project.

Context {R : Runtime}.

(** X29.  When the toolchain is complete and no detector reports anything,
    the orchestrator's [build] fails with the one error that the project
    type is not recognised.  No pipeline stage is entered; the progress it
    reported is 5, then 0, then 10 percent. *)
Theorem build_unknown_project (o : BuildOrchestrator) (projectPath : string)
    (opts : BuildOptions) (w : World R) :
  valid (verifyEnvironment (fsAtCheck w) (orch_env o)) = true →
  (∀ w', detectProject (rt_host R) (rt_fs R w') projectPath
         = Ret (unknownInfo projectPath)) →
  ∃ t s',
    run (build o projectPath opts) w
    = (Ret (failed ["Tipo de projeto não reconhecido"] [] t), s')
    ∧ trace s'
      = [ EvProgress "Detecção" 10 "Tipo detectado: unknown (0% confiança)";
          EvProgress "Detecção" 0 "Analisando estrutura do projeto...";
          EvApplyEnvironment;
          EvProgress "Verificação" 5 "Verificando SDKs embutidos..." ].
Proof.
  intros Hvalid Hunknown. unfold fsAtCheck in Hvalid.
  unfold run, build, buildTry, applyEnvironment, orch_detectProject, setenv, getenv.
  unfold mbind, M_bind, try_catchM, Date_now, call_total, emitProgress,
    record, orch_verifyEnvironment, peek, mret, M_ret.
  cbn [world trace].
  destruct (rt_now R w) as [t0 w1]. cbn [snd] in *. cbn [world trace].
  rewrite Hvalid. cbn [negb world trace].
  rewrite Hunknown. cbn [unknownInfo pi_type pi_confidence].
  destruct (decide (unknown = unknown)) as [_|?]; [|done].
  match goal with
  | |- context [rt_now R ?w] => destruct (rt_now R w) as [t1 w2]
  end.
  by eexists _, _.
Qed.

End Unknown_project.

(** * [generateLocalProperties]: the escaping of backslashes *)

(** X30.  Doubling the backslashes loses nothing: two paths that
    [generateLocalProperties] writes the same way are the same path. *)
Theorem escapeBackslashes_injective (a b : string) :
  escapeBackslashes a = escapeBackslashes b → a = b.
Proof.
  revert b. induction a as [|c a IH]; intros [|d b]; simpl.
  - done.
  - by destruct (Ascii.eqb d "\").
  - by destruct (Ascii.eqb c "\").
  - destruct (Ascii.eqb_spec c "\"%char) as [->|Hc],
             (Ascii.eqb_spec d "\"%char) as [->|Hd].
    + intros [= E]. by rewrite (IH b E).
    + intros [= E1 E2]. congruence.
    + intros [= E1 E2]. congruence.
    + intros [= -> E]. by rewrite (IH b E).
Qed.
(** * The further properties on the scenarios *)

(** X4 on a MAUI project. *)
Lemma detectMauiProject_lists_csproj_witness :
  ∃ files,
    readdirSyncRec Sample.mauiProject "/app" = Some files
    ∧ withExt [".csproj"] files ≠ []
    ∧ ((λ f, path_join Scenario.posix ["/app"; f]) <$> withExt [".csproj"] files)
        `prefix_of` ["/app/App.csproj"; "/app/MauiProgram.cs"].
Proof.
  apply (detectMauiProject_lists_csproj Scenario.posix Sample.mauiProject "/app"
           {| dr_type := maui; dr_confidence := 81;
              dr_detectedFiles := ["/app/App.csproj"; "/app/MauiProgram.cs"] |}).
  vm_compute. reflexivity.
Defined.

(** X5 on a project with only the CMake descriptor. *)
Lemma detectNdkProject_cmake_witness :
  ∃ r, detectNdkProject Scenario.posix Scenario.cmakeOnly "/app" = Some r
       ∧ dr_type r = ndk
       ∧ 35 ≤ dr_confidence r ≤ 100
       ∧ head (dr_detectedFiles r)
         = Some (path_join Scenario.posix ["/app"; "CMakeLists.txt"]).
Proof.
  apply (detectNdkProject_cmake Scenario.posix Scenario.cmakeOnly "/app").
  vm_compute. reflexivity.
Defined.

(** X7 on an Expo application. *)
Lemma detectReactNativeProject_needs_package_json_witness :
  existsSync Scenario.expoPlain (path_join Scenario.posix ["/app"; "package.json"]) = true
  ∧ (∃ content pkg,
       readFileSync Scenario.expoPlain (path_join Scenario.posix ["/app"; "package.json"])
       = Some content
       ∧ JSON_parse Scenario.posix content = Some pkg
       ∧ pkg ≠ JNull)
  ∧ 5 ≤ 50 ≤ 100.
Proof.
  apply (detectReactNativeProject_needs_package_json Scenario.posix Scenario.expoPlain
           "/app"
           {| dr_type := reactnative; dr_confidence := 50;
              dr_detectedFiles := ["/app/package.json"; "/app/app.json"] |}).
  vm_compute. reflexivity.
Defined.

(** X10 where Gradle is killed, without connectivity. *)
Lemma runGradle_signal_is_success_witness :
  ∃ output s',
    runGradle (R := Scenario.offlineKilled) "assembleDebug" "/tmp/apk-builder/web/1"
              Scenario.env (Build_St Scenario.offlineKilled tt [])
    = (Ret {| g_success := true; g_output := output |}, s').
Proof.
  apply (runGradle_signal_is_success (R := Scenario.offlineKilled)).
  intros args w. exists Scenario.killed. split; reflexivity.
Defined.

(** X11 on the web project after Gradle left the debug APK. *)
Lemma pipeline_build_success_has_apk_witness :
  ∃ p, apkPath (built "/tmp/apk-builder/web/1/app/build/outputs/apk/debug/app-debug.apk")
       = Some p
       ∧ errors (built "/tmp/apk-builder/web/1/app/build/outputs/apk/debug/app-debug.apk")
         = [].
Proof.
  apply (pipeline_build_success_has_apk (R := Sample.over Sample.webProjectBuilt)
           WebPipeline Scenario.webState Scenario.env
           (Build_St (Sample.over Sample.webProjectBuilt) tt [])
           (built "/tmp/apk-builder/web/1/app/build/outputs/apk/debug/app-debug.apk")
           (pipeline_build (R := Sample.over Sample.webProjectBuilt)
              WebPipeline Scenario.webState Scenario.env
              (Build_St (Sample.over Sample.webProjectBuilt) tt [])).2).
  - vm_compute. reflexivity.
  - reflexivity.
Defined.

(** X12 on the output of a .NET build. *)
Lemma findGeneratedApk_result_witness :
  Build_St (Sample.over Sample.dotnetOutput) tt []
  = Build_St (Sample.over Sample.dotnetOutput) tt []
  ∧ ∃ dir files apk,
      dir ∈ ["/b/bin/Debug/net8.0-android"; "/b/bin/Debug/net7.0-android"]
      ∧ existsSync Sample.dotnetOutput dir = true
      ∧ readdirSync Sample.dotnetOutput dir = Some files
      ∧ apk ∈ files
      ∧ Js.endsWith apk ".apk" = true
      ∧ Js.includes apk "Signed" = false
      ∧ "/b/bin/Debug/net8.0-android/com.demo.app.apk"
        = path_join Scenario.posix [dir; apk].
Proof.
  apply (findGeneratedApk_result (R := Sample.over Sample.dotnetOutput)
           ["/b/bin/Debug/net8.0-android"; "/b/bin/Debug/net7.0-android"]
           (Build_St (Sample.over Sample.dotnetOutput) tt [])
           "/b/bin/Debug/net8.0-android/com.demo.app.apk"
           (Build_St (Sample.over Sample.dotnetOutput) tt [])).
  vm_compute. reflexivity.
Defined.

(** X13 where no debug keystore exists yet. *)
Lemma getDebugKeystore_result_witness :
  debugKeystore Scenario.posix "."
  = debugKeystore Scenario.posix (homeDir Scenario.allGood tt)
  ∧ ∃ keytool,
      trace (getDebugKeystore (R := Scenario.allGood) Scenario.env
               (Build_St Scenario.allGood tt [])).2
      = (if existsSync Scenario.webProject "./.android/debug.keystore"
         then [] else [EvExecSync keytool])
        ++ [EvMkdirSync "./.android"]
      ∧ Js.includes keytool "-genkeypair" = true.
Proof.
  apply (getDebugKeystore_result (R := Scenario.allGood) Scenario.env
           (Build_St Scenario.allGood tt [])
           (debugKeystore Scenario.posix ".")
           (getDebugKeystore (R := Scenario.allGood) Scenario.env
              (Build_St Scenario.allGood tt [])).2).
  vm_compute. reflexivity.
Defined.

(** X14 on debug options. *)
Lemma sign_debug_uses_debug_keystore_witness :
  ∃ evs,
    trace (sign (R := Scenario.allGood) WebPipeline (Some "/out/app-debug.apk")
                Scenario.debugOptions (Build_St Scenario.allGood tt [])).2
    = evs ++ [EvStage Sign WebPipeline]
    ∧ ∀ e, e ∈ evs →
           debugSignStep Scenario.allGood (homeDir Scenario.allGood tt)
                         "/out/app-debug.apk" e.
Proof.
  apply (sign_debug_uses_debug_keystore (R := Scenario.allGood) WebPipeline
           "/out/app-debug.apk" Scenario.debugOptions
           (Build_St Scenario.allGood tt [])
           (sign (R := Scenario.allGood) WebPipeline (Some "/out/app-debug.apk")
                 Scenario.debugOptions (Build_St Scenario.allGood tt [])).1
           (sign (R := Scenario.allGood) WebPipeline (Some "/out/app-debug.apk")
                 Scenario.debugOptions (Build_St Scenario.allGood tt [])).2).
  - reflexivity.
  - vm_compute. reflexivity.
Defined.

(** X17 where [keytool] exits with code 0. *)
Lemma createReleaseKeystore_result_witness :
  {| ks_path := Some "/keys/release.jks"; ks_password := Some "s3cret";
     ks_alias := Some "upload"; ks_keyPassword := Some "k3y" |}
  = {| ks_path := Some "/keys/release.jks"; ks_password := Some "s3cret";
       ks_alias := Some "upload"; ks_keyPassword := Some "k3y" |}
  ∧ ∃ w child,
      let keytool := path_join Scenario.posix [JAVA_HOME Scenario.env; "bin"; "keytool"] in
      let args :=
        Some <$> [ "-genkeypair"; "-v"; "-keystore"; "/keys/release.jks";
                   "-storepass"; "s3cret"; "-alias"; "upload"; "-keypass"; "k3y";
                   "-keyalg"; "RSA"; "-keysize"; "2048"; "-validity"; "10000";
                   "-dname"; "CN=Demo" ] in
      trace (createReleaseKeystore (R := Scenario.allGood) "/keys/release.jks" "s3cret"
               "upload" "k3y" "CN=Demo" Scenario.env (Build_St Scenario.allGood tt [])).2
      = [EvSpawn keytool args; EvMkdirSync (path_dirname Scenario.posix "/keys/release.jks")]
      ∧ (rt_spawn Scenario.allGood keytool args None [] w).1 = Ret child
      ∧ pr_end child = Closed (Some 0).
Proof.
  apply (createReleaseKeystore_result (R := Scenario.allGood) "/keys/release.jks"
           "s3cret" "upload" "k3y" "CN=Demo" Scenario.env
           (Build_St Scenario.allGood tt [])
           {| ks_path := Some "/keys/release.jks"; ks_password := Some "s3cret";
              ks_alias := Some "upload"; ks_keyPassword := Some "k3y" |}
           (createReleaseKeystore (R := Scenario.allGood) "/keys/release.jks" "s3cret"
              "upload" "k3y" "CN=Demo" Scenario.env (Build_St Scenario.allGood tt [])).2).
  vm_compute. reflexivity.
Defined.

(** X21 on a manifest that was cut off. *)
Lemma updateManifestPermissions_without_closing_tag_witness :
  updateManifestPermissions (R := Sample.over Sample.truncatedManifest)
    "/b/AndroidManifest.xml" ["android.permission.CAMERA"]
    (Build_St (Sample.over Sample.truncatedManifest) tt [])
  = (Ret (), Build_St (Sample.over Sample.truncatedManifest) tt
               [EvWriteFileSync "/b/AndroidManifest.xml"]).
Proof.
  apply (updateManifestPermissions_without_closing_tag
           (R := Sample.over Sample.truncatedManifest)
           "/b/AndroidManifest.xml" "<manifest><application />"
           ["android.permission.CAMERA"]
           (Build_St (Sample.over Sample.truncatedManifest) tt []));
    vm_compute; reflexivity.
Defined.

(** X22 where the camera permission is added. *)
Lemma addPermission_adds_element_witness :
  ∃ a c,
    Sample.bluetoothManifest = a +:+ "</manifest>" +:+ c
    ∧ Js.includes a "</manifest>" = false
    ∧ addPermission Sample.bluetoothManifest "android.permission.CAMERA"
      = a +:+ "    " +:+ permTag "android.permission.CAMERA" +:+ newline +:+
        "</manifest>" +:+ c.
Proof.
  apply (addPermission_adds_element Sample.bluetoothManifest "android.permission.CAMERA");
    vm_compute; reflexivity.
Defined.

(** X24 where the manifest holds [BLUETOOTH_ADMIN] and [BLUETOOTH] is asked
    for: it is not added. *)
Lemma addPermission_skips_substring_witness :
  addPermission Sample.bluetoothManifest "android.permission.BLUETOOTH"
  = Sample.bluetoothManifest.
Proof.
  apply (addPermission_skips_substring Sample.bluetoothManifest
           "android.permission.BLUETOOTH_ADMIN" "android.permission.BLUETOOTH");
    vm_compute; reflexivity.
Defined.

(** X23 on the camera permission. *)
Lemma addPermission_idempotent_witness :
  addPermission (addPermission Sample.bluetoothManifest "android.permission.CAMERA")
                "android.permission.CAMERA"
  = addPermission Sample.bluetoothManifest "android.permission.CAMERA".
Proof.
  apply (addPermission_idempotent Sample.bluetoothManifest "android.permission.CAMERA").
  vm_compute. reflexivity.
Defined.

(** X25 on a Unity project. *)
Lemma UnityPipeline_prepare_validates_witness :
  existsSync Sample.unityProject (path_join Scenario.posix ["/game"; "Assets"]) = true
  ∧ existsSync Sample.unityProject
               (path_join Scenario.posix ["/game"; "ProjectSettings"]) = true
  ∧ "/game" = "/game"
  ∧ "/game" = "/game"
  ∧ [EvMkdirSync "/tmp/apk-builder/unity/0"] = [EvMkdirSync "/tmp/apk-builder/unity/0"].
Proof.
  apply (UnityPipeline_prepare_validates (R := Sample.over Sample.unityProject)
           "/game" Scenario.webState
           (Build_St (Sample.over Sample.unityProject) tt [])
           {| buildDir := "/tmp/apk-builder/unity/0"; projectPath := "/game";
              options := None; hasAndroidDir := false; isExpo := false;
              csprojPath := ""; unityProjectPath := "/game" |}
           (Build_St (Sample.over Sample.unityProject) tt
              [EvMkdirSync "/tmp/apk-builder/unity/0"])).
  vm_compute. reflexivity.
Defined.

(** X26 on a web project. *)
Lemma UnityPipeline_prepare_rejects_witness :
  ∃ dir s',
    UnityPipeline_prepare (R := Scenario.allGood) "/app" Scenario.webState
                          (Build_St Scenario.allGood tt [])
    = (Throw "Diretório Assets não encontrado. Não parece ser um projeto Unity válido.",
       s')
    ∧ trace s' = [EvMkdirSync dir].
Proof.
  apply (UnityPipeline_prepare_rejects (R := Scenario.allGood) "/app" Scenario.webState
           (Build_St Scenario.allGood tt [])).
  - intros w. vm_compute. reflexivity.
  - intros p w. reflexivity.
Defined.

(** X27 where a class library comes before the MAUI project. *)
Lemma findCsproj_prefers_maui_witness :
  Build_St (Sample.over Sample.twoCsproj) tt [] = Build_St (Sample.over Sample.twoCsproj) tt []
  ∧ ∃ files before csproj after,
      readdirSyncRec Sample.twoCsproj "/b" = Some files
      ∧ withExt [".csproj"] files = before ++ csproj :: after
      ∧ "/b/App.csproj" = path_join Scenario.posix ["/b"; csproj]
      ∧ Forall (λ f, mauiMarked Scenario.posix Sample.twoCsproj "/b" f = Some false) before
      ∧ (mauiMarked Scenario.posix Sample.twoCsproj "/b" csproj = Some true
         ∨ (before = []
            ∧ Forall (λ f, mauiMarked Scenario.posix Sample.twoCsproj "/b" f = Some false)
                     (csproj :: after))).
Proof.
  apply (findCsproj_prefers_maui (R := Sample.over Sample.twoCsproj) "/b"
           (Build_St (Sample.over Sample.twoCsproj) tt []) "/b/App.csproj"
           (Build_St (Sample.over Sample.twoCsproj) tt [])).
  vm_compute. reflexivity.
Defined.

Lemma withEnv_table : envIsTable Sample.withEnv.
Proof.
  intros name value w name'. simpl.
  destruct (String.eqb_spec name name') as [->|Hne].
  - apply lookup_insert_eq.
  - by apply lookup_insert_ne.
Qed.

(** X28 on a table that holds a [PATH]. *)
Lemma applyEnvironment_sets_witness :
  ∃ w',
    applyEnvironment (R := Sample.withEnv) Scenario.env
      (Build_St Sample.withEnv {[ "PATH" := "/usr/bin" ]} [])
    = (Ret (), Build_St Sample.withEnv w' [EvApplyEnvironment])
    ∧ w' !! "JAVA_HOME" = Some "/opt/bundled/jdk"
    ∧ w' !! "ANDROID_HOME" = Some "/opt/bundled/android-sdk"
    ∧ w' !! "ANDROID_SDK_ROOT" = Some "/opt/bundled/android-sdk"
    ∧ w' !! "ANDROID_NDK_HOME" = Some "/opt/bundled/ndk/r26"
    ∧ w' !! "GRADLE_USER_HOME" = Some "/opt/bundled/gradle-cache"
    ∧ w' !! "DOTNET_ROOT" = Some "/opt/bundled/dotnet"
    ∧ w' !! "npm_config_cache" = Some "/opt/bundled/npm-cache"
    ∧ w' !! "PATH"
      = Some (Js.join ":" (toolDirs Scenario.posix Scenario.env) +:+ ":" +:+ "/usr/bin")
    ∧ ∀ name, name ∉ appliedNames →
              w' !! name = ({[ "PATH" := "/usr/bin" ]} : gmap string string) !! name.
Proof.
  exact (applyEnvironment_sets (R := Sample.withEnv) Scenario.env
           (Build_St Sample.withEnv {[ "PATH" := "/usr/bin" ]} []) withEnv_table).
Defined.

(** X29 on an empty directory. *)
Lemma build_unknown_project_witness :
  ∃ t s',
    run (R := Sample.over Sample.toolchainOnly)
        (build (newBuildOrchestrator (Sample.over Sample.toolchainOnly)) "/app"
               Scenario.debugOptions) tt
    = (Ret (failed ["Tipo de projeto não reconhecido"] [] t), s')
    ∧ trace s'
      = [ EvProgress "Detecção" 10 "Tipo detectado: unknown (0% confiança)";
          EvProgress "Detecção" 0 "Analisando estrutura do projeto...";
          EvApplyEnvironment;
          EvProgress "Verificação" 5 "Verificando SDKs embutidos..." ].
Proof.
  apply (build_unknown_project (R := Sample.over Sample.toolchainOnly)
           (newBuildOrchestrator (Sample.over Sample.toolchainOnly)) "/app"
           Scenario.debugOptions tt).
  - vm_compute. reflexivity.
  - intros w'. vm_compute. reflexivity.
Defined.

(** X30 on a Windows path. *)
Lemma escapeBackslashes_injective_witness : "C:\sdk\ndk" = "C:\sdk\ndk".
Proof.
  apply (escapeBackslashes_injective "C:\sdk\ndk" "C:\sdk\ndk"). reflexivity.
Defined.
